(** * predictionShiftReact: the dashboard's client-side logic

    A shallow embedding of the logic of the application's main module
    ([App.jsx], in its latest revision):

    - [useApi], the fetch hook, as a transition system over the hook's
      [{data, loading, error}] state and its requests in flight;
    - [buildNormPoints], the sparkline normaliser;
    - the composite index computed inside [Dashboard], with the sparkline
      that [Dashboard] draws inline;
    - [ScreenerPage]: [passMin], [sortRows], [applyFilters], [resetFilters],
      [refreshOnly], [totalPages], the page buttons and the page's effects.

    JavaScript numbers are modelled by the rationals extended with [NaN] and
    the two infinities: arithmetic on finite values is exact, so the rounding
    of IEEE doubles and the sign of zero are not represented.  Everything else
    about numbers that the source relies on ([NaN] propagation, comparisons
    with [NaN], division by zero, truthiness, [Number(...)] coercion) is. *)

From Stdlib Require Import ZArith QArith Qcanon Qround Qpower.
From Stdlib Require Import List String Ascii Bool Lia.
From Stdlib Require Import Permutation Sorted Lqa OrderedTypeEx.
Import ListNotations.

Set Implicit Arguments.

(** ** The fragment of JavaScript the source relies on *)

Module JS.

Local Open Scope Z_scope.

(** *** Numbers *)

Inductive num : Type :=
| Fin (q : Qc)
| PInf
| NInf
| NaN.

(** An integer as a rational, and as a number. *)
Definition zq (z : Z) : Qc := Q2Qc (inject_Z z).
Definition ofZ (z : Z) : num := Fin (zq z).
Definition ofNat (n : nat) : num := ofZ (Z.of_nat n).

Definition Qc_eqb (a b : Qc) : bool := Qeq_bool a b.
Definition Qc_ltb (a b : Qc) : bool := negb (Qle_bool b a).
Definition Qc_leb (a b : Qc) : bool := Qle_bool a b.
Definition Qc_is0 (a : Qc) : bool := Qc_eqb a (zq 0).

(** Structural equality test on numbers (not the [===] of the language:
    it relates [NaN] to itself). *)
Definition num_eqb (x y : num) : bool :=
  match x, y with
  | Fin a, Fin b => Qc_eqb a b
  | PInf, PInf | NInf, NInf | NaN, NaN => true
  | _, _ => false
  end.

Definition isNaN (x : num) : bool :=
  match x with NaN => true | _ => false end.

Definition isFinite (x : num) : bool :=
  match x with Fin _ => true | _ => false end.

Definition neg (x : num) : num :=
  match x with
  | Fin a => Fin (- a)%Qc
  | PInf => NInf
  | NInf => PInf
  | NaN => NaN
  end.

Definition add (x y : num) : num :=
  match x, y with
  | NaN, _ | _, NaN => NaN
  | Fin a, Fin b => Fin (a + b)%Qc
  | PInf, NInf | NInf, PInf => NaN
  | PInf, _ | _, PInf => PInf
  | NInf, _ | _, NInf => NInf
  end.

Definition sub (x y : num) : num := add x (neg y).

(** Sign of a number as an infinity: used where an infinite operand meets a
    finite one. *)
Definition signed_inf (positive : bool) : num :=
  if positive then PInf else NInf.

Definition mul (x y : num) : num :=
  match x, y with
  | NaN, _ | _, NaN => NaN
  | Fin a, Fin b => Fin (a * b)%Qc
  | Fin a, PInf | PInf, Fin a =>
      if Qc_is0 a then NaN else signed_inf (Qc_ltb (zq 0) a)
  | Fin a, NInf | NInf, Fin a =>
      if Qc_is0 a then NaN else signed_inf (Qc_ltb a (zq 0))
  | PInf, PInf | NInf, NInf => PInf
  | PInf, NInf | NInf, PInf => NInf
  end.

Definition div (x y : num) : num :=
  match x, y with
  | NaN, _ | _, NaN => NaN
  | Fin a, Fin b =>
      if Qc_is0 b
      then (if Qc_is0 a then NaN else signed_inf (Qc_ltb (zq 0) a))
      else Fin (a / b)%Qc
  | Fin _, PInf | Fin _, NInf => Fin (zq 0)
  | PInf, Fin b => signed_inf (Qc_leb (zq 0) b)
  | NInf, Fin b => signed_inf (Qc_ltb b (zq 0))
  | _, _ => NaN
  end.

(** [x < y], [x <= y], [x >= y]: false as soon as an operand is [NaN]. *)
Definition ltb (x y : num) : bool :=
  match x, y with
  | NaN, _ | _, NaN => false
  | Fin a, Fin b => Qc_ltb a b
  | NInf, NInf | PInf, _ => false
  | NInf, _ => true
  | Fin _, PInf => true
  | Fin _, NInf => false
  end.

Definition leb (x y : num) : bool :=
  match x, y with
  | NaN, _ | _, NaN => false
  | _, _ => negb (ltb y x)
  end.

Definition geb (x y : num) : bool := leb y x.

(** [Math.min(...xs)] and [Math.max(...xs)]: the identity is the opposite
    infinity and any [NaN] argument makes the result [NaN]. *)
Definition min2 (x y : num) : num :=
  match x, y with
  | NaN, _ | _, NaN => NaN
  | _, _ => if ltb y x then y else x
  end.

Definition max2 (x y : num) : num :=
  match x, y with
  | NaN, _ | _, NaN => NaN
  | _, _ => if ltb x y then y else x
  end.

Definition Math_min (xs : list num) : num := fold_left min2 xs PInf.
Definition Math_max (xs : list num) : num := fold_left max2 xs NInf.

Definition Math_ceil (x : num) : num :=
  match x with
  | Fin a => ofZ (Qceiling a)
  | _ => x
  end.

(** Truthiness of a number: zero and [NaN] are falsy. *)
Definition num_truthy (x : num) : bool :=
  match x with
  | Fin a => negb (Qc_is0 a)
  | NaN => false
  | _ => true
  end.

(** [x || y] on numbers. *)
Definition num_or (x y : num) : num := if num_truthy x then x else y.

(** *** Strings converted to numbers

    [StringToNumber] follows the language's grammar of numeric strings:
    surrounding white space is dropped, the empty string is [0], then an
    optionally signed decimal literal (with fraction and exponent, or
    [Infinity]) or an unsigned [0x], [0o] or [0b] integer; anything else is
    [NaN].  Only the ASCII white space characters are recognised. *)

Definition code (c : ascii) : Z := Z.of_N (N_of_ascii c).

Definition is_space (c : ascii) : bool :=
  let n := code c in ((9 <=? n) && (n <=? 13)) || (n =? 32).

Definition digit_val (c : ascii) : option Z :=
  let n := code c in
  if (48 <=? n) && (n <=? 57) then Some (n - 48)
  else if (97 <=? n) && (n <=? 102) then Some (n - 87)
  else if (65 <=? n) && (n <=? 70) then Some (n - 55)
  else None.

(** Longest prefix of digits of the given base: its value, its length and
    what follows it. *)
Fixpoint read_digits (base : Z) (s : list ascii) (acc : Z) (cnt : nat)
  : Z * nat * list ascii :=
  match s with
  | c :: s' =>
      match digit_val c with
      | Some d =>
          if d <? base then read_digits base s' (acc * base + d) (S cnt)
          else (acc, cnt, s)
      | None => (acc, cnt, s)
      end
  | [] => (acc, cnt, s)
  end.

Fixpoint drop_spaces (s : list ascii) : list ascii :=
  match s with
  | c :: s' => if is_space c then drop_spaces s' else s
  | [] => []
  end.

Definition trim (s : list ascii) : list ascii :=
  rev (drop_spaces (rev (drop_spaces s))).

Definition is_e (c : ascii) : bool := (code c =? 101) || (code c =? 69).

(** The rest of a decimal literal after its digits: nothing, or an
    exponent part reaching the end of the string. *)
Definition parse_exponent (s : list ascii) : option Z :=
  match s with
  | [] => Some 0
  | c :: s' =>
      if is_e c then
        let '(sg, s'') :=
          match s' with
          | "+"%char :: t => (1, t)
          | "-"%char :: t => (-1, t)
          | _ => (1, s')
          end in
        let '(v, n, rest) := read_digits 10 s'' 0 0 in
        match n, rest with
        | S _, [] => Some (sg * v)
        | _, _ => None
        end
      else None
  end.

Definition pow10 (e : Z) : Q := Qpower 10 e.

Definition parse_unsigned_decimal (s : list ascii) : option num :=
  if list_eq_dec ascii_dec s (list_ascii_of_string "Infinity") then Some PInf
  else
    let '(ip, ni, r1) := read_digits 10 s 0 0 in
    let '(fp, nf, r2) :=
      match r1 with
      | "."%char :: t => read_digits 10 t 0 0
      | _ => (0, O, r1)
      end in
    match ni, nf with
    | O, O => None
    | _, _ =>
        match parse_exponent r2 with
        | Some e =>
            Some (Fin (Q2Qc ((inject_Z ip
                              + inject_Z fp / pow10 (Z.of_nat nf))
                             * pow10 e)))
        | None => None
        end
    end.

Definition parse_radix (base : Z) (s : list ascii) : option num :=
  match read_digits base s 0 0 with
  | (v, S _, []) => Some (ofZ v)
  | _ => None
  end.

Definition parse_numeric (s : list ascii) : option num :=
  match s with
  | [] => Some (ofZ 0)
  | "+"%char :: t => parse_unsigned_decimal t
  | "-"%char :: t => option_map neg (parse_unsigned_decimal t)
  | "0"%char :: c :: t =>
      let n := code c in
      if (n =? 120) || (n =? 88) then parse_radix 16 t
      else if (n =? 111) || (n =? 79) then parse_radix 8 t
      else if (n =? 98) || (n =? 66) then parse_radix 2 t
      else parse_unsigned_decimal s
  | _ => parse_unsigned_decimal s
  end.

Definition StringToNumber (s : string) : num :=
  match parse_numeric (trim (list_ascii_of_string s)) with
  | Some n => n
  | None => NaN
  end.

(** *** Values

    The values a parsed JSON body or a form field can hold, and
    [undefined] for a property that is absent. *)

#[warnings="-register-all"]
Inductive value : Type :=
| VUndefined
| VNull
| VBool (b : bool)
| VNum (n : num)
| VStr (s : string)
| VArr (items : list value)
| VObj (fields : list (string * value)).


(** [Number(v)].  An array goes through its string form: the empty array
    is the empty string, a one-element array is its element's string, and
    a longer one contains a comma, which no numeric string does; a plain
    object prints as [[object Object]]. *)
Fixpoint ToNumber (v : value) : num :=
  match v with
  | VUndefined => NaN
  | VNull => ofZ 0
  | VBool b => if b then ofZ 1 else ofZ 0
  | VNum n => n
  | VStr s => StringToNumber s
  | VArr [] => ofZ 0
  | VArr [x] =>
      match x with
      | VUndefined | VNull => ofZ 0
      | VBool _ | VObj _ => NaN
      | _ => ToNumber x
      end
  | VArr _ => NaN
  | VObj _ => NaN
  end.

Definition ToBoolean (v : value) : bool :=
  match v with
  | VUndefined | VNull => false
  | VBool b => b
  | VNum n => num_truthy n
  | VStr s => negb (String.eqb s "")
  | VArr _ | VObj _ => true
  end.

(** [a || b] *)
Definition or_else (a b : value) : value := if ToBoolean a then a else b.

(** A row is a JSON object; reading a property that it lacks gives
    [undefined]. *)
Definition row : Type := list (string * value).

Fixpoint get (r : row) (k : string) : value :=
  match r with
  | [] => VUndefined
  | (k', v) :: r' => if String.eqb k' k then v else get r' k
  end.

End JS.

Import JS.

(** ** [useApi]: the fetch hook

    One instance of the hook: its three state cells and the requests it has
    issued that have not settled yet, each with the [aborted] flag of its
    [AbortController].  The type [json] is what a parsed body is. *)

Module UseApi.

Inductive failure : Type :=
| HttpError (status : Z)   (* new Error(`HTTP ${res.status}`) *)
| TypeError                (* the network failed *)
| SyntaxError              (* the body is not JSON *)
| AbortError.              (* the signal was aborted *)

Definition name (e : failure) : string :=
  match e with
  | HttpError _ => "Error"
  | TypeError => "TypeError"
  | SyntaxError => "SyntaxError"
  | AbortError => "AbortError"
  end.

Inductive settled (A : Type) : Type :=
| Fulfilled (a : A)
| Rejected (e : failure).

Arguments Fulfilled {A} a.
Arguments Rejected {A} e.

Definition and_then {A B : Type} (p : settled A) (f : A -> settled B)
  : settled B :=
  match p with
  | Fulfilled a => f a
  | Rejected e => Rejected e
  end.

Section Hook.

Variable json : Type.

(** What [fetch] resolves to: [json_body] is what [res.json()] settles to. *)
Record response : Type := Response {
  ok : bool;
  status : Z;
  json_body : settled json
}.

Record hook : Type := Hook {
  data : option json;     (* [None] is [null] *)
  loading : bool;
  error : option failure  (* [None] is [null] *)
}.

Definition setData (j : json) (h : hook) : hook :=
  {| data := Some j; loading := loading h; error := error h |}.
Definition setLoading (b : bool) (h : hook) : hook :=
  {| data := data h; loading := b; error := error h |}.
Definition setError (e : option failure) (h : hook) : hook :=
  {| data := data h; loading := loading h; error := e |}.

(** [useState(null)], [useState(true)], [useState(null)] *)
Definition initial : hook :=
  {| data := None; loading := true; error := None |}.

(** The first [.then]: a response that is not [ok] is thrown as an error. *)
Definition check_ok (res : response) : settled json :=
  if negb (ok res) then Rejected (HttpError (status res)) else json_body res.

(** The handlers chained on [fetch(...)], run when the chain settles:
    [.then(setData)], [.catch] with its [AbortError] guard, [.finally]. *)
Definition on_settle (r : settled response) (h : hook) : hook :=
  let h1 :=
    match and_then r check_ok with
    | Fulfilled j => setData j h
    | Rejected err =>
        if negb (String.eqb (name err) "AbortError")
        then setError (Some err) h
        else h
    end in
  setLoading false h1.

Record request : Type := Request {
  rid : nat;
  aborted : bool
}.

Record sys : Type := Sys {
  hk : hook;
  issued : nat;               (* how many times the effect has run *)
  pending : list request      (* issued and not settled *)
}.

Definition abort (k : nat) (rs : list request) : list request :=
  map (fun r => if Nat.eqb (rid r) k
                then {| rid := rid r; aborted := true |} else r) rs.

(** The clean-up of the previous run of the effect, if there is one:
    [controller.abort()]. *)
Definition cleanup (s : sys) : list request :=
  match issued s with
  | O => pending s
  | S k => abort k (pending s)
  end.

(** A run of the effect: on mount and at every change of
    [[endpoint, JSON.stringify(params)]]. *)
Definition run_effect (s : sys) : sys :=
  {| hk := setError None (setLoading true (hk s));
     issued := S (issued s);
     pending := cleanup s ++ [{| rid := issued s; aborted := false |}] |}.

Definition unmounted : sys :=
  {| hk := initial; issued := O; pending := [] |}.

Definition mount : sys := run_effect unmounted.

(** What the chain of request [r] settles with, the network having
    produced [net]: an aborted signal rejects it with [AbortError]. *)
Definition outcome (r : request) (net : settled response)
  : settled response :=
  if aborted r then Rejected AbortError else net.

Definition in_flight (k : nat) (s : sys) : option request :=
  find (fun r => Nat.eqb (rid r) k) (pending s).

(** Request [k] settles. *)
Definition settle (k : nat) (net : settled response) (s : sys) : sys :=
  match in_flight k s with
  | None => s
  | Some r =>
      {| hk := on_settle (outcome r net) (hk s);
         issued := issued s;
         pending :=
           filter (fun r' => negb (Nat.eqb (rid r') k)) (pending s) |}
  end.

(** The request of the latest run of the effect. *)
Definition current (s : sys) : option nat :=
  match issued s with
  | O => None
  | S k => Some k
  end.

Inductive event : Type :=
| IdentityChanged
| Settled (k : nat) (net : settled response).

Definition step (s : sys) (e : event) : sys :=
  match e with
  | IdentityChanged => run_effect s
  | Settled k net => settle k net s
  end.

Definition run (s : sys) (es : list event) : sys := fold_left step es s.

(** The shape of the states the hook reaches: the requests in flight were
    issued by earlier runs of the effect, and all but the latest are
    aborted. *)
Definition well_formed (s : sys) : Prop :=
  forall r, In r (pending s) ->
            (rid r < issued s)%nat /\
            (aborted r = false -> S (rid r) = issued s).

End Hook.

End UseApi.

(** ** [buildNormPoints]: the sparkline normaliser *)

Module Chart.

Fixpoint mapi_from {A B : Type} (f : A -> nat -> B) (i : nat) (l : list A)
  : list B :=
  match l with
  | [] => []
  | a :: l' => f a i :: mapi_from f (S i) l'
  end.

(** [array.map((v, i) => ...)] *)
Definition mapi {A B : Type} (f : A -> nat -> B) (l : list A) : list B :=
  mapi_from f O l.

(** The body of the [map] callback, before the point is printed. *)
Definition point (n : nat) (w h pad mn span : num) (v : value) (i : nat)
  : num * num :=
  let x := mul (div (ofNat i) (sub (ofNat n) (ofZ 1))) w in
  let norm := div (sub (ToNumber v) mn) span in
  let y := sub (sub h pad) (mul norm (sub h (mul pad (ofZ 2)))) in
  (x, y).

Definition normPoints (values : list value) (w h pad : num)
  : list (num * num) :=
  let nums := map ToNumber values in
  let mn := Math_min nums in
  let mx := Math_max nums in
  let span := num_or (sub mx mn) (ofZ 1) in
  mapi (point (List.length values) w h pad mn span) values.

(** The points of the chart; [None] stands for a missing ([undefined] or
    [null]) argument. *)
Definition chartPoints (values : option (list value)) (w h pad : num)
  : list (num * num) :=
  match values with
  | None => []
  | Some vs =>
      if Nat.ltb (List.length vs) 2 then [] else normPoints vs w h pad
  end.

Section Printing.

(** How a number prints inside a template literal. *)
Variable NumberToString : num -> string.

Definition print_point (p : num * num) : string :=
  (NumberToString (fst p) ++ "," ++ NumberToString (snd p))%string.

(** [points.join(' ')] *)
Definition join_points (ps : list (num * num)) : string :=
  String.concat " " (map print_point ps).

Definition buildNormPoints_with (values : option (list value))
  (w h pad : num) : string :=
  match values with
  | None => ""
  | Some vs =>
      if Nat.ltb (List.length vs) 2 then ""
      else join_points (normPoints vs w h pad)
  end.

(** [buildNormPoints(values, w = 100, h = 40, pad = 4)] with its defaults. *)
Definition buildNormPoints (values : option (list value)) : string :=
  buildNormPoints_with values (ofZ 100) (ofZ 40) (ofZ 4).

End Printing.

(** A series whose values are all finite numbers. *)
Definition finite_series (qs : list Qc) : list value :=
  map (fun a => VNum (Fin a)) qs.

(** [max - min || 1] for finite [min] and [max]. *)
Definition span_of (mn mx : Qc) : Qc :=
  if Qc_eq_dec mx mn then zq 1 else (mx - mn)%Qc.

(** The middle of the padded band [[pad, h - pad]]. *)
Definition mid_band (h pad : num) : num :=
  div (add pad (sub h pad)) (ofZ 2).

End Chart.

(** ** [Dashboard]: the composite index and its inline sparkline *)

Module Dashboard.

Record sample : Type := Sample {
  ts : value;
  index : num
}.

(** [deltas[0].field || 1] *)
Definition base (r0 : row) (field : string) : value :=
  or_else (get r0 field) (VNum (ofZ 1)).

Definition ratio (r : row) (field : string) (b : value) : num :=
  div (ToNumber (get r field)) (ToNumber b).

Definition sampleOf (baseVol baseOi baseWide : value) (r : row) : sample :=
  let relVol := ratio r "d_volume_6h" baseVol in
  let relOi := ratio r "d_oi_6h" baseOi in
  let relWide := ratio r "d_wide_6h" baseWide in
  {| ts := get r "snap_ts";
     index := div (mul (ofZ 100) (add (add relVol relOi) relWide)) (ofZ 3) |}.

(** [series] for an array [data]; the empty array is the case the guard
    [data.length > 0] leaves out. *)
Definition series (data : list row) : list sample :=
  match rev data with
  | [] => []
  | (r0 :: _) as deltas =>
      map (sampleOf (base r0 "d_volume_6h") (base r0 "d_oi_6h")
                    (base r0 "d_wide_6h")) deltas
  end.

(** A row of [/global-6h-deltas] whose three deltas are finite numbers. *)
Definition delta_row (t : value) (v o w : Qc) : row :=
  [("snap_ts"%string, t); ("d_volume_6h"%string, VNum (Fin v));
   ("d_oi_6h"%string, VNum (Fin o)); ("d_wide_6h"%string, VNum (Fin w))].

(** A finite baseline field after [|| 1]. *)
Definition base_of (x : Qc) : Qc :=
  if Qc_eq_dec x (zq 0) then zq 1 else x.

Definition delta_rows (ds : list (value * Qc * Qc * Qc)) : list row :=
  map (fun d => let '(t, v, o, w) := d in delta_row t v o w) ds.

(** The index as the specification words it, for finite deltas and the
    baseline [(v0, o0, w0)]: [100 * (sum of the three ratios) / 3]. *)
Definition spec_sample (v0 o0 w0 : Qc) (d : value * Qc * Qc * Qc)
  : sample :=
  let '(t, v, o, w) := d in
  {| ts := t;
     index := Fin (zq 100 * (v / base_of v0 + o / base_of o0
                             + w / base_of w0) / zq 3)%Qc |}.

Definition latestIndex (data : list row) : option num :=
  match series data with
  | [] => None
  | s :: ss => Some (index (last ss s))
  end.

(** The points of [vixPoints], before they are printed and joined. *)
Definition vixPoints (data : list row) : list (num * num) :=
  let s := series data in
  let values := map index s in
  let mn := Math_min values in
  let mx := Math_max values in
  let span := num_or (sub mx mn) (ofZ 1) in
  Chart.mapi
    (fun p i =>
       let x := if Nat.eqb (List.length s) 1 then ofZ 0
                else mul (div (ofNat i) (sub (ofNat (List.length s)) (ofZ 1)))
                         (ofZ 100) in
       let norm := div (sub (index p) mn) span in
       let y := sub (ofZ 35) (mul norm (ofZ 25)) in
       (x, y))
    s.

End Dashboard.

(** ** [ScreenerPage] *)

Module Screener.

Import UseApi.

(** A parsed body of [/markets/screener]: an array of row objects, or
    anything else. *)
Inductive payload : Type :=
| Rows (rs : list row)
| NotArray (v : value).

(** The fields of the form are the strings its inputs hold. *)
Record form : Type := Form {
  minVolume : string;
  minOpenInterest : string;
  minSpread : string;
  minTradability : string;
  minChurn : string;
  sortBy : string;
  sortDir : string
}.

Definition defaultForm : form :=
  {| minVolume := ""; minOpenInterest := ""; minSpread := "";
     minTradability := ""; minChurn := "";
     sortBy := "tradability_score"; sortDir := "desc" |}.

Record state : Type := State {
  theForm : form;
  refreshNonce : num;
  allRows : list row;
  filteredRows : list row;
  page : num;
  pageSize : num;
  screener : sys payload
}.

(** The arguments of [useApi]: what the effect's dependencies are made of. *)
Definition endpoint : string := "/markets/screener".

Definition params (nonce : num) : list (string * value) :=
  [("limit"%string, VNum (ofZ 250)); ("_refresh"%string, VNum nonce)].

Definition identity (s : state) : string * list (string * value) :=
  (endpoint, params (refreshNonce s)).

Definition passMin (v minValue : value) : bool :=
  match minValue with
  | VStr EmptyString | VNull | VUndefined => true
  | _ =>
      let min := ToNumber minValue in
      if isNaN min then true
      else
        match v with
        | VNum n => geb n min          (* typeof value === 'number' *)
        | _ =>
            let numericValue := ToNumber v in
            if isNaN numericValue then false
            else geb numericValue min
        end
  end.

(** The names of the form's inputs. *)
Inductive input : Type :=
| InMinVolume | InMinOpenInterest | InMinSpread | InMinTradability
| InMinChurn | InSortBy | InSortDir.

(** [setForm((prev) => ({ ...prev, [name]: value }))] *)
Definition handleChange (i : input) (v : string) (f : form) : form :=
  match i with
  | InMinVolume =>
      Form v (minOpenInterest f) (minSpread f) (minTradability f)
           (minChurn f) (sortBy f) (sortDir f)
  | InMinOpenInterest =>
      Form (minVolume f) v (minSpread f) (minTradability f)
           (minChurn f) (sortBy f) (sortDir f)
  | InMinSpread =>
      Form (minVolume f) (minOpenInterest f) v (minTradability f)
           (minChurn f) (sortBy f) (sortDir f)
  | InMinTradability =>
      Form (minVolume f) (minOpenInterest f) (minSpread f) v
           (minChurn f) (sortBy f) (sortDir f)
  | InMinChurn =>
      Form (minVolume f) (minOpenInterest f) (minSpread f)
           (minTradability f) v (sortBy f) (sortDir f)
  | InSortBy =>
      Form (minVolume f) (minOpenInterest f) (minSpread f)
           (minTradability f) (minChurn f) v (sortDir f)
  | InSortDir =>
      Form (minVolume f) (minOpenInterest f) (minSpread f)
           (minTradability f) (minChurn f) (sortBy f) v
  end.

(** The row test of [applyFilters]. *)
Definition passes (f : form) (r : row) : bool :=
  passMin (get r "volume") (VStr (minVolume f)) &&
  passMin (get r "open_interest") (VStr (minOpenInterest f)) &&
  passMin (get r "spread_ticks") (VStr (minSpread f)) &&
  passMin (get r "tradability_score") (VStr (minTradability f)) &&
  passMin (get r "churn_rate") (VStr (minChurn f)).

(** The five threshold filters: the row field each one reads and the
    form field that holds its threshold. *)
Definition thresholds (f : form) : list (string * string) :=
  [("volume", minVolume f); ("open_interest", minOpenInterest f);
   ("spread_ticks", minSpread f); ("tradability_score", minTradability f);
   ("churn_rate", minChurn f)]%string.

(** A threshold that [passMin] takes as not given. *)
Definition unset (m : value) : Prop :=
  m = VStr "" \/ m = VNull \/ m = VUndefined.

(** A threshold of the form that is given and is a number. *)
Definition configured (m : string) : Prop :=
  m <> ""%string /\ isNaN (StringToNumber m) = false.

(** [Array.prototype.sort] with a comparator [cmp]: [b] goes before [a]
    when [cmp a b > 0], and a [NaN] result counts as [0].  The sort is
    stable; it is computed here by insertion, which gives the one stable
    sorted order whenever the comparator is consistent. *)
Fixpoint insert (cmp : row -> row -> num) (a : row) (l : list row)
  : list row :=
  match l with
  | [] => [a]
  | y :: l' =>
      if ltb (ofZ 0) (cmp a y) then y :: insert cmp a l' else a :: l
  end.

Definition sort (cmp : row -> row -> num) (l : list row) : list row :=
  fold_right (insert cmp) [] l.

(** [Number.isFinite(n) ? n : -Infinity] *)
Definition safe (n : num) : num := if isFinite n then n else NInf.






Section Collation.

(** [a.localeCompare(b)]: the host's collation, negative, zero or
    positive. *)
Variable localeCompare : string -> string -> Z.

Definition comparator (f : form) (a b : row) : num :=
  let aVal := get a (sortBy f) in
  let bVal := get b (sortBy f) in
  match aVal, bVal with
  | VStr sa, VStr sb =>
      if String.eqb (sortDir f) "asc"
      then ofZ (localeCompare sa sb)
      else ofZ (localeCompare sb sa)
  | _, _ =>
      let aNum := ToNumber aVal in
      let bNum := ToNumber bVal in
      let safeA := safe aNum in
      let safeB := safe bNum in
      if String.eqb (sortDir f) "asc"
      then sub safeA safeB
      else sub safeB safeA
  end.

Definition sortRows (f : form) (rows : list row) : list row :=
  sort (comparator f) rows.

Definition applyFilters (s : state) : state :=
  let filtered := filter (passes (theForm s)) (allRows s) in
  let sorted := sortRows (theForm s) filtered in
  {| theForm := theForm s; refreshNonce := refreshNonce s;
     allRows := allRows s; filteredRows := sorted;
     page := ofZ 1; pageSize := pageSize s; screener := screener s |}.

End Collation.

Definition resetFilters (s : state) : state :=
  {| theForm := defaultForm; refreshNonce := refreshNonce s;
     allRows := allRows s; filteredRows := allRows s;
     page := ofZ 1; pageSize := pageSize s; screener := screener s |}.

(** [setRefreshNonce((n) => n + 1)] *)
Definition refreshOnly (s : state) : state :=
  {| theForm := theForm s; refreshNonce := add (refreshNonce s) (ofZ 1);
     allRows := allRows s; filteredRows := filteredRows s;
     page := page s; pageSize := pageSize s; screener := screener s |}.

Definition setPage (p : num) (s : state) : state :=
  {| theForm := theForm s; refreshNonce := refreshNonce s;
     allRows := allRows s; filteredRows := filteredRows s;
     page := p; pageSize := pageSize s; screener := screener s |}.

Definition setPageSize (n : num) (s : state) : state :=
  {| theForm := theForm s; refreshNonce := refreshNonce s;
     allRows := allRows s; filteredRows := filteredRows s;
     page := page s; pageSize := n; screener := screener s |}.

Definition setForm (f : form) (s : state) : state :=
  {| theForm := f; refreshNonce := refreshNonce s;
     allRows := allRows s; filteredRows := filteredRows s;
     page := page s; pageSize := pageSize s; screener := screener s |}.

Definition setScreener (h : sys payload) (s : state) : state :=
  {| theForm := theForm s; refreshNonce := refreshNonce s;
     allRows := allRows s; filteredRows := filteredRows s;
     page := page s; pageSize := pageSize s; screener := h |}.

(** [Math.max(1, Math.ceil((filteredRows?.length ?? 0) / pageSize) || 1)] *)
Definition pagesOf (count : nat) (size : num) : num :=
  Math_max [ofZ 1; num_or (Math_ceil (div (ofNat count) size)) (ofZ 1)].

Definition totalPages (s : state) : num :=
  pagesOf (List.length (filteredRows s)) (pageSize s).

(** [setPage((prev) => Math.min(prev, totalPages))] *)
Definition clampPage (s : state) : state :=
  setPage (Math_min [page s; totalPages s]) s.

(** The effect on [[screener.data]], for the body that [setData] has just
    stored. *)
Definition onData (d : payload) (s : state) : state :=
  match d with
  | Rows rs =>
      {| theForm := theForm s; refreshNonce := refreshNonce s;
         allRows := rs; filteredRows := rs;
         page := ofZ 1; pageSize := pageSize s; screener := screener s |}
  | NotArray _ => s
  end.

(** [pageStart] and [pageRows] *)
Definition pageStart (s : state) : num :=
  mul (sub (page s) (ofZ 1)) (pageSize s).

(** The choices of the page-size [<select>] and the strings they carry. *)
Inductive size_option : Type := Size10 | Size25 | Size50 | Size100.

Definition option_value (o : size_option) : string :=
  match o with
  | Size10 => "10"
  | Size25 => "25"
  | Size50 => "50"
  | Size100 => "100"
  end.

Inductive event : Type :=
| Change (i : input) (v : string)
| ApplyFilters
| ResetFilters
| RefreshOnly
| PageSize (o : size_option)
| First
| Prev
| Next
| Last
| Settled (k : nat) (net : settled (response payload)).

(** The body that a settling request hands to [setData], if it does. *)
Definition delivered (s : sys payload) (k : nat)
  (net : settled (response payload)) : option payload :=
  match in_flight k s with
  | None => None
  | Some r =>
      match and_then (outcome r net) (@check_ok payload) with
      | Fulfilled j => Some j
      | Rejected _ => None
      end
  end.

Section Page.

Variable localeCompare : string -> string -> Z.

(** What the event itself does to the state: a handler of the page, or
    the hook's state update when a request settles. *)
Definition handle (s : state) (e : event) : state :=
  match e with
  | Change i v => setForm (handleChange i v (theForm s)) s
  | ApplyFilters => applyFilters localeCompare s
  | ResetFilters => resetFilters s
  | RefreshOnly => refreshOnly s
  | PageSize o =>
      setPage (ofZ 1) (setPageSize (ToNumber (VStr (option_value o))) s)
  | First => setPage (ofZ 1) s
  | Prev => setPage (Math_max [ofZ 1; sub (page s) (ofZ 1)]) s
  | Next => setPage (Math_min [totalPages s; add (page s) (ofZ 1)]) s
  | Last => setPage (totalPages s) s
  | Settled k net => setScreener (settle k net (screener s)) s
  end.

(** The effects that follow the render, in the order of their
    dependencies: the hook's effect when the request identity changed and
    the effect on [[screener.data]] when a body was stored, then the
    effect on [[totalPages]] when the number of pages changed. *)
Definition data_effects (before : state) (e : event) (s : state) : state :=
  let s1 :=
    if num_eqb (refreshNonce before) (refreshNonce s) then s
    else setScreener (run_effect (screener s)) s in
  match e with
  | Settled k net =>
      match delivered (screener before) k net with
      | Some d => onData d s1
      | None => s1
      end
  | _ => s1
  end.

Definition page_effect (before : state) (s : state) : state :=
  if num_eqb (totalPages before) (totalPages s) then s else clampPage s.

Definition effects (before : state) (e : event) (s : state) : state :=
  page_effect before (data_effects before e s).

Definition step (s : state) (e : event) : state :=
  effects s e (handle s e).

Definition run (s : state) (es : list event) : state := fold_left step es s.

End Page.

(** What holds of the page in every state it reaches: the page number,
    the page size and the nonce are integers, the page size is one of the
    four choices, the page number is between [1] and the number of pages,
    and the hook is in a state of the shape it reaches. *)
Definition invariant (s : state) : Prop :=
  exists k p m tp,
    page s = ofZ k /\ pageSize s = ofZ p /\ In p [10; 25; 50; 100]%Z /\
    refreshNonce s = ofZ m /\ (0 <= m)%Z /\
    totalPages s = ofZ tp /\ (1 <= k <= tp)%Z /\
    well_formed (screener s).

(** A collation to run the examples with: the order of the character
    codes. *)
Definition lex (a b : string) : Z :=
  match String.compare a b with
  | Lt => (-1)%Z
  | Eq => 0%Z
  | Gt => 1%Z
  end.

(** The page once mounted: the initial values of its state cells, the
    hook's first request under way. *)
Definition init : state :=
  {| theForm := defaultForm; refreshNonce := ofZ 0;
     allRows := []; filteredRows := [];
     page := ofZ 1; pageSize := ofZ 25; screener := mount payload |}.

End Screener.

(** ** Arrays: [Array.prototype.slice] *)

Module JSArray.

Local Open Scope Z_scope.

(** [ToIntegerOrInfinity]: [NaN] is [0], a finite number is truncated
    towards zero. *)
Inductive intinf : Type :=
| IFin (z : Z)
| IPInf
| INInf.

Definition Qtrunc (q : Q) : Z :=
  if Qle_bool 0 q then Qfloor q else Qceiling q.

Definition ToIntegerOrInfinity (x : num) : intinf :=
  match x with
  | NaN => IFin 0
  | Fin q => IFin (Qtrunc q)
  | PInf => IPInf
  | NInf => INInf
  end.

(** An index argument of [slice], made relative to the length. *)
Definition relative (len : Z) (i : intinf) : Z :=
  match i with
  | INInf => 0
  | IPInf => len
  | IFin z => if z <? 0 then Z.max (len + z) 0 else Z.min z len
  end.

(** [l.slice(start, end)] *)
Definition slice {A : Type} (l : list A) (start stop : num) : list A :=
  let len := Z.of_nat (List.length l) in
  let k := relative len (ToIntegerOrInfinity start) in
  let final := relative len (ToIntegerOrInfinity stop) in
  let count := Z.max (final - k) 0 in
  firstn (Z.to_nat count) (skipn (Z.to_nat k) l).

End JSArray.

(** ** [ScreenerPage]: the rows of the current page *)

Module ScreenerView.

Import Screener JSArray.

(** [filteredRows.slice(pageStart, pageStart + pageSize)] *)
Definition pageRows (s : state) : list row :=
  slice (filteredRows s) (pageStart s) (add (pageStart s) (pageSize s)).

(** The two numbers of "Showing a-b of n", shown when there are rows:
    [pageStart + 1] and [Math.min(pageStart + pageSize, n)]. *)
Definition showingFrom (s : state) : num :=
  if Nat.eqb (List.length (filteredRows s)) 0 then ofZ 0
  else add (pageStart s) (ofZ 1).

Definition showingTo (s : state) : num :=
  Math_min [add (pageStart s) (pageSize s);
            ofNat (List.length (filteredRows s))].

(** The rows shown are among the rows fetched. *)
Definition rows_kept (s : state) : Prop :=
  incl (filteredRows s) (allRows s) /\
  (List.length (filteredRows s) <= List.length (allRows s))%nat.

(** [form[name]] *)
Definition field (i : input) (f : form) : string :=
  match i with
  | InMinVolume => minVolume f
  | InMinOpenInterest => minOpenInterest f
  | InMinSpread => minSpread f
  | InMinTradability => minTradability f
  | InMinChurn => minChurn f
  | InSortBy => sortBy f
  | InSortDir => sortDir f
  end.

(** The inputs that hold a threshold. *)
Definition is_threshold (i : input) : bool :=
  match i with
  | InSortBy | InSortDir => false
  | _ => true
  end.

(** The pages [1 .. n], one after the other. *)
Definition page_numbers (n : nat) : list Z :=
  map (fun i => Z.of_nat (S i)) (seq 0 n).

End ScreenerView.

(** ** [useApi]: what its reachable states look like *)

Module UseApiShape.

Import UseApi.

Section Hook.

Variable json : Type.

(** The requests in flight have distinct numbers, below the number of
    runs of the effect; the one of the latest run is the only one that
    is not aborted; and while it is in flight [error] is [null]. *)
Definition orderly (s : sys json) : Prop :=
  NoDup (map rid (pending s)) /\
  (forall r, In r (pending s) ->
             (rid r < issued s)%nat /\
             (aborted r = false <-> S (rid r) = issued s)) /\
  ((exists r, In r (pending s) /\ S (rid r) = issued s) ->
   error (hk s) = None).

(** The requests in flight whose signal is not aborted. *)
Definition live (s : sys json) : list request :=
  filter (fun r => negb (aborted r)) (pending s).

End Hook.

End UseApiShape.

(** ** [DualLineChart] and [VolIndexPage] *)

Module VolIndexPage.

Import Chart Dashboard.

(** [a ?? b] *)
Definition nullish (a b : value) : value :=
  match a with
  | VUndefined | VNull => b
  | _ => a
  end.

(** What [DualLineChart] renders: a loading notice, an error message,
    "No chart data yet", or one polyline per series, [None] where the
    series gives no points. *)
Inductive chart (E : Type) : Type :=
| ChartLoading
| ChartError (e : E)
| ChartEmpty
| ChartLines (lines : list (option string)).

Arguments ChartLoading {E}.
Arguments ChartError {E} e.
Arguments ChartEmpty {E}.
Arguments ChartLines {E} lines.

Section Printing.

Variable NumberToString : num -> string.

(** [!s.values || s.values.length < 2] *)
Definition too_short (values : option (list value)) : bool :=
  match values with
  | None => true
  | Some vs => Nat.ltb (List.length vs) 2
  end.

(** [pts ? <polyline points={pts} /> : null] *)
Definition polyline (values : option (list value)) : option string :=
  let pts := buildNormPoints NumberToString values in
  if negb (String.eqb pts "") then Some pts else None.

(** [series] is [None] when it is [null]; each series is given by its
    [values], [None] when they are missing. *)
Definition DualLineChart {E : Type}
  (series : option (list (option (list value))))
  (loading : bool) (error : option E) : chart E :=
  if loading then ChartLoading
  else
    match error with
    | Some e => ChartError e
    | None =>
        match series with
        | None => ChartEmpty
        | Some ss =>
            if forallb too_short ss then ChartEmpty
            else ChartLines (map polyline ss)
        end
    end.

(** The composite index of the Kalshi panel: [values], and the points
    drawn from them. *)
Definition kalshiValues (data : list row) : list num :=
  match rev data with
  | [] => []
  | (r0 :: _) as rows =>
      let baseVol := or_else (get r0 "d_volume_6h") (VNum (ofZ 1)) in
      let baseOi := or_else (get r0 "d_oi_6h") (VNum (ofZ 1)) in
      let baseWide := or_else (get r0 "d_wide_6h") (VNum (ofZ 1)) in
      map (fun r =>
             let relVol :=
               div (ToNumber (get r "d_volume_6h")) (ToNumber baseVol) in
             let relOi :=
               div (ToNumber (get r "d_oi_6h")) (ToNumber baseOi) in
             let relWide :=
               div (ToNumber (get r "d_wide_6h")) (ToNumber baseWide) in
             div (mul (ofZ 100) (add (add relVol relOi) relWide)) (ofZ 3))
          rows
  end.

Definition kalshiIndexPoints (data : list row) : string :=
  match data with
  | [] => ""
  | _ => buildNormPoints NumberToString (Some (map VNum (kalshiValues data)))
  end.

(** [kalshiChartSeries]: the two series of the delta chart, or [null]
    when there are fewer than two rows. *)
Definition kalshiChartSeries (data : list row)
  : option (list (option (list value))) :=
  if Nat.ltb 1 (List.length data) then
    let rows := rev data in
    Some [Some (map (fun r => nullish (get r "d_volume_6h") (VNum (ofZ 0)))
                    rows);
          Some (map (fun r => nullish (get r "d_oi_6h") (VNum (ofZ 0)))
                    rows)]
  else None.

End Printing.

End VolIndexPage.

(** ** [Dashboard]: the index of the earliest sample *)

Module DashboardBaseline.

(** [1] for a baseline field that is not zero, [0] for one that is: what
    the field contributes to the sum of the earliest sample's ratios. *)
Definition unit_of (x : Qc) : Qc :=
  if Qc_eq_dec x (zq 0) then zq 0 else zq 1.

End DashboardBaseline.

(** ** [PolyScreenerPage] *)

Module PolyScreener.

Local Open Scope string_scope.
Local Open Scope list_scope.

Record form : Type := Form {
  minVolume : string;
  minLiquidity : string;
  category : string;
  sortBy : string;
  sortDir : string
}.

Definition defaultForm : form :=
  {| minVolume := ""; minLiquidity := ""; category := "";
     sortBy := "tradability_score"; sortDir := "desc" |}.

Record state : Type := State {
  theForm : form;
  refreshNonce : num;
  allRows : list row;
  filteredRows : list row;
  page : num;
  pageSize : num
}.

Definition passMin (v minValue : value) : bool :=
  match minValue with
  | VStr EmptyString | VNull | VUndefined => true
  | _ =>
      let min := ToNumber minValue in
      if isNaN min then true
      else
        let num := ToNumber v in
        if isNaN num then false else geb num min
  end.

(** [s.includes(sub)] *)
Fixpoint includes (s sub : string) : bool :=
  String.prefix sub s ||
  match s with
  | EmptyString => false
  | String _ s' => includes s' sub
  end.

Section Host.

(** [s.toLowerCase()] and [a.localeCompare(b)], as the host has them. *)
Variable toLowerCase : string -> string.
Variable localeCompare : string -> string -> Z.

(** [passCategory]: [None] is the [TypeError] raised when the value is
    neither missing nor a string, and so has no [toLowerCase]. *)
Definition passCategory (v : value) (catFilter : string) : option bool :=
  if String.eqb catFilter "" then Some true
  else
    match v with
    | VUndefined | VNull =>
        Some (includes (toLowerCase "") (toLowerCase catFilter))
    | VStr s => Some (includes (toLowerCase s) (toLowerCase catFilter))
    | _ => None
    end.

Definition comparator (f : form) (a b : row) : num :=
  let aVal := get a (sortBy f) in
  let bVal := get b (sortBy f) in
  match aVal, bVal with
  | VStr sa, VStr sb =>
      if String.eqb (sortDir f) "asc"
      then ofZ (localeCompare sa sb)
      else ofZ (localeCompare sb sa)
  | _, _ =>
      let aNum := ToNumber aVal in
      let bNum := ToNumber bVal in
      let safeA := if isFinite aNum then aNum else NInf in
      let safeB := if isFinite bNum then bNum else NInf in
      if String.eqb (sortDir f) "asc"
      then sub safeA safeB
      else sub safeB safeA
  end.

Definition sortRows (f : form) (rows : list row) : list row :=
  Screener.sort (comparator f) rows.

(** The callback of [allRows.filter]: the category is looked at only
    when both thresholds are passed. *)
Definition keep (f : form) (r : row) : option bool :=
  if passMin (get r "volume") (VStr (minVolume f)) &&
     passMin (get r "liquidity") (VStr (minLiquidity f))
  then passCategory (get r "category") (category f)
  else Some false.

(** [rows.filter(callback)] for a callback that may throw. *)
Fixpoint filter_throwing (p : row -> option bool) (rows : list row)
  : option (list row) :=
  match rows with
  | [] => Some []
  | r :: rows' =>
      match p r with
      | None => None
      | Some b =>
          match filter_throwing p rows' with
          | None => None
          | Some kept => Some (if b then r :: kept else kept)
          end
      end
  end.

(** [applyFilters]; [None] when the filter throws, which leaves the state
    as it is. *)
Definition applyFilters (s : state) : option state :=
  match filter_throwing (keep (theForm s)) (allRows s) with
  | None => None
  | Some filtered =>
      Some {| theForm := theForm s; refreshNonce := refreshNonce s;
              allRows := allRows s;
              filteredRows := sortRows (theForm s) filtered;
              page := ofZ 1; pageSize := pageSize s |}
  end.

End Host.

(** A category that is there and is not a string. *)
Definition odd_category (r : row) : bool :=
  match get r "category" with
  | VUndefined | VNull | VStr _ => false
  | _ => true
  end.

(** The form of [ScreenerPage] with the same sort column and direction. *)
Definition as_screener_form (f : form) : Screener.form :=
  {| Screener.minVolume := minVolume f;
     Screener.minOpenInterest := "";
     Screener.minSpread := "";
     Screener.minTradability := "";
     Screener.minChurn := "";
     Screener.sortBy := sortBy f;
     Screener.sortDir := sortDir f |}.

End PolyScreener.

(** ** [Last24hChangesPanel] *)

Module Last24hChanges.

Local Open Scope string_scope.
Local Open Scope list_scope.

Record sorting : Type := Sorting {
  sortBy : string;
  sortDir : string
}.

(** [useState('delta_value')], [useState('desc')] *)
Definition initialSorting : sorting :=
  {| sortBy := "delta_value"; sortDir := "desc" |}.

Definition handleSort (s : sorting) (column : string) : sorting :=
  if String.eqb (sortBy s) column
  then {| sortBy := sortBy s;
          sortDir := if String.eqb (sortDir s) "asc" then "desc" else "asc" |}
  else {| sortBy := column;
          sortDir := if String.eqb column "identifier" ||
                        String.eqb column "title"
                     then "asc" else "desc" |}.

(** The three arrows of [renderSortArrow]. *)
Inductive arrow : Type := UpDown | Up | Down.

Definition renderSortArrow (s : sorting) (column : string) : arrow :=
  if negb (String.eqb (sortBy s) column) then UpDown
  else if String.eqb (sortDir s) "asc" then Up else Down.

(** The [onChange] of the two number inputs: what [setLimit] and
    [setMinPrevValue] receive for the text of the input. *)
Definition limitFor (text : string) : num :=
  let val := ToNumber (VStr text) in
  if isFinite val && ltb (ofZ 0) val then val else ofZ 50.

Definition minPrevValueFor (text : string) : num :=
  let val := ToNumber (VStr text) in
  if isFinite val then val else ofZ 0.

(** [TOP_CHANGES_METRICS[provider] ?? []], by the [value] of each
    option. *)
Definition metricOptions (provider : string) : list string :=
  if String.eqb provider "kalshi"
  then ["volume"; "open_interest"; "mid"; "spread_ticks"]
  else if String.eqb provider "poly"
  then ["volume"; "volume_24hr"; "liquidity"; "outcome_yes_price"]
  else [].

Record selection : Type := Selection {
  provider : string;
  metric : string
}.

(** The effect on [[provider]]. *)
Definition metricEffect (s : selection) : selection :=
  if negb (existsb (String.eqb (metric s)) (metricOptions (provider s)))
  then {| provider := provider s;
          metric := match metricOptions (provider s) with
                    | m :: _ => m
                    | [] => "volume"
                    end |}
  else s.

(** The two selects: a provider among the two offered, and a metric
    among the options shown, by its position. *)
Inductive choice : Type :=
| ChooseKalshi
| ChoosePoly
| ChooseMetric (position : nat).

Definition choose (s : selection) (c : choice) : selection :=
  match c with
  | ChooseMetric i =>
      match nth_error (metricOptions (provider s)) i with
      | Some m => {| provider := provider s; metric := m |}
      | None => s
      end
  | ChooseKalshi | ChoosePoly =>
      let p := match c with ChooseKalshi => "kalshi" | _ => "poly" end in
      let s' := {| provider := p; metric := metric s |} in
      if String.eqb (provider s) p then s' else metricEffect s'
  end.

(** The panel once mounted with [defaultProvider]: the metric is
    ['volume'] and the effect has run. *)
Definition mounted (defaultProvider : string) : selection :=
  metricEffect {| provider := defaultProvider; metric := "volume" |}.

(** The provider is one of the two offered and the metric is one of its
    options. *)
Definition settled_selection (s : selection) : Prop :=
  (provider s = "kalshi" \/ provider s = "poly") /\
  In (metric s) (metricOptions (provider s)).

End Last24hChanges.

(** ** The chart formula on its two canvases *)

Module Canvas.

Import Chart Dashboard.

Local Open Scope Z_scope.

(** [series.map((s) => s.index)]: the values that [Dashboard] draws. *)
Definition values (data : list row) : list value :=
  map (fun s => VNum (index s)) (series data).

(** [Dashboard] writes [y = 35 - norm * 25]: this is
    [height - pad - norm * (height - 2 * pad)] for the height and the
    padding below, and for no others. *)
Definition dashboard_height : num := ofZ 45.
Definition dashboard_pad : num := ofZ 10.

(** Values far enough from the largest double for [max - min] and
    [v - min] not to overflow in the arithmetic of the source. *)
Definition no_overflow (a : Qc) : Prop :=
  (zq (- 2 ^ 1022) <= a)%Qc /\ (a <= zq (2 ^ 1022))%Qc.

End Canvas.

(** ** The order of the sorted rows, by kind of column *)

Module ScreenerOrder.

Import Screener.

Local Open Scope Z_scope.



(** The string a row holds in the sort column. *)
Definition text (f : form) (r : row) : string :=
  match get r (sortBy f) with
  | VStr s => s
  | _ => ""%string
  end.




End ScreenerOrder.

(** ** The page number when the number of pages changes *)

Module ScreenerPaging.

Import UseApi Screener.

Local Open Scope Z_scope.

(** The first request settles with a body of [n] rows. *)
Definition arrival (n : nat) : event :=
  Settled 0 (Fulfilled {| ok := true; status := 200;
                          json_body := Fulfilled (Rows (repeat [] n)) |}).

End ScreenerPaging.

(** * Properties *)

(** ** The hook *)

Module UseApiFacts.

Import UseApi.

Section Hook.

Variable json : Type.

Local Open Scope nat_scope.

(** An aborted request settles with [AbortError] whatever the network
    did, and the handlers then only clear [loading]. *)
Lemma on_settle_aborted (r : request) (net : settled (response json))
  (h : hook json) :
  aborted r = true ->
  on_settle (outcome r net) h = setLoading false h.
Proof.
  intro Ha. unfold outcome. rewrite Ha. reflexivity.
Qed.

Lemma settle_in_flight (k : nat) (net : settled (response json)) (s : sys json)
  (r : request) :
  in_flight k s = Some r ->
  hk (settle k net s) = on_settle (outcome r net) (hk s).
Proof.
  intro Hr. unfold settle. rewrite Hr. reflexivity.
Qed.

(** The settling of an aborted request never touches [data] or [error]. *)
Lemma settle_aborted_data_error (k : nat) (net : settled (response json))
  (s : sys json) (r : request) :
  in_flight k s = Some r -> aborted r = true ->
  data (hk (settle k net s)) = data (hk s) /\
  error (hk (settle k net s)) = error (hk s) /\
  loading (hk (settle k net s)) = false.
Proof.
  intros Hr Ha. rewrite (settle_in_flight _ _ _ Hr).
  rewrite (on_settle_aborted _ _ _ Ha). repeat split.
Qed.

Lemma abort_In (k : nat) (rs : list request) (r : request) :
  In r (abort k rs) ->
  exists r0, In r0 rs /\ rid r = rid r0 /\
             (aborted r = false -> rid r0 <> k /\ aborted r0 = false).
Proof.
  unfold abort. rewrite in_map_iff. intros [r0 [Hr Hin]].
  exists r0. split; [exact Hin|].
  destruct (Nat.eqb_spec (rid r0) k) as [E|E]; subst r; simpl.
  - split; [reflexivity | discriminate].
  - split; [reflexivity | intros H; split; assumption].
Qed.

Lemma well_formed_run_effect (s : sys json) :
  well_formed s -> well_formed (run_effect s).
Proof.
  intros W r. unfold run_effect; simpl. rewrite in_app_iff.
  intros [Hin | [Hr | []]].
  - unfold cleanup in Hin. destruct (issued s) as [|k] eqn:Ek.
    + destruct (W r Hin) as [Hlt _]. rewrite Ek in Hlt. lia.
    + destruct (abort_In _ _ _ Hin) as [r0 [Hin0 [Hid Hab]]].
      destruct (W r0 Hin0) as [Hlt Hcur]. rewrite Ek in Hlt, Hcur.
      split; [lia|]. intro Hf. destruct (Hab Hf) as [Hne Hf0].
      specialize (Hcur Hf0). lia.
  - subst r; simpl. split; [lia | reflexivity].
Qed.

Lemma well_formed_settle (k : nat) (net : settled (response json))
  (s : sys json) :
  well_formed s -> well_formed (settle k net s).
Proof.
  intros W r. unfold settle. destruct (in_flight k s); [|apply W].
  simpl. rewrite filter_In. intros [Hin _]. apply W, Hin.
Qed.

Lemma well_formed_run (es : list (event json)) (s : sys json) :
  well_formed s -> well_formed (run s es).
Proof.
  revert s. induction es as [|e es IH]; intros s W; [exact W|].
  simpl. apply IH. destruct e; simpl.
  - now apply well_formed_run_effect.
  - now apply well_formed_settle.
Qed.

Lemma well_formed_mount : well_formed (mount json).
Proof.
  apply well_formed_run_effect. intros r [].
Qed.

Lemma in_flight_In (k : nat) (s : sys json) (r : request) :
  in_flight k s = Some r -> In r (pending s) /\ rid r = k.
Proof.
  unfold in_flight. intro H. apply find_some in H. destruct H as [Hin Hk].
  split; [exact Hin | now apply Nat.eqb_eq].
Qed.

(** Hence a request that has been superseded changes neither [data] nor
    [error] when it settles, in any reachable state: what it does is
    clear [loading]. *)
Lemma superseded_settle_data_error (es : list (event json)) (k : nat)
  (net : settled (response json)) (r : request) :
  let s := run (mount json) es in
  in_flight k s = Some r -> current s <> Some k ->
  data (hk (settle k net s)) = data (hk s) /\
  error (hk (settle k net s)) = error (hk s) /\
  loading (hk (settle k net s)) = false.
Proof.
  intros s Hr Hc. apply settle_aborted_data_error with (r := r); [exact Hr|].
  destruct (in_flight_In _ _ Hr) as [Hin Hk].
  destruct (well_formed_run es well_formed_mount r Hin) as [_ Hcur].
  destruct (aborted r); [reflexivity|].
  exfalso. apply Hc. unfold current. fold s in Hcur.
  rewrite <- (Hcur eq_refl), Hk. reflexivity.
Qed.

(** The request of the latest run settles with what the network produced:
    its body becomes [data], or its failure becomes [error]. *)
Lemma current_settle_reflected (es : list (event json)) (k : nat)
  (net : settled (response json)) (r : request) :
  let s := run (mount json) es in
  in_flight k s = Some r -> aborted r = false ->
  hk (settle k net s) = on_settle net (hk s).
Proof.
  intros s Hr Ha. rewrite (settle_in_flight _ _ _ Hr).
  unfold outcome. rewrite Ha. reflexivity.
Qed.

(** C1: a second request is issued before the first settles, then the
    first one, aborted by the clean-up, settles.  The claim is that this
    late settling changes nothing in the hook's state, the loading flag
    included.  In the code the [.finally] handler runs for the aborted
    request too: [data] and [error] are indeed left alone, but [loading]
    goes from [true] to [false] while the second request is still in
    flight. *)
Theorem useApi_superseded_settle_clears_loading
  (net : settled (response json)) :
  let before := run (mount json) [IdentityChanged json] in
  let after := step before (Settled 0 net) in
  in_flight 0 before = Some {| rid := 0; aborted := true |} /\
  in_flight 1 before = Some {| rid := 1; aborted := false |} /\
  current before = Some 1 /\
  loading (hk before) = true /\
  in_flight 1 after = Some {| rid := 1; aborted := false |} /\
  loading (hk after) = false /\
  data (hk after) = data (hk before) /\
  error (hk after) = error (hk before) /\
  hk after <> hk before.
Proof.
  cbv zeta. repeat split; try reflexivity.
  simpl. discriminate.
Qed.

End Hook.

End UseApiFacts.

(** ** Numbers *)

Module NumFacts.

Lemma Qc_eqb_eq (a b : Qc) : Qc_eqb a b = true -> a = b.
Proof.
  unfold Qc_eqb; intro H. apply Qc_is_canon. now apply Qeq_bool_eq.
Qed.

Lemma Qc_eqb_refl (a : Qc) : Qc_eqb a a = true.
Proof. unfold Qc_eqb. apply Qeq_bool_iff. reflexivity. Qed.

Lemma Qc_eqb_neq (a b : Qc) : a <> b -> Qc_eqb a b = false.
Proof.
  intro H. destruct (Qc_eqb a b) eqn:E; [|reflexivity].
  exfalso. apply H. now apply Qc_eqb_eq.
Qed.

Lemma num_eqb_eq (x y : num) : num_eqb x y = true -> x = y.
Proof.
  destruct x, y; simpl; try discriminate; try reflexivity.
  intro H; f_equal; now apply Qc_eqb_eq.
Qed.

Lemma num_eqb_refl (x : num) : num_eqb x x = true.
Proof. destruct x; simpl; auto using Qc_eqb_refl. Qed.

Lemma num_eqb_neq (x y : num) : x <> y -> num_eqb x y = false.
Proof.
  intro H. destruct (num_eqb x y) eqn:E; [|reflexivity].
  exfalso. apply H. now apply num_eqb_eq.
Qed.

(** Equality of two lists of numbers, decided by computation. *)
Lemma nums_eqb_eq (xs ys : list num) :
  forallb (fun p => num_eqb (fst p) (snd p)) (combine xs ys) = true ->
  List.length xs = List.length ys -> xs = ys.
Proof.
  revert ys. induction xs as [|x xs IH]; destruct ys as [|y ys];
    simpl; try discriminate; auto.
  intros H L. apply andb_prop in H. destruct H as [H1 H2].
  f_equal; [now apply num_eqb_eq | apply IH; auto].
Qed.

Lemma option_num_eq (o1 o2 : option num) :
  match o1, o2 with
  | Some a, Some b => num_eqb a b
  | None, None => true
  | _, _ => false
  end = true -> o1 = o2.
Proof.
  destruct o1, o2; try discriminate; try reflexivity.
  intro H. f_equal. now apply num_eqb_eq.
Qed.

Lemma Qc_is0_true (a : Qc) : Qc_is0 a = true -> a = zq 0.
Proof. apply Qc_eqb_eq. Qed.

Lemma Qc_is0_false (a : Qc) : a <> zq 0 -> Qc_is0 a = false.
Proof. apply Qc_eqb_neq. Qed.

Lemma zq_this (z : Z) : (this (zq z) == inject_Z z)%Q.
Proof. unfold zq, Q2Qc. cbn [this]. apply Qred_correct. Qed.

Lemma zq_inj (a b : Z) : zq a = zq b -> a = b.
Proof.
  intro H. apply inject_Z_injective.
  rewrite <- (zq_this a), <- (zq_this b), H. reflexivity.
Qed.

Lemma zq_add (a b : Z) : (zq a + zq b)%Qc = zq (a + b).
Proof.
  apply Qc_is_canon. unfold Qcplus, zq, Q2Qc; cbn [this].
  rewrite !Qred_correct, inject_Z_plus. reflexivity.
Qed.

Lemma zq_opp (a : Z) : (- zq a)%Qc = zq (- a).
Proof.
  apply Qc_is_canon. unfold Qcopp, zq, Q2Qc; cbn [this].
  rewrite !Qred_correct, inject_Z_opp. reflexivity.
Qed.

Lemma zq_sub (a b : Z) : (zq a - zq b)%Qc = zq (a - b).
Proof. unfold Qcminus. rewrite zq_opp, zq_add. reflexivity. Qed.

Lemma zq_mul (a b : Z) : (zq a * zq b)%Qc = zq (a * b).
Proof.
  apply Qc_is_canon. unfold Qcmult, zq, Q2Qc; cbn [this].
  rewrite !Qred_correct, inject_Z_mult. reflexivity.
Qed.

Lemma Qc_ltb_zq (a b : Z) : Qc_ltb (zq a) (zq b) = (a <? b)%Z.
Proof.
  unfold Qc_ltb. destruct (Z.ltb_spec a b) as [H|H].
  - destruct (Qle_bool (zq b) (zq a)) eqn:E; [|reflexivity].
    apply Qle_bool_iff in E. rewrite !zq_this in E.
    rewrite <- Zle_Qle in E. lia.
  - assert (E : Qle_bool (zq b) (zq a) = true).
    { apply Qle_bool_iff. rewrite !zq_this. rewrite <- Zle_Qle. exact H. }
    rewrite E. reflexivity.
Qed.

Lemma add_ofZ (a b : Z) : add (ofZ a) (ofZ b) = ofZ (a + b).
Proof. unfold ofZ; simpl. now rewrite zq_add. Qed.

Lemma sub_ofZ (a b : Z) : sub (ofZ a) (ofZ b) = ofZ (a - b).
Proof. unfold sub, ofZ; simpl. now rewrite zq_opp, zq_add. Qed.


Lemma ofZ_inj (a b : Z) : ofZ a = ofZ b -> a = b.
Proof. unfold ofZ. intro H. apply zq_inj. congruence. Qed.

Lemma min2_ofZ (a b : Z) : min2 (ofZ a) (ofZ b) = ofZ (Z.min a b).
Proof.
  unfold min2, ofZ. cbv iota beta. cbn [ltb]. rewrite Qc_ltb_zq.
  destruct (Z.ltb_spec b a);
    [replace (Z.min a b) with b by lia | replace (Z.min a b) with a by lia];
    reflexivity.
Qed.

Lemma max2_ofZ (a b : Z) : max2 (ofZ a) (ofZ b) = ofZ (Z.max a b).
Proof.
  unfold max2, ofZ. cbv iota beta. cbn [ltb]. rewrite Qc_ltb_zq.
  destruct (Z.ltb_spec a b);
    [replace (Z.max a b) with b by lia | replace (Z.max a b) with a by lia];
    reflexivity.
Qed.

Lemma Math_min_pair (a b : Z) : Math_min [ofZ a; ofZ b] = ofZ (Z.min a b).
Proof. unfold Math_min; simpl. apply min2_ofZ. Qed.

Lemma Math_max_pair (a b : Z) : Math_max [ofZ a; ofZ b] = ofZ (Z.max a b).
Proof. unfold Math_max; simpl. apply max2_ofZ. Qed.

End NumFacts.

(** ** The sparkline normaliser *)

Module ChartFacts.

Import Chart NumFacts.

Local Open Scope nat_scope.

Lemma mapi_from_nth_error {A B : Type} (f : A -> nat -> B) (l : list A)
  (k i : nat) :
  nth_error (mapi_from f k l) i
  = option_map (fun a => f a (k + i)) (nth_error l i).
Proof.
  revert k i. induction l as [|a l IH]; intros k [|i]; simpl; auto.
  - now rewrite Nat.add_0_r.
  - rewrite IH. now rewrite Nat.add_succ_r.
Qed.

Lemma mapi_nth_error {A B : Type} (f : A -> nat -> B) (l : list A) (i : nat) :
  nth_error (mapi f l) i = option_map (fun a => f a i) (nth_error l i).
Proof. unfold mapi. now rewrite mapi_from_nth_error. Qed.

Lemma mapi_from_length {A B : Type} (f : A -> nat -> B) (l : list A)
  (k : nat) : List.length (mapi_from f k l) = List.length l.
Proof. revert k. induction l; intro k; simpl; auto. Qed.

Lemma normPoints_length (vs : list value) (w h pad : num) :
  List.length (normPoints vs w h pad) = List.length vs.
Proof. unfold normPoints, mapi. apply mapi_from_length. Qed.

Lemma ToNumber_finite_series (qs : list Qc) :
  map ToNumber (finite_series qs) = map Fin qs.
Proof.
  unfold finite_series. rewrite map_map. apply map_ext. reflexivity.
Qed.

(** [Math.min] and [Math.max] of finite numbers are the least and the
    greatest of them. *)
Lemma fold_min2_Fin (qs : list Qc) (a : Qc) :
  exists m, fold_left min2 (map Fin qs) (Fin a) = Fin m /\
            (m = a \/ In m qs) /\ (m <= a)%Qc /\
            forall q, In q qs -> (m <= q)%Qc.
Proof.
  revert a. induction qs as [|q qs IH]; intro a; simpl.
  - exists a. repeat split; auto using Qcle_refl. intros ? [].
  - unfold Qc_ltb. destruct (Qle_bool a q) eqn:E.
    + apply Qle_bool_iff in E. simpl.
      destruct (IH a) as [m [Hm [Hin [Hle Hall]]]].
      exists m. repeat split; auto.
      * destruct Hin; auto.
      * intros q' [->|Hq']; auto. eapply Qcle_trans; [exact Hle | exact E].
    + simpl.
      assert (Hqa : (q <= a)%Qc).
      { apply Qcnot_lt_le. intro Hlt. apply Qclt_le_weak in Hlt.
        apply Qle_bool_iff in Hlt. unfold Qcle in *. congruence. }
      destruct (IH q) as [m [Hm [Hin [Hle Hall]]]].
      exists m. repeat split; auto.
      * destruct Hin; auto.
      * eapply Qcle_trans; eauto.
      * intros q' [->|Hq']; auto.
Qed.

Lemma fold_max2_Fin (qs : list Qc) (a : Qc) :
  exists m, fold_left max2 (map Fin qs) (Fin a) = Fin m /\
            (m = a \/ In m qs) /\ (a <= m)%Qc /\
            forall q, In q qs -> (q <= m)%Qc.
Proof.
  revert a. induction qs as [|q qs IH]; intro a; simpl.
  - exists a. repeat split; auto using Qcle_refl. intros ? [].
  - unfold Qc_ltb. destruct (Qle_bool q a) eqn:E.
    + apply Qle_bool_iff in E. simpl.
      destruct (IH a) as [m [Hm [Hin [Hle Hall]]]].
      exists m. repeat split; auto.
      * destruct Hin; auto.
      * intros q' [->|Hq']; auto. eapply Qcle_trans; [exact E | exact Hle].
    + simpl.
      assert (Hqa : (a <= q)%Qc).
      { apply Qcnot_lt_le. intro Hlt. apply Qclt_le_weak in Hlt.
        apply Qle_bool_iff in Hlt. unfold Qcle in *. congruence. }
      destruct (IH q) as [m [Hm [Hin [Hle Hall]]]].
      exists m. repeat split; auto.
      * destruct Hin; auto.
      * eapply Qcle_trans; eauto.
      * intros q' [->|Hq']; auto.
Qed.

Lemma Math_min_Fin (qs : list Qc) :
  qs <> [] ->
  exists m, Math_min (map Fin qs) = Fin m /\ In m qs /\
            forall q, In q qs -> (m <= q)%Qc.
Proof.
  destruct qs as [|q qs]; [congruence|]. intros _.
  unfold Math_min. simpl.
  destruct (fold_min2_Fin qs q) as [m [Hm [Hin [Hle Hall]]]].
  exists m. split; [exact Hm|]. split.
  - destruct Hin; [left; congruence | right; assumption].
  - intros q' [<-|Hq']; auto.
Qed.

Lemma Math_max_Fin (qs : list Qc) :
  qs <> [] ->
  exists m, Math_max (map Fin qs) = Fin m /\ In m qs /\
            forall q, In q qs -> (q <= m)%Qc.
Proof.
  destruct qs as [|q qs]; [congruence|]. intros _.
  unfold Math_max. simpl.
  destruct (fold_max2_Fin qs q) as [m [Hm [Hin [Hle Hall]]]].
  exists m. split; [exact Hm|]. split.
  - destruct Hin; [left; congruence | right; assumption].
  - intros q' [<-|Hq']; auto.
Qed.

Lemma Qcminus_eq_0 (a b : Qc) : (a - b)%Qc = zq 0 -> a = b.
Proof.
  change (zq 0) with 0%Qc. intro H.
  replace a with ((a - b) + b)%Qc by ring. rewrite H. ring.
Qed.

Lemma span_Fin (mn mx : Qc) :
  num_or (sub (Fin mx) (Fin mn)) (ofZ 1) = Fin (span_of mn mx)
  /\ span_of mn mx <> zq 0.
Proof.
  unfold span_of, num_or, sub. cbn [neg add num_truthy].
  destruct (Qc_eq_dec mx mn) as [->|Hne].
  - rewrite Qcplus_opp_r. change 0%Qc with (zq 0).
    unfold Qc_is0. rewrite Qc_eqb_refl.
    split; [reflexivity|]. intro H. apply zq_inj in H. discriminate.
  - assert (Hnz : (mx + - mn)%Qc <> zq 0).
    { intro H. apply Hne. now apply Qcminus_eq_0. }
    unfold Qc_is0. rewrite (Qc_eqb_neq Hnz). split; [reflexivity|].
    exact Hnz.
Qed.

Lemma finite_series_nth (qs : list Qc) (i : nat) :
  nth_error (finite_series qs) i
  = option_map (fun a => VNum (Fin a)) (nth_error qs i).
Proof. unfold finite_series. apply nth_error_map. Qed.

(** The point at index [i] of a series of at least two finite values, on
    a canvas of finite dimensions, in exact arithmetic. *)
Lemma chartPoints_finite (qs : list Qc) (w h pad : Qc) :
  2 <= List.length qs ->
  exists mn mx,
    In mn qs /\ (forall a, In a qs -> (mn <= a)%Qc) /\
    In mx qs /\ (forall a, In a qs -> (a <= mx)%Qc) /\
    forall i q, nth_error qs i = Some q ->
      nth_error (chartPoints (Some (finite_series qs)) (Fin w) (Fin h)
                             (Fin pad)) i
      = Some (Fin (zq (Z.of_nat i)
                   / (zq (Z.of_nat (List.length qs)) - zq 1) * w)%Qc,
              Fin (h - pad
                   - (q - mn) / span_of mn mx * (h - pad * zq 2))%Qc).
Proof.
  intro Hn.
  assert (Hne : qs <> []) by (destruct qs; simpl in Hn; [lia | congruence]).
  destruct (Math_min_Fin Hne) as [mn [Hmn [Imn Lmn]]].
  destruct (Math_max_Fin Hne) as [mx [Hmx [Imx Lmx]]].
  exists mn, mx. repeat (split; [assumption|]).
  intros i q Hi.
  assert (Hlen : List.length (finite_series qs) = List.length qs)
    by (unfold finite_series; apply length_map).
  unfold chartPoints. rewrite Hlen.
  destruct (Nat.ltb_spec (List.length qs) 2) as [Hlt|_]; [lia|].
  unfold normPoints. rewrite mapi_nth_error.
  rewrite finite_series_nth, Hi. cbn [option_map].
  rewrite ToNumber_finite_series, Hmn, Hmx, Hlen.
  destruct (span_Fin mn mx) as [-> Hspan].
  unfold point. cbn [ToNumber]. f_equal. f_equal.
  - unfold ofNat, ofZ, sub. cbn [neg add div].
    assert (Hd : (zq (Z.of_nat (List.length qs)) + - zq 1)%Qc <> zq 0).
    { change (zq (Z.of_nat (List.length qs)) + - zq 1)%Qc
        with (zq (Z.of_nat (List.length qs)) - zq 1)%Qc.
      rewrite zq_sub. intro H. apply zq_inj in H. lia. }
    rewrite (Qc_is0_false Hd). reflexivity.
  - unfold ofZ, sub. cbn [neg add div mul].
    rewrite (Qc_is0_false Hspan). reflexivity.
Qed.

(** With fewer than two values (or with no array at all)
    [buildNormPoints] returns the empty string: there is no point to
    draw, whatever the canvas. *)
Lemma chartPoints_short
  (NumberToString : num -> string) (values : option (list value))
  (w h pad : num) :
  (forall vs, values = Some vs -> List.length vs < 2) ->
  buildNormPoints NumberToString values = ""%string /\
  buildNormPoints_with NumberToString values w h pad = ""%string /\
  chartPoints values w h pad = [].
Proof.
  intro H. unfold buildNormPoints, buildNormPoints_with, chartPoints.
  destruct values as [vs|]; [|repeat split].
  specialize (H vs eq_refl). apply Nat.ltb_lt in H. rewrite H.
  repeat split.
Qed.

(** The string that [buildNormPoints] returns is the points of
    [chartPoints], printed and joined. *)
Lemma buildNormPoints_with_points
  (NumberToString : num -> string) (values : option (list value))
  (w h pad : num) :
  buildNormPoints_with NumberToString values w h pad
  = join_points NumberToString (chartPoints values w h pad).
Proof.
  unfold buildNormPoints_with, chartPoints.
  destruct values as [vs|]; [|reflexivity].
  destruct (Nat.ltb (List.length vs) 2); reflexivity.
Qed.

(** The point at index [i] of a series of two values or more, as the
    source computes it, on any canvas. *)
Lemma chartPoints_point (vs : list value) (w h pad : num) :
  2 <= List.length vs ->
  let mn := Math_min (map ToNumber vs) in
  let mx := Math_max (map ToNumber vs) in
  let span := num_or (sub mx mn) (ofZ 1) in
  List.length (chartPoints (Some vs) w h pad) = List.length vs /\
  forall i v, nth_error vs i = Some v ->
    nth_error (chartPoints (Some vs) w h pad) i
    = Some (point (List.length vs) w h pad mn span v i).
Proof.
  intros Hn mn mx span. unfold chartPoints.
  destruct (Nat.ltb_spec (List.length vs) 2) as [Hlt|_]; [lia|].
  split; [apply normPoints_length|].
  intros i v Hi. unfold normPoints. rewrite mapi_nth_error, Hi.
  reflexivity.
Qed.

(** A flat series of finite values (at least two) gives one point per
    value, and all the points have [y = height - pad], 36 by default:
    the lower edge of the padded band, where the least value goes. *)
Lemma chartPoints_flat (q : Qc) (qs : list Qc) :
  2 <= List.length qs ->
  (forall a, In a qs -> a = q) ->
  let pts := chartPoints (Some (finite_series qs))
                         (ofZ 100) (ofZ 40) (ofZ 4) in
  List.length pts = List.length qs /\
  (forall p, In p pts -> snd p = ofZ 36).
Proof.
  intros Hn Hflat pts.
  assert (Hlen : List.length pts = List.length qs).
  { unfold pts, chartPoints.
    assert (E : List.length (finite_series qs) = List.length qs)
      by (unfold finite_series; apply length_map).
    rewrite E. destruct (Nat.ltb_spec (List.length qs) 2); [lia|].
    rewrite normPoints_length. exact E. }
  split; [exact Hlen|].
  intros p Hp. apply In_nth_error in Hp. destruct Hp as [i Hi].
  assert (Hlt : i < List.length qs).
  { rewrite <- Hlen. apply nth_error_Some. congruence. }
  destruct (nth_error qs i) as [a|] eqn:Ha;
    [|apply nth_error_None in Ha; lia].
  destruct (@chartPoints_finite qs (zq 100) (zq 40) (zq 4) Hn)
    as [mn [mx [Imn [_ [_ [_ Hpt]]]]]].
  specialize (Hpt i a Ha). fold (ofZ 100) (ofZ 40) (ofZ 4) in Hpt.
  fold pts in Hpt. rewrite Hi in Hpt. injection Hpt as ->.
  cbn [snd]. rewrite (Hflat a (nth_error_In _ _ Ha)), (Hflat mn Imn).
  unfold Qcminus at 3. rewrite Qcplus_opp_r.
  unfold Qcdiv. rewrite !Qcmult_0_l.
  apply num_eqb_eq. vm_compute. reflexivity.
Qed.

End ChartFacts.

(** ** The composite index *)

Module DashboardFacts.

Import Dashboard NumFacts.

Local Open Scope nat_scope.

Lemma rev_head_last (data : list row) (r0 : row) (rest : list row) :
  rev data = r0 :: rest -> last data [] = r0.
Proof.
  intro H. assert (E : data = rev rest ++ [r0]).
  { rewrite <- (rev_involutive data), H. reflexivity. }
  rewrite E. apply last_last.
Qed.

(** The baseline of a field: the earliest row's value, or [1] when that
    value is falsy. *)
Lemma base_ToNumber (r0 : row) (field : string) :
  ToNumber (base r0 field)
  = if ToBoolean (get r0 field) then ToNumber (get r0 field) else ofZ 1.
Proof.
  unfold base, or_else. destruct (ToBoolean (get r0 field)); reflexivity.
Qed.

Lemma base_finite (x : Qc) :
  ToNumber (or_else (VNum (Fin x)) (VNum (ofZ 1))) = Fin (base_of x) /\
  base_of x <> zq 0.
Proof.
  unfold or_else, base_of. cbn [ToBoolean num_truthy]. unfold Qc_is0.
  destruct (Qc_eq_dec x (zq 0)) as [->|Hne].
  - rewrite Qc_eqb_refl. cbn [negb ToNumber]. split; [reflexivity|].
    intro H. apply zq_inj in H. discriminate.
  - rewrite (Qc_eqb_neq Hne). cbn [negb ToNumber]. split; [reflexivity|].
    exact Hne.
Qed.

Lemma sampleOf_finite (t : value) (v o w v0 o0 w0 : Qc) :
  sampleOf (or_else (VNum (Fin v0)) (VNum (ofZ 1)))
           (or_else (VNum (Fin o0)) (VNum (ofZ 1)))
           (or_else (VNum (Fin w0)) (VNum (ofZ 1)))
           (delta_row t v o w)
  = {| ts := t;
       index := Fin (zq 100 * (v / base_of v0 + o / base_of o0
                               + w / base_of w0) / zq 3)%Qc |}.
Proof.
  unfold sampleOf, ratio.
  destruct (base_finite v0) as [-> Hv].
  destruct (base_finite o0) as [-> Ho].
  destruct (base_finite w0) as [-> Hw].
  cbn [delta_row get String.eqb Ascii.eqb Bool.eqb ToNumber].
  unfold div at 2 3 4.
  rewrite (Qc_is0_false Hv), (Qc_is0_false Ho), (Qc_is0_false Hw).
  cbn [add]. unfold ofZ. cbn [mul]. unfold div.
  assert (H3 : zq 3 <> zq 0) by (intro H; apply zq_inj in H; discriminate).
  rewrite (Qc_is0_false H3). reflexivity.
Qed.

Lemma series_nonempty (data : list row) :
  data <> [] ->
  let r0 := last data [] in
  series data
  = map (sampleOf (base r0 "d_volume_6h") (base r0 "d_oi_6h")
                  (base r0 "d_wide_6h")) (rev data).
Proof.
  intros Hne r0. unfold series.
  destruct (rev data) as [|r rest] eqn:E.
  - exfalso. apply Hne. rewrite <- (rev_involutive data), E. reflexivity.
  - unfold r0. rewrite (rev_head_last _ E). reflexivity.
Qed.

Lemma delta_rows_sampled (b1 b2 b3 : Qc)
  (ds : list (value * Qc * Qc * Qc)) :
  map (sampleOf (or_else (VNum (Fin b1)) (VNum (ofZ 1)))
                (or_else (VNum (Fin b2)) (VNum (ofZ 1)))
                (or_else (VNum (Fin b3)) (VNum (ofZ 1)))) (delta_rows ds)
  = map (spec_sample b1 b2 b3) ds.
Proof.
  unfold delta_rows. rewrite map_map. apply map_ext.
  intros [[[t v] o] w]. unfold spec_sample. apply sampleOf_finite.
Qed.

(** C6: the rows arrive newest first and are reversed; the baseline is
    the earliest row's three deltas, each replaced by [1] when falsy; the
    index of every row is [100 * (sum of the three ratios) / 3].  First
    for any rows, as the source computes it; then for finite deltas in
    exact arithmetic; then the example: earliest-first rows [(2,4,6)] and
    [(4,8,12)] give the indexes 100 and 200. *)
Theorem composite_index_spec :
  (forall data : list row,
      data <> [] ->
      let earliest := last data [] in
      let b := fun field =>
                 if ToBoolean (get earliest field)
                 then ToNumber (get earliest field) else ofZ 1 in
      series data
      = map (fun r =>
               {| ts := get r "snap_ts";
                  index :=
                    div (mul (ofZ 100)
                           (add (add (div (ToNumber (get r "d_volume_6h"))
                                          (b "d_volume_6h"%string))
                                     (div (ToNumber (get r "d_oi_6h"))
                                          (b "d_oi_6h"%string)))
                                (div (ToNumber (get r "d_wide_6h"))
                                     (b "d_wide_6h"%string))))
                        (ofZ 3) |})
            (rev data)) /\
  (forall (ds : list (value * Qc * Qc * Qc)) (t0 : value) (v0 o0 w0 : Qc),
      series (delta_rows (ds ++ [(t0, v0, o0, w0)]))
      = map (spec_sample v0 o0 w0) ((t0, v0, o0, w0) :: rev ds)) /\
  (forall t1 t2 : value,
      map index (series [delta_row t2 (zq 4) (zq 8) (zq 12);
                         delta_row t1 (zq 2) (zq 4) (zq 6)])
      = [ofZ 100; ofZ 200] /\
      latestIndex [delta_row t2 (zq 4) (zq 8) (zq 12);
                   delta_row t1 (zq 2) (zq 4) (zq 6)] = Some (ofZ 200)).
Proof.
  split; [|split].
  - intros data Hne earliest b. rewrite (series_nonempty Hne).
    fold earliest. apply map_ext. intro r.
    unfold sampleOf, ratio. rewrite !base_ToNumber. reflexivity.
  - intros ds t0 v0 o0 w0.
    assert (Hne : delta_rows (ds ++ [(t0, v0, o0, w0)]) <> []).
    { unfold delta_rows. rewrite map_app. destruct (map _ ds); discriminate. }
    rewrite (series_nonempty Hne).
    assert (L : last (delta_rows (ds ++ [(t0, v0, o0, w0)])) []
                = delta_row t0 v0 o0 w0).
    { unfold delta_rows. rewrite map_app. apply last_last. }
    rewrite L.
    assert (R : rev (delta_rows (ds ++ [(t0, v0, o0, w0)]))
                = delta_rows ((t0, v0, o0, w0) :: rev ds)).
    { unfold delta_rows. rewrite <- map_rev, rev_app_distr. reflexivity. }
    rewrite R. unfold base.
    cbn [delta_row get String.eqb Ascii.eqb Bool.eqb].
    apply delta_rows_sampled.
  - intros t1 t2. split.
    + apply nums_eqb_eq; vm_compute; reflexivity.
    + apply option_num_eq. vm_compute. reflexivity.
Qed.

Lemma composite_index_spec_witness :
  series (delta_rows [(VStr "later", zq 4, zq 8, zq 12);
                      (VStr "earlier", zq 2, zq 4, zq 6)])
  = map (spec_sample (zq 2) (zq 4) (zq 6))
        [(VStr "earlier", zq 2, zq 4, zq 6);
         (VStr "later", zq 4, zq 8, zq 12)].
Proof.
  exact (proj1 (proj2 composite_index_spec)
           [(VStr "later", zq 4, zq 8, zq 12)]
           (VStr "earlier") (zq 2) (zq 4) (zq 6)).
Defined.

(** The sparkline drawn inline by [Dashboard] is not [buildNormPoints]:
    for a single row it has one point, at [x = 0] and [y = 35]. *)
Lemma vixPoints_single_row (t : value) (v o w : Qc) :
  List.length (vixPoints [delta_row t v o w]) = 1 /\
  map fst (vixPoints [delta_row t (zq 4) (zq 8) (zq 12)]) = [ofZ 0] /\
  map snd (vixPoints [delta_row t (zq 4) (zq 8) (zq 12)]) = [ofZ 35].
Proof.
  split; [reflexivity|].
  split; apply nums_eqb_eq; vm_compute; reflexivity.
Qed.

End DashboardFacts.

(** ** The screener *)

Module ScreenerFacts.

Import UseApi Screener NumFacts UseApiFacts.

Local Open Scope string_scope.
Local Open Scope nat_scope.

(** *** Threshold filters *)

Lemma geb_NaN_l (y : num) : geb NaN y = false.
Proof. destruct y; reflexivity. Qed.

Lemma geb_NaN_r (x : num) : geb x NaN = false.
Proof. destruct x; reflexivity. Qed.

(** With a threshold that is given, [passMin] compares the two numbers,
    unless the threshold is [NaN]. *)
Lemma passMin_given (v m : value) :
  ~ unset m ->
  passMin v m
  = if isNaN (ToNumber m) then true else geb (ToNumber v) (ToNumber m).
Proof.
  intro Hset.
  assert (E : passMin v m
              = if isNaN (ToNumber m) then true
                else match v with
                     | VNum n => geb n (ToNumber m)
                     | _ => if isNaN (ToNumber v) then false
                            else geb (ToNumber v) (ToNumber m)
                     end).
  { destruct m as [| |b|n|s|items|fields]; try reflexivity.
    - exfalso. apply Hset. right. left. reflexivity.
    - destruct s; [|reflexivity].
      exfalso. apply Hset. left. reflexivity. }
  rewrite E. destruct (isNaN (ToNumber m)); [reflexivity|].
  assert (G : forall x,
             (if isNaN x then false else geb x (ToNumber m))
             = geb x (ToNumber m)).
  { intros [q| | |]; try reflexivity. symmetry. apply geb_NaN_l. }
  destruct v; try reflexivity; apply G.
Qed.

Lemma passMin_unset (v m : value) : unset m -> passMin v m = true.
Proof. intros [->|[->| ->]]; reflexivity. Qed.

Lemma unset_dec (m : value) : unset m \/ ~ unset m.
Proof.
  unfold unset. destruct m as [| |b|n|s|items|fields];
    try (left; tauto);
    try (right; intros [H|[H|H]]; discriminate).
  destruct s; [left; tauto | right; intros [H|[H|H]]; discriminate].
Qed.

Lemma passMin_spec (v m : value) :
  passMin v m = true <->
  unset m \/ isNaN (ToNumber m) = true \/
  geb (ToNumber v) (ToNumber m) = true.
Proof.
  destruct (unset_dec m) as [U|U].
  - rewrite (passMin_unset v U). tauto.
  - rewrite (passMin_given v U).
    destruct (isNaN (ToNumber m)); split; auto.
    intros [H|[H|H]]; [contradiction | discriminate | exact H].
Qed.

Lemma unset_VStr (m : string) : unset (VStr m) <-> m = ""%string.
Proof.
  unfold unset. split.
  - intros [H|[H|H]]; congruence.
  - intros ->. left. reflexivity.
Qed.

(** A row passes the five tests exactly when it meets every configured
    threshold. *)
Lemma passes_spec (f : form) (r : row) :
  passes f r = true <->
  forall field m, In (field, m) (thresholds f) -> configured m ->
                  geb (ToNumber (get r field)) (StringToNumber m) = true.
Proof.
  assert (P : forall field m,
             passMin (get r field) (VStr m) = true <->
             (configured m ->
              geb (ToNumber (get r field)) (StringToNumber m) = true)).
  { intros field m. rewrite passMin_spec, unset_VStr. unfold configured.
    cbn [ToNumber]. split.
    - intros [H|[H|H]] [Hne Hnum]; [contradiction | congruence | exact H].
    - intro H. destruct (string_dec m "") as [E|E]; [left; exact E|].
      destruct (isNaN (StringToNumber m)) eqn:N; [right; left; reflexivity|].
      right. right. apply H. split; [exact E | reflexivity]. }
  unfold passes, thresholds. rewrite !andb_true_iff, !P. split.
  - intros [[[[H1 H2] H3] H4] H5] field m Hin.
    simpl in Hin.
    destruct Hin as [E|[E|[E|[E|[E|[]]]]]]; injection E as <- <-; assumption.
  - intro H. repeat split; apply H; simpl; tauto.
Qed.

(** *** Sorting keeps the rows *)

Lemma insert_perm (cmp : row -> row -> num) (a : row) (l : list row) :
  Permutation (insert cmp a l) (a :: l).
Proof.
  induction l as [|y l IH]; cbn [insert]; [reflexivity|].
  destruct (ltb (ofZ 0) (cmp a y)); [|reflexivity].
  rewrite IH. apply perm_swap.
Qed.

Lemma sort_perm (cmp : row -> row -> num) (l : list row) :
  Permutation (sort cmp l) l.
Proof.
  induction l as [|a l IH]; simpl; [reflexivity|].
  unfold sort in IH. rewrite insert_perm. now constructor.
Qed.

Lemma sortRows_In (lc : string -> string -> Z) (f : form) (rows : list row)
  (r : row) :
  In r (sortRows lc f rows) <-> In r rows.
Proof.
  unfold sortRows. split; apply Permutation_in.
  - apply sort_perm.
  - symmetry. apply sort_perm.
Qed.

(** The three rows of the example: volumes [100], [50] and ['bad']. *)
Example applyFilters_example (lc : string -> string -> Z) :
  filteredRows
    (run lc init
       [Settled 0 (Fulfilled
          {| ok := true; status := 200%Z;
             json_body := Fulfilled
               (Rows [[("volume"%string, VNum (ofZ 100))];
                      [("volume"%string, VNum (ofZ 50))];
                      [("volume"%string, VStr "bad")]]) |});
        Change InMinVolume "60";
        ApplyFilters])
  = [[("volume"%string, VNum (ofZ 100))]].
Proof. vm_compute. reflexivity. Qed.

(** C7: a row passes [applyFilters] exactly when, for each threshold that
    is configured (not empty, and a number), the row's value coerced to a
    number is at least the threshold; a value that does not coerce fails
    a configured threshold; an empty or unset threshold always passes.
    The example: of the rows with volumes [100], [50] and ['bad'], the
    threshold [60] keeps the first only. *)
Theorem applyFilters_thresholds (lc : string -> string -> Z) :
  (forall v m,
      passMin v m = true <->
      unset m \/ isNaN (ToNumber m) = true \/
      geb (ToNumber v) (ToNumber m) = true) /\
  (forall v m,
      ~ unset m -> isNaN (ToNumber m) = false ->
      isNaN (ToNumber v) = true -> passMin v m = false) /\
  (forall v m, unset m -> passMin v m = true) /\
  (forall s r,
      In r (filteredRows (applyFilters lc s)) <->
      In r (allRows s) /\
      forall field m, In (field, m) (thresholds (theForm s)) ->
                      configured m ->
                      geb (ToNumber (get r field)) (StringToNumber m)
                      = true) /\
  filteredRows
    (run lc init
       [Settled 0 (Fulfilled
          {| ok := true; status := 200%Z;
             json_body := Fulfilled
               (Rows [[("volume"%string, VNum (ofZ 100))];
                      [("volume"%string, VNum (ofZ 50))];
                      [("volume"%string, VStr "bad")]]) |});
        Change InMinVolume "60";
        ApplyFilters])
  = [[("volume"%string, VNum (ofZ 100))]].
Proof.
  split; [exact passMin_spec|]. split; [|split; [|split]].
  - intros v m U Hm Hv. rewrite (passMin_given v U), Hm.
    destruct (ToNumber v); try discriminate. apply geb_NaN_l.
  - intros v m U. apply passMin_unset, U.
  - intros s r. unfold applyFilters. cbn [filteredRows].
    rewrite sortRows_In, filter_In, passes_spec. reflexivity.
  - apply applyFilters_example.
Qed.

Lemma applyFilters_thresholds_witness :
  passMin (VStr "bad") (VStr "60") = false.
Proof.
  refine (proj1 (proj2 (applyFilters_thresholds (fun _ _ => 0%Z)))
            (VStr "bad") (VStr "60") _ _ _).
  - intros [H|[H|H]]; discriminate.
  - reflexivity.
  - reflexivity.
Defined.

(** C10: a threshold that is not a number rejects no row: [passMin]
    answers [true] whatever the row's value. *)
Theorem passMin_unparseable_threshold (v m : value) :
  ToNumber m = NaN -> passMin v m = true.
Proof.
  intro H. apply passMin_spec. right. left. rewrite H. reflexivity.
Qed.

Lemma passMin_unparseable_threshold_witness :
  ToNumber (VStr "abc") = NaN /\
  passMin (VNum (ofZ 5)) (VStr "abc") = true.
Proof.
  split; [reflexivity|].
  apply (@passMin_unparseable_threshold (VNum (ofZ 5)) (VStr "abc")).
  reflexivity.
Defined.

(** *** The comparator and the order of the sorted rows *)









Section InsertionSort.

Variable cmp : row -> row -> num.
Variable P : row -> Prop.
Variable le : row -> row -> Prop.

Hypothesis le_trans : forall x y z, P x -> P y -> P z ->
                                    le x y -> le y z -> le x z.
Hypothesis gt_le : forall a y, P a -> P y ->
                               ltb (ofZ 0) (cmp a y) = true -> le y a.
Hypothesis ngt_le : forall a y, P a -> P y ->
                                ltb (ofZ 0) (cmp a y) = false -> le a y.



End InsertionSort.









(** *** Pages *)

Lemma zq_div_this (c p : Z) :
  (p <> 0)%Z ->
  (this (zq c / zq p)%Qc == inject_Z c / inject_Z p)%Q.
Proof.
  intro Hp. unfold Qcdiv, Qcmult, Qcinv, Q2Qc. cbn [this].
  rewrite !Qred_correct. rewrite !zq_this. reflexivity.
Qed.

Lemma div_ofZ (c p : Z) :
  (p <> 0)%Z -> div (ofZ c) (ofZ p) = Fin (zq c / zq p)%Qc.
Proof.
  intro Hp. unfold ofZ, div.
  assert (H : zq p <> zq 0) by (intro H; apply zq_inj in H; contradiction).
  rewrite (Qc_is0_false H). reflexivity.
Qed.

(** The ceiling of [c / p] is the integer [k] with
    [(k - 1) * p < c <= k * p]. *)
Lemma Qceiling_div (c p : Z) :
  (0 < p)%Z ->
  let k := Qceiling (inject_Z c / inject_Z p) in
  ((k - 1) * p < c <= k * p)%Z.
Proof.
  intros Hp k.
  assert (Hq : (0 < inject_Z p)%Q).
  { change (inject_Z 0 < inject_Z p)%Q. rewrite <- Zlt_Qlt. exact Hp. }
  assert (Hnz : ~ (inject_Z p == 0)%Q).
  { intro E. rewrite E in Hq. exact (Qlt_irrefl _ Hq). }
  assert (E : (inject_Z c == inject_Z c / inject_Z p * inject_Z p)%Q).
  { field. exact Hnz. }
  pose proof (Qle_ceiling (inject_Z c / inject_Z p)) as Hle.
  pose proof (Qceiling_lt (inject_Z c / inject_Z p)) as Hlt.
  fold k in Hle, Hlt.
  assert (E' : (inject_Z c / inject_Z p * inject_Z p <= inject_Z c)%Q)
    by (apply Qle_lteq; right; symmetry; exact E).
  assert (E'' : (inject_Z c <= inject_Z c / inject_Z p * inject_Z p)%Q)
    by (apply Qle_lteq; right; exact E).
  split.
  - rewrite (Zlt_Qlt ((k - 1) * p) c), inject_Z_mult.
    eapply Qlt_le_trans; [|exact E'].
    apply Qmult_lt_compat_r; assumption.
  - rewrite (Zle_Qle c (k * p)), inject_Z_mult.
    eapply Qle_trans; [exact E''|].
    apply Qmult_le_compat_r; [assumption | apply Qlt_le_weak, Hq].
Qed.

Lemma num_or_ofZ (k : Z) :
  num_or (ofZ k) (ofZ 1) = ofZ (if (k =? 0)%Z then 1 else k).
Proof.
  unfold num_or, ofZ. cbn [num_truthy].
  destruct (Z.eqb_spec k 0) as [->|Hk].
  - unfold Qc_is0. rewrite Qc_eqb_refl. reflexivity.
  - assert (H : zq k <> zq 0) by (intro H; apply zq_inj in H; contradiction).
    rewrite (Qc_is0_false H). reflexivity.
Qed.

Lemma pagesOf_ceil (count : nat) (p : Z) :
  (0 < p)%Z ->
  exists k, ((k - 1) * p < Z.of_nat count <= k * p)%Z /\
            pagesOf count (ofZ p) = ofZ (Z.max 1 k).
Proof.
  intro Hp.
  exists (Qceiling (inject_Z (Z.of_nat count) / inject_Z p)).
  split; [apply Qceiling_div; exact Hp|].
  unfold pagesOf, ofNat. rewrite div_ofZ by lia. cbn [Math_ceil].
  rewrite (Qceiling_comp _ _ (@zq_div_this (Z.of_nat count) p ltac:(lia))).
  rewrite num_or_ofZ, Math_max_pair. f_equal.
  destruct (Z.eqb_spec (Qceiling (inject_Z (Z.of_nat count) / inject_Z p)) 0);
    lia.
Qed.

Lemma totalPages_pos (s : state) (p : Z) :
  pageSize s = ofZ p -> (0 < p)%Z ->
  exists tp, totalPages s = ofZ tp /\ (1 <= tp)%Z.
Proof.
  intros E Hp. unfold totalPages. rewrite E.
  destruct (@pagesOf_ceil (List.length (filteredRows s)) p Hp)
    as [k [_ Hk]].
  exists (Z.max 1 k). split; [exact Hk | lia].
Qed.

Lemma clampPage_page (s : state) (k tp : Z) :
  page s = ofZ k -> totalPages s = ofZ tp ->
  page (clampPage s) = ofZ (Z.min k tp) /\
  totalPages (clampPage s) = totalPages s.
Proof.
  intros Hk Ht. split; [|reflexivity].
  unfold clampPage. cbn [page setPage].
  rewrite Hk, Ht, Math_min_pair. reflexivity.
Qed.

(** *** The states the page reaches *)

Lemma invariant_intro (s : state) (k p m : Z) :
  page s = ofZ k -> pageSize s = ofZ p -> In p [10; 25; 50; 100]%Z ->
  refreshNonce s = ofZ m -> (0 <= m)%Z ->
  (1 <= k)%Z ->
  (forall tp, totalPages s = ofZ tp -> (k <= tp)%Z) ->
  well_formed (screener s) ->
  invariant s.
Proof.
  intros Hk Hp Hin Hm Hm0 Hk1 Htp W.
  assert (Hp0 : (0 < p)%Z) by (simpl in Hin; lia).
  destruct (totalPages_pos s Hp Hp0) as [tp [Et Ht]].
  specialize (Htp tp Et).
  exists k, p, m, tp. repeat apply conj; auto; lia.
Qed.

Lemma invariant_init : invariant init.
Proof.
  apply invariant_intro with (k := 1%Z) (p := 25%Z) (m := 0%Z);
    try reflexivity; try lia.
  - simpl; tauto.
  - intros tp H.
    destruct (@totalPages_pos init 25%Z eq_refl ltac:(lia)) as [tp' [E L]].
    rewrite E in H. apply ofZ_inj in H. lia.
  - apply well_formed_mount.
Qed.

Lemma page_one_le (s : state) (p : Z) :
  pageSize s = ofZ p -> In p [10; 25; 50; 100]%Z ->
  forall tp, totalPages s = ofZ tp -> (1 <= tp)%Z.
Proof.
  intros Hp Hin tp H.
  assert (Hp0 : (0 < p)%Z) by (simpl in Hin; lia).
  destruct (totalPages_pos s Hp Hp0) as [tp' [E L]].
  rewrite E in H. apply ofZ_inj in H. lia.
Qed.

Lemma option_value_size (o : size_option) :
  exists p, ToNumber (VStr (option_value o)) = ofZ p /\
            In p [10; 25; 50; 100]%Z.
Proof.
  destruct o; [exists 10%Z | exists 25%Z | exists 50%Z | exists 100%Z];
    (split; [apply num_eqb_eq; vm_compute; reflexivity | simpl; tauto]).
Qed.

Lemma invariant_handle (lc : string -> string -> Z) (s : state) (e : event) :
  invariant s -> invariant (handle lc s e).
Proof.
  intros [k [p [m [tp [Hk [Hp [Hin [Hm [Hm0 [Ht [Hr W]]]]]]]]]]].
  destruct e as [i v| | | |o| | | | |j net]; cbn [handle].
  - (* Change *)
    exists k, p, m, tp. repeat apply conj; auto; lia.
  - (* ApplyFilters *)
    apply invariant_intro with (k := 1%Z) (p := p) (m := m); auto; try lia.
    apply page_one_le with (p := p); auto.
  - (* ResetFilters *)
    apply invariant_intro with (k := 1%Z) (p := p) (m := m); auto; try lia.
    apply page_one_le with (p := p); auto.
  - (* RefreshOnly *)
    exists k, p, (m + 1)%Z, tp. repeat apply conj; auto; try lia.
    cbn [refreshNonce refreshOnly]. rewrite Hm. apply add_ofZ.
  - (* PageSize *)
    destruct (option_value_size o) as [p' [Ep' Hin']].
    apply invariant_intro with (k := 1%Z) (p := p') (m := m); auto; try lia.
    apply page_one_le with (p := p'); auto.
  - (* First *)
    exists 1%Z, p, m, tp. repeat apply conj; auto; lia.
  - (* Prev *)
    exists (Z.max 1 (k - 1)), p, m, tp. repeat apply conj; auto; try lia.
    cbn [page setPage]. rewrite Hk, sub_ofZ. apply Math_max_pair.
  - (* Next *)
    exists (Z.min tp (k + 1)), p, m, tp. repeat apply conj; auto; try lia.
    cbn [page setPage]. rewrite Ht, Hk, add_ofZ. apply Math_min_pair.
  - (* Last *)
    exists tp, p, m, tp. repeat apply conj; auto; lia.
  - (* Settled *)
    exists k, p, m, tp. repeat apply conj; auto; try lia.
    cbn [screener setScreener]. apply well_formed_settle, W.
Qed.

Lemma invariant_data_effects (before : state) (e : event) (s : state) :
  invariant s -> invariant (data_effects before e s).
Proof.
  intro I. unfold data_effects.
  set (s1 := if num_eqb (refreshNonce before) (refreshNonce s) then s
             else setScreener (run_effect (screener s)) s).
  assert (I1 : invariant s1).
  { unfold s1. destruct (num_eqb _ _); [exact I|].
    destruct I as [k [p [m [tp [Hk [Hp [Hin [Hm [Hm0 [Ht [Hr W]]]]]]]]]]].
    exists k, p, m, tp. repeat apply conj; auto; try lia.
    cbn [screener setScreener]. apply well_formed_run_effect, W. }
  clearbody s1.
  assert (D : forall d, invariant (onData d s1)).
  { intros [rs|v]; [|exact I1].
    destruct I1 as [k [p [m [tp [Hk [Hp [Hin [Hm [Hm0 [Ht [Hr W]]]]]]]]]]].
    apply invariant_intro with (k := 1%Z) (p := p) (m := m); auto; try lia.
    apply page_one_le with (p := p); auto. }
  destruct e; try exact I1.
  destruct (delivered (screener before) k net); [apply D | exact I1].
Qed.

Lemma invariant_page_effect (before s : state) :
  invariant s ->
  invariant (page_effect before s) /\ page (page_effect before s) = page s.
Proof.
  intro I. unfold page_effect.
  destruct (num_eqb (totalPages before) (totalPages s)); [split; auto|].
  destruct I as [k [p [m [tp [Hk [Hp [Hin [Hm [Hm0 [Ht [Hr W]]]]]]]]]]].
  destruct (clampPage_page s Hk Ht) as [Ek Et].
  replace (Z.min k tp) with k in Ek by lia.
  split; [|congruence].
  exists k, p, m, tp. repeat apply conj; auto; try lia; try congruence.
Qed.

Lemma invariant_step (lc : string -> string -> Z) (s : state) (e : event) :
  invariant s -> invariant (step lc s e).
Proof.
  intro I. unfold step, effects.
  apply invariant_page_effect, invariant_data_effects, invariant_handle, I.
Qed.

Lemma invariant_run (lc : string -> string -> Z) (es : list event)
  (s : state) :
  invariant s -> invariant (run lc s es).
Proof.
  revert s. induction es as [|e es IH]; intros s I; [exact I|].
  cbn [run fold_left]. apply IH, invariant_step, I.
Qed.

(** *** Refresh *)

Lemma find_app_skip {A : Type} (f : A -> bool) (l1 l2 : list A) :
  (forall x, In x l1 -> f x = false) -> find f (l1 ++ l2) = find f l2.
Proof.
  induction l1 as [|a l1 IH]; intro H; [reflexivity|].
  cbn [app find]. rewrite (H a (or_introl eq_refl)).
  apply IH. intros x Hx. apply H. right. exact Hx.
Qed.

(** A run of the effect leaves its request in flight, not aborted. *)
Lemma run_effect_in_flight (json : Type) (s : sys json) :
  well_formed s ->
  in_flight (issued s) (run_effect s)
  = Some {| rid := issued s; aborted := false |} /\
  current (run_effect s) = Some (issued s) /\
  loading (hk (run_effect s)) = true.
Proof.
  intro W. split; [|split; reflexivity].
  unfold in_flight, run_effect. cbn [pending].
  rewrite find_app_skip.
  - cbn [find rid]. rewrite Nat.eqb_refl. reflexivity.
  - intros r Hr. apply Nat.eqb_neq.
    unfold cleanup in Hr. destruct (issued s) as [|k] eqn:Ek.
    + destruct (W r Hr) as [Hlt _]. lia.
    + destruct (abort_In _ _ _ Hr) as [r0 [Hin0 [Hid _]]].
      destruct (W r0 Hin0) as [Hlt _]. lia.
Qed.

(** When rows arrive for the request in flight, the effect on
    [[screener.data]] replaces the rows by them, unfiltered, and goes back
    to page 1; the form keeps its filters and its sort. *)
Lemma refreshed_rows_arrive (lc : string -> string -> Z) (s : state)
  (k : nat) (st p : Z) (rs : list row) :
  in_flight k (screener s) = Some {| rid := k; aborted := false |} ->
  pageSize s = ofZ p -> (0 < p)%Z ->
  let s' := step lc s (Settled k (Fulfilled
              {| ok := true; status := st;
                 json_body := Fulfilled (Rows rs) |})) in
  allRows s' = rs /\ filteredRows s' = rs /\
  theForm s' = theForm s /\ pageSize s' = pageSize s /\
  page s' = ofZ 1.
Proof.
  intros F Hp Hp0 s'.
  assert (D : delivered (screener s) k
                (Fulfilled {| ok := true; status := st;
                              json_body := Fulfilled (Rows rs) |})
              = Some (Rows rs)).
  { unfold delivered. rewrite F. reflexivity. }
  unfold s', step, effects, data_effects. cbn [handle].
  cbn [refreshNonce setScreener]. rewrite num_eqb_refl, D.
  set (s2 := onData (Rows rs) _).
  assert (H2 : allRows s2 = rs /\ filteredRows s2 = rs /\
               theForm s2 = theForm s /\ pageSize s2 = pageSize s /\
               page s2 = ofZ 1) by (repeat apply conj; reflexivity).
  unfold page_effect.
  destruct (num_eqb (totalPages s) (totalPages s2)); [exact H2|].
  destruct H2 as [A [B [C [E G]]]].
  repeat apply conj; try assumption.
  destruct (@totalPages_pos s2 p (eq_trans E Hp) Hp0) as [tp [Et Lt]].
  unfold clampPage. cbn [page setPage]. rewrite G, Et, Math_min_pair.
  f_equal. lia.
Qed.

(** C2, as the code has it: in any state the page reaches, the Refresh
    button increments the nonce, which changes the request identity, so
    that the hook's effect runs again and a new request is in flight; the
    form (filters and sort), the page, the page size and the rows are as
    they were.  When the rows of that request arrive, the effect on
    [[screener.data]] replaces the rows by them, unfiltered, and sets the
    page to 1; the form and the page size are still as they were. *)
Theorem refreshOnly_then_rows_arrive (lc : string -> string -> Z)
  (es : list event) :
  let s := run lc init es in
  let s' := step lc s RefreshOnly in
  (refreshNonce s' = add (refreshNonce s) (ofZ 1) /\
   identity s' <> identity s /\
   screener s' = run_effect (screener s) /\
   in_flight (issued (screener s)) (screener s')
   = Some {| rid := issued (screener s); aborted := false |} /\
   current (screener s') = Some (issued (screener s)) /\
   theForm s' = theForm s /\
   page s' = page s /\
   pageSize s' = pageSize s /\
   allRows s' = allRows s /\
   filteredRows s' = filteredRows s) /\
  (forall (st : Z) (rs : list row),
      let s'' := step lc s'
                   (Settled (issued (screener s))
                      (Fulfilled {| ok := true; status := st;
                                    json_body := Fulfilled (Rows rs) |})) in
      allRows s'' = rs /\ filteredRows s'' = rs /\
      page s'' = ofZ 1 /\
      theForm s'' = theForm s /\ pageSize s'' = pageSize s).
Proof.
  intros s s'.
  destruct (invariant_run lc es invariant_init)
    as [k [p [m [tp [Hk [Hp [Hin [Hm [Hm0 [Ht [Hr W]]]]]]]]]]].
  fold s in Hk, Hp, Hm, Ht, W.
  assert (Hne : num_eqb (refreshNonce s) (add (refreshNonce s) (ofZ 1))
                = false).
  { rewrite Hm, add_ofZ. apply num_eqb_neq. intro H.
    apply ofZ_inj in H. lia. }
  assert (E : s' = setScreener (run_effect (screener s)) (refreshOnly s)).
  { unfold s', step, effects, data_effects. cbn [handle].
    cbn [refreshNonce refreshOnly]. rewrite Hne.
    unfold page_effect.
    replace (totalPages
               (setScreener (run_effect (screener (refreshOnly s)))
                            (refreshOnly s)))
      with (totalPages s) by reflexivity.
    rewrite num_eqb_refl. reflexivity. }
  destruct (run_effect_in_flight W) as [F [C _]].
  assert (Frame :
            refreshNonce s' = add (refreshNonce s) (ofZ 1) /\
            identity s' <> identity s /\
            screener s' = run_effect (screener s) /\
            in_flight (issued (screener s)) (screener s')
            = Some {| rid := issued (screener s); aborted := false |} /\
            current (screener s') = Some (issued (screener s)) /\
            theForm s' = theForm s /\
            page s' = page s /\
            pageSize s' = pageSize s /\
            allRows s' = allRows s /\
            filteredRows s' = filteredRows s).
  { rewrite E. cbn [refreshNonce setScreener refreshOnly screener theForm
                    page pageSize allRows filteredRows].
    split; [reflexivity|]. split.
    - unfold identity, params. cbn [refreshNonce setScreener refreshOnly].
      intro H. injection H as H. rewrite H in Hne.
      rewrite num_eqb_refl in Hne. discriminate.
    - repeat apply conj; auto. }
  split; [exact Frame|].
  intros st rs s''.
  destruct Frame as [_ [_ [_ [F' [_ [Ef [_ [Ep _]]]]]]]].
  assert (Hp0 : (0 < p)%Z) by (simpl in Hin; lia).
  destruct (@refreshed_rows_arrive lc s' (issued (screener s)) st p rs F'
              (eq_trans Ep Hp) Hp0) as [A [B [C' [D G]]]].
  fold s'' in A, B, C', D, G.
  repeat apply conj; try assumption; congruence.
Qed.

(** C2 as stated fails for the page: with 26 rows on pages of 25, on
    page 2, Refresh and the arrival of the re-requested rows leave the
    page at 1; the form is as it was. *)
Lemma refresh_resets_page :
  let body := Fulfilled {| ok := true; status := 200%Z;
                           json_body := Fulfilled (Rows (repeat [] 26)) |} in
  let s := run lex init [Settled 0 body; Next] in
  let s' := run lex s [RefreshOnly; Settled 1 body] in
  page s = ofZ 2 /\ page s' = ofZ 1 /\ page s' <> page s /\
  theForm s' = theForm s.
Proof.
  cbv zeta.
  match goal with
  | |- ?a = _ /\ ?b = _ /\ _ =>
      assert (E2 : a = ofZ 2) by (apply num_eqb_eq; vm_compute; reflexivity);
      assert (E1 : b = ofZ 1) by (apply num_eqb_eq; vm_compute; reflexivity)
  end.
  split; [exact E2|]. split; [exact E1|]. split.
  - rewrite E1, E2. intro H. apply ofZ_inj in H. discriminate.
  - vm_compute. reflexivity.
Qed.

End ScreenerFacts.

(** ** The hook: one live request, and what the current request leaves *)

Module UseApiMore.

Import UseApi UseApiFacts UseApiShape.

Section Hook.

Variable json : Type.

Local Open Scope nat_scope.

Lemma abort_rids (k : nat) (rs : list request) :
  map rid (abort k rs) = map rid rs.
Proof.
  unfold abort. rewrite map_map. apply map_ext. intro r.
  destruct (Nat.eqb (rid r) k); reflexivity.
Qed.

Lemma cleanup_rids (s : sys json) :
  map rid (cleanup s) = map rid (pending s).
Proof.
  unfold cleanup. destruct (issued s); [reflexivity | apply abort_rids].
Qed.

Lemma filter_rids_NoDup (keep : request -> bool) (rs : list request) :
  NoDup (map rid rs) -> NoDup (map rid (filter keep rs)).
Proof.
  induction rs as [|r rs IH]; intro H; [constructor|].
  cbn [map] in H. inversion H as [|? ? Hn Hd]; subst.
  cbn [filter]. destruct (keep r); [|apply IH, Hd].
  cbn [map]. constructor; [|apply IH, Hd].
  intro Hin. apply Hn. apply in_map_iff in Hin.
  destruct Hin as [x [Hx Hin]]. apply filter_In in Hin.
  apply in_map_iff. exists x. tauto.
Qed.

Lemma orderly_run_effect (s : sys json) :
  orderly s -> orderly (run_effect s).
Proof.
  intros [Hnd [Hr He]]. unfold orderly, run_effect. cbn [pending issued hk].
  split; [|split].
  - rewrite map_app, cleanup_rids. cbn [map rid].
    apply NoDup_app; [exact Hnd | repeat constructor; intros [] |].
    intros x Hx [<-|[]]. apply in_map_iff in Hx.
    destruct Hx as [r [E Hin]]. destruct (Hr r Hin) as [Hlt _]. lia.
  - intros r Hin. apply in_app_iff in Hin. destruct Hin as [Hin|[<-|[]]].
    + unfold cleanup in Hin. destruct (issued s) as [|k] eqn:Ek.
      * destruct (Hr r Hin) as [Hlt _]. lia.
      * unfold abort in Hin. apply in_map_iff in Hin.
        destruct Hin as [r0 [E Hin0]]. destruct (Hr r0 Hin0) as [Hlt Hab].
        destruct (Nat.eqb_spec (rid r0) k) as [Ek0|Ek0]; subst r;
          cbn [rid aborted].
        -- split; [lia|]. split; [discriminate | lia].
        -- split; [lia|]. split; [|lia].
           intro Hf. apply Hab in Hf. lia.
    + cbn [rid aborted]. split; [lia | tauto].
  - intros _. reflexivity.
Qed.

Lemma orderly_settle (k : nat) (net : settled (response json))
  (s : sys json) :
  orderly s -> orderly (settle k net s).
Proof.
  intros [Hnd [Hr He]]. unfold settle.
  destruct (in_flight k s) as [r|] eqn:Ek;
    [|exact (conj Hnd (conj Hr He))].
  destruct (in_flight_In _ _ Ek) as [Hin Hk].
  unfold orderly. cbn [pending issued hk]. split; [|split].
  - apply filter_rids_NoDup, Hnd.
  - intros r' Hr'. apply filter_In in Hr'. apply Hr, Hr'.
  - intros [r' [Hr' Hc]]. apply filter_In in Hr'. destruct Hr' as [Hin' Hne].
    apply negb_true_iff, Nat.eqb_neq in Hne.
    assert (Ha : aborted r = true).
    { destruct (aborted r) eqn:Ea; [reflexivity|].
      apply (Hr r Hin) in Ea. lia. }
    rewrite (on_settle_aborted _ net (hk s) Ha). cbn [error setLoading].
    apply He. exists r'. split; assumption.
Qed.

Lemma orderly_mount : orderly (mount json).
Proof.
  apply orderly_run_effect. unfold orderly, unmounted. cbn.
  split; [constructor|]. split; [intros r []|]. intros [r [[] _]].
Qed.

Lemma orderly_run (es : list (event json)) (s : sys json) :
  orderly s -> orderly (run s es).
Proof.
  revert s. induction es as [|e es IH]; intros s H; [exact H|].
  cbn [run fold_left]. apply IH. destruct e; cbn [step].
  - now apply orderly_run_effect.
  - now apply orderly_settle.
Qed.

Lemma NoDup_same_image {A B : Type} (f : A -> B) (c : B) (l : list A) :
  NoDup (map f l) -> (forall x, In x l -> f x = c) -> List.length l <= 1.
Proof.
  destruct l as [|a [|b l]]; cbn; intros Hnd Hc; try lia.
  exfalso. inversion Hnd as [|? ? Hn _]; subst. apply Hn.
  left. rewrite (Hc a), (Hc b); auto.
Qed.

(** X1: whatever the sequence of identity changes and settlements, at
    most one request of the hook has a signal that is not aborted, and it
    is the request of the latest run of the effect; the requests in
    flight have distinct numbers. *)
Theorem useApi_at_most_one_live (es : list (event json)) :
  let s := run (mount json) es in
  List.length (live s) <= 1 /\
  (forall r, In r (live s) -> current s = Some (rid r)) /\
  NoDup (map rid (pending s)).
Proof.
  intro s. destruct (orderly_run es orderly_mount) as [Hnd [Hr _]].
  fold s in Hnd, Hr.
  assert (Hl : forall r, In r (live s) -> S (rid r) = issued s).
  { intros r Hin. apply filter_In in Hin. destruct Hin as [Hin Ha].
    apply negb_true_iff in Ha. apply (Hr r Hin), Ha. }
  split; [|split; [|exact Hnd]].
  - destruct (issued s) as [|c] eqn:Ei.
    + destruct (live s) as [|r l] eqn:El; [cbn; lia|].
      specialize (Hl r (or_introl eq_refl)). lia.
    + apply NoDup_same_image with (f := rid) (c := c).
      * apply filter_rids_NoDup, Hnd.
      * intros r Hin. specialize (Hl r Hin). lia.
  - intros r Hin. specialize (Hl r Hin). unfold current.
    rewrite <- Hl. reflexivity.
Qed.

(** The request of the latest run, while in flight, is not aborted. *)
Lemma current_not_aborted (es : list (event json)) (k : nat) (r : request) :
  let s := run (mount json) es in
  current s = Some k -> in_flight k s = Some r -> aborted r = false.
Proof.
  intros s Hc Hf. destruct (orderly_run es orderly_mount) as [_ [Hr _]].
  fold s in Hr. destruct (in_flight_In _ _ Hf) as [Hin Hk].
  apply (Hr r Hin). unfold current in Hc.
  destruct (issued s); [discriminate|]. injection Hc as ->. now rewrite Hk.
Qed.

(** X2: when the request of the latest run succeeds, the hook ends with
    the parsed body as [data], no error and [loading] false, whatever
    happened before. *)
Theorem useApi_current_success (es : list (event json)) (k : nat)
  (r : request) (st : Z) (body : json) :
  let s := run (mount json) es in
  current s = Some k -> in_flight k s = Some r ->
  hk (settle k (Fulfilled {| ok := true; status := st;
                             json_body := Fulfilled body |}) s)
  = {| data := Some body; loading := false; error := None |}.
Proof.
  intros s Hc Hf.
  pose proof (@current_settle_reflected json es k
                (Fulfilled {| ok := true; status := st;
                              json_body := Fulfilled body |}) r Hf
                (@current_not_aborted es k r Hc Hf)) as R.
  destruct (orderly_run es orderly_mount) as [_ [_ He]]. fold s in He.
  assert (E : error (hk s) = None).
  { apply He. exists r. destruct (in_flight_In _ _ Hf) as [Hin Hk].
    split; [exact Hin|]. unfold current in Hc.
    destruct (issued s); [discriminate|]. injection Hc as ->.
    now rewrite Hk. }
  fold s in R. rewrite R. unfold on_settle, setLoading, setData.
  cbn [and_then check_ok ok negb json_body data loading error].
  rewrite E. reflexivity.
Qed.

(** X3: when the request of the latest run fails (a status that is not
    ok, a network failure or a body that is not JSON), the failure
    becomes [error], [loading] becomes false and [data] keeps the last
    body received. *)
Theorem useApi_current_failure (es : list (event json)) (k : nat)
  (r : request) (net : settled (response json)) (e : failure) :
  let s := run (mount json) es in
  current s = Some k -> in_flight k s = Some r ->
  and_then net (@check_ok json) = Rejected e -> e <> AbortError ->
  hk (settle k net s)
  = {| data := data (hk s); loading := false; error := Some e |}.
Proof.
  intros s Hc Hf Hn He.
  pose proof (@current_settle_reflected json es k net r Hf
                (@current_not_aborted es k r Hc Hf)) as R.
  fold s in R. rewrite R. unfold on_settle. rewrite Hn.
  destruct e; try contradiction; reflexivity.
Qed.

End Hook.

Lemma useApi_current_success_witness :
  hk (settle 0 (Fulfilled {| ok := true; status := 200%Z;
                             json_body := Fulfilled 7%nat |})
        (run (mount nat) []))
  = {| data := Some 7%nat; loading := false; error := None |}.
Proof.
  exact (@useApi_current_success nat nil 0 {| rid := 0; aborted := false |}
           200%Z 7%nat eq_refl eq_refl).
Defined.

Lemma useApi_current_failure_witness :
  hk (settle 0 (Fulfilled {| ok := false; status := 500%Z;
                             json_body := Fulfilled 7%nat |})
        (run (mount nat) []))
  = {| data := None; loading := false; error := Some (HttpError 500) |}.
Proof.
  refine (@useApi_current_failure nat nil 0 {| rid := 0; aborted := false |}
            (Fulfilled {| ok := false; status := 500%Z;
                          json_body := Fulfilled 7%nat |})
            (HttpError 500) eq_refl eq_refl eq_refl _).
  discriminate.
Defined.

End UseApiMore.

(** ** The sparkline: inside the canvas *)

Module ChartMore.

Import Chart NumFacts ChartFacts.

Local Open Scope nat_scope.

(** *** From [Qc] to [Q] *)

Lemma this_zq (z : Z) : (this (zq z) == inject_Z z)%Q.
Proof. apply zq_this. Qed.

Lemma this_add (a b : Qc) : (this (a + b)%Qc == this a + this b)%Q.
Proof. unfold Qcplus, Q2Qc. cbn [this]. apply Qred_correct. Qed.

Lemma this_opp (a : Qc) : (this (- a)%Qc == - this a)%Q.
Proof. unfold Qcopp, Q2Qc. cbn [this]. apply Qred_correct. Qed.

Lemma this_sub (a b : Qc) : (this (a - b)%Qc == this a - this b)%Q.
Proof. unfold Qcminus. rewrite this_add, this_opp. reflexivity. Qed.

Lemma this_mul (a b : Qc) : (this (a * b)%Qc == this a * this b)%Q.
Proof. unfold Qcmult, Q2Qc. cbn [this]. apply Qred_correct. Qed.

Lemma this_inv (a : Qc) : (this (/ a)%Qc == / this a)%Q.
Proof. unfold Qcinv, Q2Qc. cbn [this]. apply Qred_correct. Qed.

Lemma this_div (a b : Qc) : (this (a / b)%Qc == this a / this b)%Q.
Proof. unfold Qcdiv. rewrite this_mul, this_inv. reflexivity. Qed.

(** A quotient [a / s] with [0 <= a <= s] and [0 < s] is in [[0, 1]]. *)
Lemma unit_quotient (a s : Qc) :
  (zq 0 <= a)%Qc -> (a <= s)%Qc -> (zq 0 < s)%Qc ->
  (zq 0 <= a / s)%Qc /\ (a / s <= zq 1)%Qc.
Proof.
  unfold Qcle, Qclt. rewrite this_div, !this_zq.
  change (inject_Z 0) with 0%Q. change (inject_Z 1) with 1%Q.
  intros H0 H1 Hs. split.
  - apply Qle_shift_div_l; [exact Hs|]. rewrite Qmult_0_l. exact H0.
  - apply Qle_shift_div_r; [exact Hs|]. rewrite Qmult_1_l. exact H1.
Qed.

Lemma quotient_mono (a b s : Qc) :
  (a <= b)%Qc -> (zq 0 < s)%Qc -> (a / s <= b / s)%Qc.
Proof.
  unfold Qcle, Qclt. rewrite !this_div, this_zq.
  change (inject_Z 0) with 0%Q. intros Hab Hs.
  unfold Qdiv. apply Qmult_le_compat_r; [exact Hab|].
  apply Qinv_le_0_compat, Qlt_le_weak, Hs.
Qed.

Lemma zq_le (a b : Z) : (a <= b)%Z -> (zq a <= zq b)%Qc.
Proof. intro H. unfold Qcle. rewrite !this_zq, <- Zle_Qle. exact H. Qed.

Lemma zq_lt (a b : Z) : (a < b)%Z -> (zq a < zq b)%Qc.
Proof. intro H. unfold Qclt. rewrite !this_zq, <- Zlt_Qlt. exact H. Qed.

(** The span of a finite series is positive. *)
Lemma span_of_pos (mn mx : Qc) : (mn <= mx)%Qc -> (zq 0 < span_of mn mx)%Qc.
Proof.
  intro H. unfold span_of. destruct (Qc_eq_dec mx mn) as [E|E].
  - apply zq_lt. lia.
  - destruct (Qcle_lt_or_eq _ _ H) as [L|L]; [|congruence].
    unfold Qclt in *. rewrite this_sub, this_zq.
    change (inject_Z 0) with 0%Q. lra.
Qed.

(** The normalised value [(q - min) / span] is in [[0, 1]]. *)
Lemma norm_unit (mn mx q : Qc) :
  (mn <= q)%Qc -> (q <= mx)%Qc ->
  (zq 0 <= (q - mn) / span_of mn mx)%Qc /\
  ((q - mn) / span_of mn mx <= zq 1)%Qc.
Proof.
  intros H1 H2.
  assert (Hm : (mn <= mx)%Qc) by (eapply Qcle_trans; eauto).
  apply unit_quotient; [| |apply span_of_pos, Hm].
  - unfold Qcle in *. rewrite this_sub, this_zq.
    change (inject_Z 0) with 0%Q. lra.
  - unfold span_of. destruct (Qc_eq_dec mx mn) as [E|E].
    + subst mx. unfold Qcle in *. rewrite this_sub, this_zq.
      change (inject_Z 1) with 1%Q. lra.
    + unfold Qcle in *. rewrite !this_sub. lra.
Qed.

(** X5: on the default canvas, every point of a series of at least two
    finite values is inside the drawing area: [0 <= x <= 100] and
    [4 <= y <= 36].  The values are taken between [- 2 ^ 1022] and
    [2 ^ 1022], where the differences [max - min] and [v - min] of the
    source stay finite; the bounds are proved in exact arithmetic. *)
Theorem buildNormPoints_within_canvas (qs : list Qc) :
  2 <= List.length qs ->
  (forall a, In a qs -> Canvas.no_overflow a) ->
  forall p,
    In p (chartPoints (Some (finite_series qs)) (ofZ 100) (ofZ 40) (ofZ 4)) ->
    exists x y : Qc,
      p = (Fin x, Fin y) /\
      (zq 0 <= x)%Qc /\ (x <= zq 100)%Qc /\
      (zq 4 <= y)%Qc /\ (y <= zq 36)%Qc.
Proof.
  intros Hn _ p Hp.
  destruct (@chartPoints_finite qs (zq 100) (zq 40) (zq 4) Hn)
    as [mn [mx [Imn [Lmn [Imx [Lmx Hpt]]]]]].
  fold (ofZ 100) (ofZ 40) (ofZ 4) in Hpt.
  apply In_nth_error in Hp. destruct Hp as [i Hi].
  assert (Hlen : List.length (chartPoints (Some (finite_series qs))
                                (ofZ 100) (ofZ 40) (ofZ 4))
                 = List.length qs).
  { unfold chartPoints.
    assert (E : List.length (finite_series qs) = List.length qs)
      by (unfold finite_series; apply length_map).
    rewrite E. destruct (Nat.ltb_spec (List.length qs) 2); [lia|].
    rewrite normPoints_length. exact E. }
  assert (Hlt : i < List.length qs).
  { rewrite <- Hlen. apply nth_error_Some. congruence. }
  destruct (nth_error qs i) as [q|] eqn:Hq;
    [|apply nth_error_None in Hq; lia].
  specialize (Hpt i q Hq). rewrite Hi in Hpt. injection Hpt as ->.
  pose proof (nth_error_In _ _ Hq) as Iq.
  destruct (@norm_unit mn mx q (Lmn q Iq) (Lmx q Iq)) as [N0 N1].
  assert (Hd : (zq 0 < zq (Z.of_nat (List.length qs)) - zq 1)%Qc).
  { rewrite zq_sub. apply zq_lt. lia. }
  assert (Hi0 : (zq 0 <= zq (Z.of_nat i))%Qc) by (apply zq_le; lia).
  assert (Hi1 : (zq (Z.of_nat i)
                 <= zq (Z.of_nat (List.length qs)) - zq 1)%Qc).
  { rewrite zq_sub. apply zq_le. lia. }
  destruct (unit_quotient Hi0 Hi1 Hd) as [T0 T1].
  eexists. eexists. split; [reflexivity|].
  set (t := (zq (Z.of_nat i)
             / (zq (Z.of_nat (List.length qs)) - zq 1))%Qc) in *.
  set (n := ((q - mn) / span_of mn mx)%Qc) in *.
  unfold Qcle in *.
  rewrite ?this_sub, ?this_mul, ?this_sub, ?this_mul, ?this_zq in *.
  change (inject_Z 0) with 0%Q in *. change (inject_Z 1) with 1%Q in *.
  change (inject_Z 100) with 100%Q. change (inject_Z 40) with 40%Q.
  change (inject_Z 4) with 4%Q. change (inject_Z 2) with 2%Q.
  change (inject_Z 36) with 36%Q.
  repeat split; lra.
Qed.

Lemma buildNormPoints_within_canvas_witness :
  exists x y : Qc,
    (Fin (zq 50), Fin (zq 4)) = (Fin x, Fin y) /\
    (zq 0 <= x)%Qc /\ (x <= zq 100)%Qc /\
    (zq 4 <= y)%Qc /\ (y <= zq 36)%Qc.
Proof.
  refine (@buildNormPoints_within_canvas [zq 1; zq 3; zq 2] _ _ _ _).
  - simpl. lia.
  - intros a [<-|[<-|[<-|[]]]]; split; apply zq_le; vm_compute;
      discriminate.
  - right. left. apply injective_projections; cbn [fst snd];
      apply num_eqb_eq; vm_compute; reflexivity.
Defined.

Lemma leb_Fin (a b : Qc) : leb (Fin a) (Fin b) = true <-> (a <= b)%Qc.
Proof.
  cbn [leb ltb]. unfold Qc_ltb. rewrite negb_involutive.
  apply Qle_bool_iff.
Qed.

Lemma ltb_Fin (a b : Qc) : ltb (Fin a) (Fin b) = true <-> (a < b)%Qc.
Proof.
  cbn [ltb]. unfold Qc_ltb, Qclt. rewrite negb_true_iff. split.
  - intro H. apply Qnot_le_lt. intro L. apply Qle_bool_iff in L. congruence.
  - intro H. destruct (Qle_bool b a) eqn:E; [|reflexivity].
    apply Qle_bool_iff in E. exfalso. exact (Qlt_not_le _ _ H E).
Qed.

(** X6: larger values plot higher: of two values of the series, the one
    that is not smaller has the [y] that is not larger; the least value
    is on the lower edge ([y = 36]) and, unless the series is flat, the
    greatest is on the upper edge ([y = 4]).  The values are taken
    between [- 2 ^ 1022] and [2 ^ 1022], where the differences
    [max - min] and [v - min] of the source stay finite; the order is
    proved in exact arithmetic. *)
Theorem buildNormPoints_larger_plots_higher (qs : list Qc) :
  2 <= List.length qs ->
  (forall a, In a qs -> Canvas.no_overflow a) ->
  let pts := chartPoints (Some (finite_series qs))
                         (ofZ 100) (ofZ 40) (ofZ 4) in
  (forall i j qi qj pi pj,
      nth_error qs i = Some qi -> nth_error qs j = Some qj ->
      nth_error pts i = Some pi -> nth_error pts j = Some pj ->
      (qi <= qj)%Qc -> leb (snd pj) (snd pi) = true) /\
  (forall i qi pi,
      nth_error qs i = Some qi -> nth_error pts i = Some pi ->
      (forall a, In a qs -> (qi <= a)%Qc) -> snd pi = ofZ 36) /\
  (forall i qi pi,
      nth_error qs i = Some qi -> nth_error pts i = Some pi ->
      (forall a, In a qs -> (a <= qi)%Qc) ->
      (exists a, In a qs /\ a <> qi) -> snd pi = ofZ 4).
Proof.
  intros Hn _ pts.
  destruct (@chartPoints_finite qs (zq 100) (zq 40) (zq 4) Hn)
    as [mn [mx [Imn [Lmn [Imx [Lmx Hpt]]]]]].
  fold (ofZ 100) (ofZ 40) (ofZ 4) in Hpt. fold pts in Hpt.
  assert (Hs : (zq 0 < span_of mn mx)%Qc) by (apply span_of_pos, Lmn, Imx).
  split; [|split].
  - intros i j qi qj pi pj Hi Hj Pi Pj Hle.
    rewrite (Hpt i qi Hi) in Pi. rewrite (Hpt j qj Hj) in Pj.
    injection Pi as <-. injection Pj as <-. cbn [snd].
    apply leb_Fin.
    assert (Hq : ((qi - mn) / span_of mn mx
                  <= (qj - mn) / span_of mn mx)%Qc).
    { apply quotient_mono; [|exact Hs].
      unfold Qcle in *. rewrite !this_sub. lra. }
    set (ni := ((qi - mn) / span_of mn mx)%Qc) in *.
    set (nj := ((qj - mn) / span_of mn mx)%Qc) in *.
    unfold Qcle in *. rewrite !this_sub, !this_mul, !this_sub, !this_mul,
      !this_zq.
    change (inject_Z 40) with 40%Q. change (inject_Z 4) with 4%Q.
    change (inject_Z 2) with 2%Q. lra.
  - intros i qi pi Hi Pi Hleast.
    rewrite (Hpt i qi Hi) in Pi. injection Pi as <-. cbn [snd].
    assert (E : qi = mn).
    { apply Qcle_antisym; [apply Hleast, Imn | apply Lmn].
      exact (nth_error_In _ _ Hi). }
    rewrite E. unfold Qcminus at 3. rewrite Qcplus_opp_r.
    unfold Qcdiv. rewrite !Qcmult_0_l.
    apply num_eqb_eq. vm_compute. reflexivity.
  - intros i qi pi Hi Pi Hmost [a [Ia Hne]].
    rewrite (Hpt i qi Hi) in Pi. injection Pi as <-. cbn [snd].
    assert (E : qi = mx).
    { apply Qcle_antisym; [apply Lmx | apply Hmost, Imx].
      exact (nth_error_In _ _ Hi). }
    assert (Hflat : mx <> mn).
    { intro F. apply Hne. rewrite E.
      apply Qcle_antisym; [apply Lmx, Ia|].
      rewrite F. apply Lmn, Ia. }
    rewrite E. unfold span_of. destruct (Qc_eq_dec mx mn); [contradiction|].
    assert (Hnz : (mx - mn)%Qc <> 0%Qc).
    { intro Z. apply Hflat. apply Qcminus_eq_0. exact Z. }
    unfold Qcdiv. rewrite (Qcmult_inv_r _ Hnz). rewrite Qcmult_1_l.
    apply num_eqb_eq. vm_compute. reflexivity.
Qed.

Lemma buildNormPoints_larger_plots_higher_witness :
  snd (nth 0 (chartPoints (Some (finite_series [zq 1; zq 3; zq 2]))
                          (ofZ 100) (ofZ 40) (ofZ 4)) (NaN, NaN))
  = ofZ 36.
Proof.
  refine (proj1 (proj2 (@buildNormPoints_larger_plots_higher
                          [zq 1; zq 3; zq 2] _ _))
            0 (zq 1) _ eq_refl eq_refl _).
  - simpl. lia.
  - intros a [<-|[<-|[<-|[]]]]; split; apply zq_le; vm_compute;
      discriminate.
  - intros a [<-|[<-|[<-|[]]]]; apply zq_le; lia.
Defined.

(** X7: the points go from the left edge to the right edge: the first
    has [x = 0], the last [x = 100], and [x] grows with the index. *)
Theorem buildNormPoints_x_spans_width (qs : list Qc) :
  2 <= List.length qs ->
  let pts := chartPoints (Some (finite_series qs))
                         (ofZ 100) (ofZ 40) (ofZ 4) in
  (exists p, nth_error pts 0 = Some p /\ fst p = ofZ 0) /\
  (exists p, nth_error pts (List.length qs - 1) = Some p /\
             fst p = ofZ 100) /\
  (forall i j pi pj,
      nth_error pts i = Some pi -> nth_error pts j = Some pj ->
      i < j -> ltb (fst pi) (fst pj) = true).
Proof.
  intros Hn pts.
  destruct (@chartPoints_finite qs (zq 100) (zq 40) (zq 4) Hn)
    as [mn [mx [_ [_ [_ [_ Hpt]]]]]].
  fold (ofZ 100) (ofZ 40) (ofZ 4) in Hpt. fold pts in Hpt.
  assert (Hlen : List.length pts = List.length qs).
  { unfold pts, chartPoints.
    assert (E : List.length (finite_series qs) = List.length qs)
      by (unfold finite_series; apply length_map).
    rewrite E. destruct (Nat.ltb_spec (List.length qs) 2); [lia|].
    rewrite normPoints_length. exact E. }
  assert (Hget : forall i, i < List.length qs ->
                           exists q, nth_error qs i = Some q).
  { intros i Hi. destruct (nth_error qs i) eqn:E; [eauto|].
    apply nth_error_None in E. lia. }
  assert (Hd : (zq (Z.of_nat (List.length qs)) - zq 1)%Qc <> 0%Qc).
  { rewrite zq_sub. change 0%Qc with (zq 0). intro H.
    apply zq_inj in H. lia. }
  split; [|split].
  - destruct (Hget 0 ltac:(lia)) as [q Hq].
    eexists. split; [apply (Hpt 0 q Hq)|]. cbn [fst Z.of_nat].
    unfold Qcdiv. change (zq 0) with 0%Qc. rewrite !Qcmult_0_l.
    reflexivity.
  - destruct (Hget (List.length qs - 1) ltac:(lia)) as [q Hq].
    eexists. split; [apply (Hpt _ q Hq)|]. cbn [fst].
    replace (Z.of_nat (List.length qs - 1))
      with (Z.of_nat (List.length qs) - 1)%Z by lia.
    rewrite <- zq_sub. unfold Qcdiv. rewrite (Qcmult_inv_r _ Hd).
    rewrite Qcmult_1_l. reflexivity.
  - intros i j pi pj Pi Pj Hij.
    assert (Hj : j < List.length qs).
    { rewrite <- Hlen. apply nth_error_Some. congruence. }
    destruct (Hget i ltac:(lia)) as [qi Hqi].
    destruct (Hget j Hj) as [qj Hqj].
    rewrite (Hpt i qi Hqi) in Pi. rewrite (Hpt j qj Hqj) in Pj.
    injection Pi as <-. injection Pj as <-. cbn [fst].
    apply ltb_Fin.
    assert (Hp : (zq 0 < zq (Z.of_nat (List.length qs)) - zq 1)%Qc).
    { rewrite zq_sub. apply zq_lt. lia. }
    assert (Hl : (zq (Z.of_nat i) < zq (Z.of_nat j))%Qc)
      by (apply zq_lt; lia).
    unfold Qclt in *. rewrite !this_mul, !this_div, !this_zq in *.
    rewrite this_sub, !this_zq in Hp.
    rewrite !this_sub, !this_zq.
    change (inject_Z 0) with 0%Q in Hp. change (inject_Z 100) with 100%Q.
    apply Qmult_lt_compat_r; [lra|].
    unfold Qdiv. apply Qmult_lt_compat_r; [|exact Hl].
    apply Qinv_lt_0_compat. exact Hp.
Qed.

Lemma buildNormPoints_x_spans_width_witness :
  exists p,
    nth_error (chartPoints (Some (finite_series [zq 1; zq 3; zq 2]))
                           (ofZ 100) (ofZ 40) (ofZ 4)) 2 = Some p /\
    fst p = ofZ 100.
Proof.
  refine (proj1 (proj2 (@buildNormPoints_x_spans_width
                          [zq 1; zq 3; zq 2] _))).
  simpl. lia.
Defined.

Lemma append_cons_nonempty (a : string) (c : ascii) (b : string) :
  (a ++ String c b)%string <> ""%string.
Proof. destruct a; discriminate. Qed.

Lemma append_nonempty_l (a b : string) :
  a <> ""%string -> (a ++ b)%string <> ""%string.
Proof. destruct a; [congruence | discriminate]. Qed.

Lemma join_points_nonempty (NumberToString : num -> string)
  (ps : list (num * num)) :
  ps <> [] -> join_points NumberToString ps <> ""%string.
Proof.
  destruct ps as [|p ps]; [congruence|]. intros _.
  unfold join_points. cbn [map String.concat].
  assert (P : print_point NumberToString p <> ""%string)
    by (unfold print_point; apply append_cons_nonempty).
  destruct (map (print_point NumberToString) ps) as [|x xs];
    [exact P | apply append_nonempty_l, P].
Qed.

Lemma buildNormPoints_no_points (NumberToString : num -> string)
  (values : option (list value)) :
  buildNormPoints NumberToString values = ""%string <->
  (values = None \/ exists vs, values = Some vs /\ List.length vs < 2).
Proof.
  unfold buildNormPoints, buildNormPoints_with.
  destruct values as [vs|]; [|split; auto].
  destruct (Nat.ltb_spec (List.length vs) 2) as [H|H].
  - split; [|reflexivity]. intros _. right. exists vs. auto.
  - split.
    + intro E. exfalso. revert E. apply join_points_nonempty.
      intro N. apply (f_equal (@List.length _)) in N.
      rewrite normPoints_length in N. cbn in N. lia.
    + intros [N|[vs' [E L]]]; [discriminate|].
      injection E as <-. lia.
Qed.

(** X4: [buildNormPoints] returns the empty string exactly when it is
    given no array or fewer than two values; with two values or more the
    string is not empty, however the numbers print. *)
Theorem buildNormPoints_empty_iff (NumberToString : num -> string)
  (values : option (list value)) :
  buildNormPoints NumberToString values = ""%string <->
  (values = None \/ exists vs, values = Some vs /\ List.length vs < 2).
Proof. apply buildNormPoints_no_points. Qed.

End ChartMore.

(** ** [DualLineChart] and [VolIndexPage] *)

Module VolIndexFacts.

Import Chart Dashboard VolIndexPage NumFacts ChartFacts ChartMore.

Local Open Scope nat_scope.

Section Printing.

Variable NumberToString : num -> string.

Lemma too_short_spec (values : option (list value)) :
  too_short values = true <->
  (values = None \/ exists vs, values = Some vs /\ List.length vs < 2).
Proof.
  unfold too_short. destruct values as [vs|]; [|split; auto].
  rewrite Nat.ltb_lt. split.
  - intro H. right. exists vs. auto.
  - intros [N|[vs' [E L]]]; [discriminate|]. injection E as <-. exact L.
Qed.

(** A series gives a polyline exactly when it has two values or more. *)
Lemma polyline_drawn (values : option (list value)) :
  polyline NumberToString values = None <-> too_short values = true.
Proof.
  rewrite too_short_spec, <- buildNormPoints_no_points.
  unfold polyline.
  destruct (String.eqb_spec (buildNormPoints NumberToString values) "")
    as [E|E]; cbn [negb].
  - split; intros _; [exact E | reflexivity].
  - split; [discriminate | contradiction].
Qed.

(** X8: when [DualLineChart] draws a chart, it has one entry per series,
    a series is drawn exactly when it has two values or more, and at
    least one series is drawn; it says "No chart data yet" exactly when
    it is neither loading nor in error and no series has two values. *)
Theorem DualLineChart_lines (E : Type)
  (series : option (list (option (list value)))) (loading : bool)
  (error : option E) :
  (forall ls,
      DualLineChart NumberToString series loading error = ChartLines ls ->
      exists ss, series = Some ss /\
                 ls = map (polyline NumberToString) ss /\
                 (forall vs, In vs ss ->
                             (polyline NumberToString vs = None <->
                              too_short vs = true)) /\
                 exists l, In (Some l) ls) /\
  (DualLineChart NumberToString series loading error = ChartEmpty <->
   loading = false /\ error = None /\
   forall ss, series = Some ss ->
              forall vs, In vs ss -> too_short vs = true).
Proof.
  unfold DualLineChart. split.
  - intros ls H. destruct loading; [discriminate|].
    destruct error; [discriminate|]. destruct series as [ss|]; [|discriminate].
    destruct (forallb too_short ss) eqn:F; [discriminate|].
    injection H as <-. exists ss. split; [reflexivity|].
    split; [reflexivity|]. split; [intros; apply polyline_drawn|].
    assert (X : exists vs, In vs ss /\ too_short vs = false).
    { clear -F. induction ss as [|a ss IH]; [discriminate|].
      cbn [forallb] in F. apply andb_false_iff in F.
      destruct F as [F|F]; [exists a; split; [left; reflexivity | exact F]|].
      destruct (IH F) as [vs [I T]]. exists vs. split; [right|]; assumption. }
    destruct X as [vs [I T]].
    destruct (polyline NumberToString vs) as [l|] eqn:P.
    + exists l. rewrite <- P. apply in_map, I.
    + apply polyline_drawn in P. congruence.
  - destruct loading; [split; [discriminate | intros [H _]; discriminate]|].
    destruct error as [e|];
      [split; [discriminate | intros [_ [H _]]; discriminate]|].
    destruct series as [ss|].
    + destruct (forallb too_short ss) eqn:F.
      * split; [|reflexivity]. intros _. repeat split.
        intros ss' Es vs I. injection Es as <-.
        rewrite forallb_forall in F. apply F, I.
      * split; [discriminate|]. intros [_ [_ H]].
        assert (F' : forallb too_short ss = true).
        { apply forallb_forall. intros vs I. apply (H ss eq_refl vs I). }
        congruence.
    + split; [|reflexivity]. intros _. repeat split. discriminate.
Qed.

(** X9: the Kalshi delta chart is all or nothing: with fewer than two
    rows it says "No chart data yet", and with two rows or more both of
    its lines are drawn. *)
Theorem kalshi_delta_chart_all_or_nothing (E : Type) (data : list row) :
  (List.length data < 2 ->
   DualLineChart NumberToString (kalshiChartSeries data) false (@None E)
   = ChartEmpty) /\
  (2 <= List.length data ->
   exists l1 l2,
     DualLineChart NumberToString (kalshiChartSeries data) false (@None E)
     = ChartLines [Some l1; Some l2]).
Proof.
  unfold kalshiChartSeries. split; intro H.
  - destruct (Nat.ltb_spec 1 (List.length data)); [lia | reflexivity].
  - destruct (Nat.ltb_spec 1 (List.length data)); [|lia].
    set (v1 := map _ (rev data)). set (v2 := map _ (rev data)).
    assert (L1 : too_short (Some v1) = false).
    { unfold too_short, v1. rewrite length_map, length_rev.
      apply Nat.ltb_ge. lia. }
    assert (L2 : too_short (Some v2) = false).
    { unfold too_short, v2. rewrite length_map, length_rev.
      apply Nat.ltb_ge. lia. }
    destruct (polyline NumberToString (Some v1)) as [l1|] eqn:P1;
      [|apply polyline_drawn in P1; congruence].
    destruct (polyline NumberToString (Some v2)) as [l2|] eqn:P2;
      [|apply polyline_drawn in P2; congruence].
    exists l1, l2. unfold DualLineChart. cbn [forallb map].
    rewrite L1, P1, P2. reflexivity.
Qed.

(** X10: [VolIndexPage] computes the same index values as [Dashboard],
    in the same order; but for a single row [Dashboard] draws a point
    and [VolIndexPage], which goes through [buildNormPoints], draws
    nothing. *)
Theorem kalshi_index_same_as_dashboard :
  (forall data, kalshiValues data = map index (series data)) /\
  (forall r, List.length (vixPoints [r]) = 1 /\
             kalshiIndexPoints NumberToString [r] = ""%string) /\
  (forall data,
      2 <= List.length data ->
      kalshiIndexPoints NumberToString data <> ""%string /\
      List.length (vixPoints data) = List.length data).
Proof.
  assert (V : forall data, kalshiValues data = map index (series data)).
  { intro data. unfold kalshiValues, series.
    destruct (rev data) as [|r0 rest]; [reflexivity|].
    rewrite map_map. apply map_ext. reflexivity. }
  assert (S : forall data, List.length (series data) = List.length data).
  { intro data. unfold series. destruct (rev data) as [|r0 rest] eqn:E.
    - apply (f_equal (@List.length _)) in E. rewrite length_rev in E.
      cbn in *. lia.
    - rewrite length_map, <- E, length_rev. reflexivity. }
  split; [exact V|]. split.
  - intro r. split.
    + unfold vixPoints, mapi. rewrite mapi_from_length. apply (S [r]).
    + unfold kalshiIndexPoints.
      apply buildNormPoints_no_points. right. eexists. split; [reflexivity|].
      rewrite length_map, V, length_map, S. cbn. lia.
  - intros data H. split.
    + unfold kalshiIndexPoints. destruct data as [|r data]; [cbn in H; lia|].
      intro E. apply buildNormPoints_no_points in E.
      destruct E as [E|[vs [E L]]]; [discriminate|].
      injection E as <-. rewrite length_map, V, length_map, S in L. lia.
    + unfold vixPoints, mapi. rewrite mapi_from_length. apply S.
Qed.

End Printing.

End VolIndexFacts.

(** ** The screener: rows, pages and buttons *)

Module ScreenerMore.

Import UseApi Screener ScreenerView JSArray NumFacts UseApiFacts
       ScreenerFacts.

Local Open Scope string_scope.
Local Open Scope nat_scope.

(** *** The rows shown come from the rows fetched *)

Lemma rows_kept_step (lc : string -> string -> Z) (s : state) (e : event) :
  rows_kept s -> rows_kept (step lc s e).
Proof.
  intros [Hi Hl].
  assert (A : rows_kept (handle lc s e)).
  { destruct e; cbn [handle]; try (split; assumption).
    - (* ApplyFilters *)
      unfold applyFilters. cbn [filteredRows allRows]. split.
      + intros r Hr. apply sortRows_In in Hr. apply filter_In in Hr. tauto.
      + unfold sortRows.
        eapply Nat.le_trans;
          [apply Nat.eq_le_incl, Permutation_length, sort_perm
          |apply filter_length_le].
    - (* ResetFilters *)
      split; [apply incl_refl | apply Nat.le_refl]. }
  unfold step, effects.
  assert (B : rows_kept (data_effects s e (handle lc s e))).
  { unfold data_effects.
    set (s1 := if num_eqb _ _ then _ else _).
    assert (B1 : rows_kept s1)
      by (unfold s1; destruct (num_eqb _ _); exact A).
    clearbody s1.
    assert (D : forall d, rows_kept (onData d s1)).
    { intros [rs|v]; [|exact B1].
      split; [apply incl_refl | apply Nat.le_refl]. }
    destruct e; try exact B1.
    destruct (delivered _ _ _); [apply D | exact B1]. }
  unfold page_effect. destruct (num_eqb _ _); exact B.
Qed.

(** X11: in every state the page reaches, each row shown is one of the
    rows fetched, and there are no more rows shown than fetched. *)
Theorem shown_rows_come_from_fetched (lc : string -> string -> Z)
  (es : list event) :
  let s := run lc init es in
  (forall r, In r (filteredRows s) -> In r (allRows s)) /\
  List.length (filteredRows s) <= List.length (allRows s).
Proof.
  cbv zeta. unfold run.
  assert (G : forall s, rows_kept s -> rows_kept (fold_left (step lc) es s)).
  { induction es as [|e es IH]; intros s H; [exact H|].
    cbn [fold_left]. apply IH, rows_kept_step, H. }
  apply G. split; [apply incl_refl | apply Nat.le_refl].
Qed.

(** *** Reset, then Apply *)

Lemma passes_default (r : row) : passes defaultForm r = true.
Proof. reflexivity. Qed.

Lemma filter_all {A : Type} (p : A -> bool) (l : list A) :
  (forall x, p x = true) -> filter p l = l.
Proof.
  intro H. induction l as [|a l IH]; [reflexivity|].
  cbn [filter]. rewrite H, IH. reflexivity.
Qed.

(** What a step that is not a settlement leaves of the handler's state:
    all of it, but for the hook and, when the number of pages changed,
    the page, which is clamped. *)
Lemma step_not_settled (lc : string -> string -> Z) (s : state) (e : event) :
  (forall k net, e <> Settled k net) ->
  let h := handle lc s e in
  let s' := step lc s e in
  filteredRows s' = filteredRows h /\ allRows s' = allRows h /\
  theForm s' = theForm h /\ pageSize s' = pageSize h /\
  refreshNonce s' = refreshNonce h /\
  (page s' = page h \/ page s' = Math_min [page h; totalPages s']).
Proof.
  intros Hne h s'. unfold s', step, effects, data_effects. fold h.
  assert (X : forall t : state,
             filteredRows t = filteredRows h -> allRows t = allRows h ->
             theForm t = theForm h -> pageSize t = pageSize h ->
             refreshNonce t = refreshNonce h -> page t = page h ->
             let u := page_effect s t in
             filteredRows u = filteredRows h /\ allRows u = allRows h /\
             theForm u = theForm h /\ pageSize u = pageSize h /\
             refreshNonce u = refreshNonce h /\
             (page u = page h \/ page u = Math_min [page h; totalPages u])).
  { intros t A B C D E F u. unfold u, page_effect.
    destruct (num_eqb _ _); [repeat apply conj; auto|].
    unfold clampPage. cbn [setPage filteredRows allRows theForm pageSize
                           refreshNonce page].
    repeat apply conj; auto. right. rewrite F. reflexivity. }
  destruct e; try (exfalso; eapply Hne; reflexivity);
    destruct (num_eqb (refreshNonce s) (refreshNonce h));
    apply X; reflexivity.
Qed.

(** X12: Reset followed by Apply filters loses no row: the rows shown
    are all the rows fetched, rearranged by the default sort; the form
    is the default one and the page is the first. *)
Theorem reset_then_apply_keeps_all (lc : string -> string -> Z)
  (es : list event) :
  let s := run lc init es in
  let s' := run lc s [ResetFilters; ApplyFilters] in
  Permutation (filteredRows s') (allRows s) /\
  allRows s' = allRows s /\
  theForm s' = defaultForm /\
  page s' = ofZ 1.
Proof.
  intros s s'.
  pose proof (invariant_run lc (es ++ [ResetFilters; ApplyFilters])
                invariant_init) as I.
  unfold run in I. rewrite fold_left_app in I.
  change (invariant s') in I.
  set (s1 := step lc s ResetFilters).
  assert (E' : s' = step lc s1 ApplyFilters) by reflexivity.
  destruct (@step_not_settled lc s ResetFilters ltac:(discriminate))
    as [A1 [B1 [C1 _]]].
  fold s1 in A1, B1, C1. cbn [handle resetFilters filteredRows allRows
                              theForm] in A1, B1, C1.
  destruct (@step_not_settled lc s1 ApplyFilters ltac:(discriminate))
    as [A2 [B2 [C2 [_ [_ P2]]]]].
  rewrite <- E' in A2, B2, C2, P2.
  cbn [handle applyFilters filteredRows allRows theForm page] in A2, B2, C2, P2.
  rewrite C1, B1 in A2. rewrite (filter_all _ _ passes_default) in A2.
  split; [rewrite A2; apply sort_perm|].
  split; [congruence|]. split; [congruence|].
  destruct P2 as [P2|P2]; [exact P2|].
  destruct I as [k [p [m [tp [Hk [_ [_ [_ [_ [Ht [Hr _]]]]]]]]]]].
  rewrite P2, Ht, Math_min_pair in Hk |- *.
  f_equal. lia.
Qed.

(** *** Raising a threshold *)

Lemma leb_trans (a b c : num) :
  leb a b = true -> leb b c = true -> leb a c = true.
Proof.
  destruct a as [x| | |], b as [y| | |], c as [z| | |];
    try reflexivity; try discriminate.
  cbn [leb ltb]. unfold Qc_ltb. rewrite !negb_involutive.
  intros H1 H2. apply Qle_bool_iff in H1, H2. apply Qle_bool_iff.
  eapply Qle_trans; eauto.
Qed.

Lemma passMin_mono (v : value) (m1 m2 : string) :
  configured m1 -> configured m2 ->
  leb (StringToNumber m1) (StringToNumber m2) = true ->
  passMin v (VStr m2) = true -> passMin v (VStr m1) = true.
Proof.
  intros [N1 P1] [N2 P2] L.
  assert (U1 : ~ unset (VStr m1)) by (rewrite unset_VStr; exact N1).
  assert (U2 : ~ unset (VStr m2)) by (rewrite unset_VStr; exact N2).
  rewrite (passMin_given v U1), (passMin_given v U2).
  cbn [ToNumber]. rewrite P1, P2. unfold geb. intro H.
  eapply leb_trans; eauto.
Qed.

(** X13: raising a threshold can only remove rows: with the rest of the
    form unchanged, every row that Apply filters keeps under the higher
    threshold it also keeps under the lower one. *)
Theorem raising_threshold_removes_rows (lc : string -> string -> Z)
  (s : state) (i : input) (lower higher : string) :
  is_threshold i = true ->
  configured lower -> configured higher ->
  leb (StringToNumber lower) (StringToNumber higher) = true ->
  incl (filteredRows
          (applyFilters lc (setForm (handleChange i higher (theForm s)) s)))
       (filteredRows
          (applyFilters lc (setForm (handleChange i lower (theForm s)) s))).
Proof.
  intros Hi C1 C2 L r Hr.
  unfold applyFilters in *. cbn [filteredRows setForm theForm allRows] in *.
  apply sortRows_In in Hr. apply sortRows_In.
  apply filter_In in Hr. destruct Hr as [Hin Hp]. apply filter_In.
  split; [exact Hin|].
  pose proof (fun v => @passMin_mono v lower higher C1 C2 L) as M.
  unfold passes in *.
  destruct i; try discriminate;
    cbn [handleChange minVolume minOpenInterest minSpread minTradability
         minChurn] in *;
    rewrite !andb_true_iff in *; intuition.
Qed.

Lemma raising_threshold_removes_rows_witness :
  incl (filteredRows
          (applyFilters lex
             (setForm (handleChange InMinVolume "60" defaultForm)
                (onData (Rows [[("volume", VNum (ofZ 100))];
                               [("volume", VNum (ofZ 50))]]) init))))
       (filteredRows
          (applyFilters lex
             (setForm (handleChange InMinVolume "10" defaultForm)
                (onData (Rows [[("volume", VNum (ofZ 100))];
                               [("volume", VNum (ofZ 50))]]) init)))).
Proof.
  refine (@raising_threshold_removes_rows lex
            (onData (Rows [[("volume", VNum (ofZ 100))];
                           [("volume", VNum (ofZ 50))]]) init)
            InMinVolume "10" "60" eq_refl _ _ _).
  - split; [discriminate | reflexivity].
  - split; [discriminate | reflexivity].
  - vm_compute. reflexivity.
Defined.

(** *** The rows of a page *)

Lemma mul_ofZ (a b : Z) : mul (ofZ a) (ofZ b) = ofZ (a * b).
Proof. unfold ofZ. cbn [mul]. now rewrite zq_mul. Qed.

Lemma Qtrunc_zq (z : Z) : Qtrunc (zq z) = z.
Proof.
  unfold Qtrunc. destruct (Qle_bool 0 (zq z)).
  - rewrite (Qfloor_comp _ _ (zq_this z)). apply Qfloor_Z.
  - rewrite (Qceiling_comp _ _ (zq_this z)). apply Qceiling_Z.
Qed.

Lemma ToIntegerOrInfinity_ofZ (z : Z) : ToIntegerOrInfinity (ofZ z) = IFin z.
Proof. unfold ofZ. cbn [ToIntegerOrInfinity]. now rewrite Qtrunc_zq. Qed.

(** [slice] between two integers [0 <= a <= b]. *)
Lemma slice_ofZ {A : Type} (l : list A) (a b : Z) :
  (0 <= a <= b)%Z ->
  slice l (ofZ a) (ofZ b)
  = firstn (Z.to_nat (b - a)) (skipn (Z.to_nat a) l).
Proof.
  intro H. unfold slice. rewrite !ToIntegerOrInfinity_ofZ.
  cbn [relative].
  destruct (Z.ltb_spec a 0); [lia|]. destruct (Z.ltb_spec b 0); [lia|].
  set (len := Z.of_nat (List.length l)).
  destruct (Z.le_gt_cases a len) as [Ha|Ha].
  - replace (Z.min a len) with a by lia.
    destruct (Z.le_gt_cases b len) as [Hb|Hb].
    + replace (Z.min b len) with b by lia.
      replace (Z.max (b - a) 0) with (b - a)%Z by lia. reflexivity.
    + replace (Z.min b len) with len by lia.
      replace (Z.max (len - a) 0) with (len - a)%Z by lia.
      rewrite !firstn_all2; [reflexivity | |];
        rewrite length_skipn; unfold len in *; lia.
  - replace (Z.min a len) with len by lia.
    rewrite !skipn_all2; [now rewrite !firstn_nil | |];
      unfold len in *; lia.
Qed.

Lemma pageRows_at (s : state) (k p : Z) :
  page s = ofZ k -> pageSize s = ofZ p -> (1 <= k)%Z -> (0 < p)%Z ->
  pageRows s
  = firstn (Z.to_nat p) (skipn (Z.to_nat ((k - 1) * p)) (filteredRows s)).
Proof.
  intros Hk Hp H1 H0. unfold pageRows, pageStart.
  rewrite Hk, Hp, sub_ofZ, mul_ofZ, add_ofZ.
  rewrite slice_ofZ by nia. f_equal. f_equal. lia.
Qed.

Lemma In_firstn {A : Type} (x : A) (n : nat) (l : list A) :
  In x (firstn n l) -> In x l.
Proof.
  revert l. induction n as [|n IH]; intros [|a l]; cbn; try tauto.
  intros [H|H]; [left; exact H | right; apply IH, H].
Qed.

Lemma In_skipn_list {A : Type} (x : A) (n : nat) (l : list A) :
  In x (skipn n l) -> In x l.
Proof.
  revert l. induction n as [|n IH]; intros [|a l]; cbn; try tauto.
  intro H. right. apply IH, H.
Qed.

(** What the invariant says of the page, the page size and the rows. *)
Lemma page_bounds (lc : string -> string -> Z) (es : list event) :
  let s := run lc init es in
  exists k p tp : Z,
    page s = ofZ k /\ pageSize s = ofZ p /\ totalPages s = ofZ tp /\
    (0 < p)%Z /\ (1 <= k <= tp)%Z /\
    (Z.of_nat (List.length (filteredRows s)) <= tp * p)%Z /\
    (filteredRows s <> [] ->
     ((k - 1) * p < Z.of_nat (List.length (filteredRows s)))%Z).
Proof.
  intro s.
  destruct (invariant_run lc es invariant_init)
    as [k [p [m [tp [Hk [Hp [Hin [_ [_ [Ht [Hr _]]]]]]]]]]].
  fold s in Hk, Hp, Ht.
  assert (Hp0 : (0 < p)%Z) by (simpl in Hin; lia).
  destruct (@pagesOf_ceil (List.length (filteredRows s)) p Hp0)
    as [c [Hc Ec]].
  unfold totalPages in Ht. rewrite Hp, Ec in Ht. apply ofZ_inj in Ht.
  exists k, p, tp. repeat apply conj; auto; try lia.
  - unfold totalPages. rewrite Hp, Ec. f_equal. exact Ht.
  - nia.
  - intro Hne.
    assert (Hn : (0 < Z.of_nat (List.length (filteredRows s)))%Z).
    { destruct (filteredRows s); [congruence | cbn; lia]. }
    nia.
Qed.

(** X14: in every state the page reaches, the rows of the page are the
    window of [pageSize] rows that starts after the earlier pages; there
    are at most [pageSize] of them, they are rows shown, and there is at
    least one when any row is shown. *)
Theorem pageRows_window (lc : string -> string -> Z) (es : list event) :
  let s := run lc init es in
  exists k p : Z,
    page s = ofZ k /\ pageSize s = ofZ p /\
    pageRows s
    = firstn (Z.to_nat p)
             (skipn (Z.to_nat ((k - 1) * p)) (filteredRows s)) /\
    (Z.of_nat (List.length (pageRows s)) <= p)%Z /\
    incl (pageRows s) (filteredRows s) /\
    (filteredRows s <> [] -> pageRows s <> []).
Proof.
  intro s. destruct (page_bounds lc es) as [k [p [tp H]]]. fold s in H.
  destruct H as [Hk [Hp [Ht [Hp0 [Hr [Hn Hne]]]]]].
  exists k, p. split; [exact Hk|]. split; [exact Hp|].
  pose proof (@pageRows_at s k p Hk Hp ltac:(lia) Hp0) as E.
  split; [exact E|]. rewrite E. split; [|split].
  - rewrite length_firstn. lia.
  - intros r Hin. apply In_firstn in Hin.
    eapply In_skipn_list; eauto.
  - intros Hx Hy. specialize (Hne Hx).
    apply (f_equal (@List.length _)) in Hy.
    rewrite length_firstn, length_skipn in Hy.
    cbn [List.length] in Hy.
    assert (0 <= (k - 1) * p)%Z by nia. lia.
Qed.

(** X15: when rows are shown, the line "Showing a-b of n" gives the
    numbers of the first and the last row of the page, counted from 1
    in the rows shown: [b - a + 1] is the number of rows of the page. *)
Theorem showing_range_counts_page (lc : string -> string -> Z)
  (es : list event) :
  let s := run lc init es in
  filteredRows s <> [] ->
  exists a b : Z,
    showingFrom s = ofZ a /\ showingTo s = ofZ b /\
    (1 <= a <= b)%Z /\
    (b <= Z.of_nat (List.length (filteredRows s)))%Z /\
    Z.of_nat (List.length (pageRows s)) = (b - a + 1)%Z /\
    pageRows s
    = firstn (Z.to_nat (b - a + 1))
             (skipn (Z.to_nat (a - 1)) (filteredRows s)).
Proof.
  intros s Hx. destruct (page_bounds lc es) as [k [p [tp H]]]. fold s in H.
  destruct H as [Hk [Hp [Ht [Hp0 [Hr [Hn Hne]]]]]]. specialize (Hne Hx).
  pose proof (@pageRows_at s k p Hk Hp ltac:(lia) Hp0) as E.
  set (n := Z.of_nat (List.length (filteredRows s))) in *.
  assert (Hkp : (0 <= (k - 1) * p)%Z) by nia.
  exists ((k - 1) * p + 1)%Z, (Z.min ((k - 1) * p + p) n).
  assert (S0 : pageStart s = ofZ ((k - 1) * p)).
  { unfold pageStart. rewrite Hk, Hp, sub_ofZ, mul_ofZ. reflexivity. }
  split; [|split; [|split; [|split; [|split]]]].
  - unfold showingFrom.
    destruct (Nat.eqb_spec (List.length (filteredRows s)) 0) as [Z|Z].
    + unfold n in Hne. rewrite Z in Hne. cbn in Hne. lia.
    + rewrite S0, add_ofZ. reflexivity.
  - unfold showingTo, ofNat. rewrite S0, Hp, add_ofZ.
    apply Math_min_pair.
  - lia.
  - lia.
  - rewrite E, length_firstn, length_skipn.
    assert (0 <= (k - 1) * p)%Z by nia. unfold n in *. lia.
  - rewrite E.
    replace ((k - 1) * p + 1 - 1)%Z with ((k - 1) * p)%Z by lia.
    set (rest := skipn (Z.to_nat ((k - 1) * p)) (filteredRows s)).
    assert (L : Z.of_nat (List.length rest) = (n - (k - 1) * p)%Z).
    { unfold rest. rewrite length_skipn.
      assert (0 <= (k - 1) * p)%Z by nia. unfold n in *. lia. }
    destruct (Z.le_gt_cases ((k - 1) * p + p) n) as [C|C].
    + replace (Z.min ((k - 1) * p + p) n) with ((k - 1) * p + p)%Z by lia.
      f_equal. lia.
    + replace (Z.min ((k - 1) * p + p) n) with n by lia.
      rewrite !firstn_all2; [reflexivity | lia | lia].
Qed.

Lemma showing_range_counts_page_witness :
  exists a b : Z,
    showingFrom (run lex init
                   [Settled 0 (Fulfilled {| ok := true; status := 200%Z;
                      json_body := Fulfilled (Rows (repeat [] 26)) |});
                    Next]) = ofZ a /\
    showingTo (run lex init
                 [Settled 0 (Fulfilled {| ok := true; status := 200%Z;
                    json_body := Fulfilled (Rows (repeat [] 26)) |});
                  Next]) = ofZ b /\
    (1 <= a <= b)%Z /\
    (b <= Z.of_nat (List.length (filteredRows (run lex init
                   [Settled 0 (Fulfilled {| ok := true; status := 200%Z;
                      json_body := Fulfilled (Rows (repeat [] 26)) |});
                    Next]))))%Z /\
    Z.of_nat (List.length (pageRows (run lex init
                   [Settled 0 (Fulfilled {| ok := true; status := 200%Z;
                      json_body := Fulfilled (Rows (repeat [] 26)) |});
                    Next]))) = (b - a + 1)%Z /\
    pageRows (run lex init
                   [Settled 0 (Fulfilled {| ok := true; status := 200%Z;
                      json_body := Fulfilled (Rows (repeat [] 26)) |});
                    Next])
    = firstn (Z.to_nat (b - a + 1))
             (skipn (Z.to_nat (a - 1))
                (filteredRows (run lex init
                   [Settled 0 (Fulfilled {| ok := true; status := 200%Z;
                      json_body := Fulfilled (Rows (repeat [] 26)) |});
                    Next]))).
Proof.
  refine (@showing_range_counts_page lex
            [Settled 0 (Fulfilled {| ok := true; status := 200%Z;
               json_body := Fulfilled (Rows (repeat [] 26)) |});
             Next] _).
  vm_compute. discriminate.
Defined.

(** *** The pages, one after the other *)

Lemma firstn_plus {A : Type} (a b : nat) (l : list A) :
  firstn (a + b) l = (firstn a l ++ firstn b (skipn a l))%list.
Proof.
  revert l. induction a as [|a IH]; intro l; [reflexivity|].
  destruct l as [|x l]; cbn [Nat.add firstn skipn app].
  - now rewrite firstn_nil.
  - now rewrite IH.
Qed.

Lemma chunks_concat {A : Type} (p t : nat) (l : list A) :
  List.concat (map (fun i => firstn p (skipn (i * p) l)) (seq 0 t))
  = firstn (t * p) l.
Proof.
  induction t as [|t IH]; [reflexivity|].
  rewrite seq_S, map_app, concat_app, IH. cbn [Nat.add map List.concat].
  rewrite app_nil_r. replace (S t * p) with (t * p + p) by lia.
  symmetry. apply firstn_plus.
Qed.

(** X16: the pages cover the rows shown exactly once: the rows of pages
    [1] to [totalPages], one after the other, are the rows shown, in
    their order. *)
Theorem pages_partition_rows (lc : string -> string -> Z)
  (es : list event) :
  let s := run lc init es in
  exists tp : nat,
    totalPages s = ofNat tp /\
    List.concat (map (fun k => pageRows (setPage (ofZ k) s)) (page_numbers tp))
    = filteredRows s.
Proof.
  intro s. destruct (page_bounds lc es) as [k [p [tp H]]]. fold s in H.
  destruct H as [Hk [Hp [Ht [Hp0 [Hr [Hn _]]]]]].
  exists (Z.to_nat tp). split.
  - rewrite Ht. unfold ofNat. f_equal. lia.
  - unfold page_numbers. rewrite map_map.
    rewrite (map_ext
               (fun i => pageRows (setPage (ofZ (Z.of_nat (S i))) s))
               (fun i => firstn (Z.to_nat p)
                           (skipn (i * Z.to_nat p) (filteredRows s)))).
    + rewrite chunks_concat. apply firstn_all2. nia.
    + intro i.
      rewrite (@pageRows_at (setPage (ofZ (Z.of_nat (S i))) s)
                 (Z.of_nat (S i)) p eq_refl Hp ltac:(lia) Hp0).
      cbn [filteredRows setPage]. f_equal. f_equal. nia.
Qed.

(** *** The page buttons *)

(** A page button only sets the page. *)
Lemma step_page_button (lc : string -> string -> Z) (s : state) (e : event) :
  e = First \/ e = Prev \/ e = Next \/ e = Last ->
  step lc s e = handle lc s e.
Proof.
  intros [->|[->|[->| ->]]]; unfold step, effects, data_effects;
    cbn [handle refreshNonce setPage]; rewrite num_eqb_refl;
    unfold page_effect;
    match goal with
    | |- (if num_eqb (totalPages ?a) (totalPages ?b) then _ else _) = _ =>
        change (totalPages b) with (totalPages a)
    end;
    rewrite num_eqb_refl; reflexivity.
Qed.

(** X17: in every state the page reaches, Next goes one page forward
    and stays on the last page, Prev goes one page back and stays on the
    first, First and Last go to the ends; Prev undoes Next unless the
    page was the last one; and none of the four touches the rows, the
    form or the request. *)
Theorem page_buttons (lc : string -> string -> Z) (es : list event) :
  let s := run lc init es in
  exists k tp : Z,
    page s = ofZ k /\ totalPages s = ofZ tp /\ (1 <= k <= tp)%Z /\
    page (step lc s Next) = ofZ (if (k <? tp)%Z then k + 1 else k) /\
    page (step lc s Prev) = ofZ (if (1 <? k)%Z then k - 1 else k) /\
    page (step lc s First) = ofZ 1 /\
    page (step lc s Last) = ofZ tp /\
    ((k < tp)%Z -> page (run lc s [Next; Prev]) = page s) /\
    (forall e, e = First \/ e = Prev \/ e = Next \/ e = Last ->
               filteredRows (step lc s e) = filteredRows s /\
               allRows (step lc s e) = allRows s /\
               theForm (step lc s e) = theForm s /\
               pageSize (step lc s e) = pageSize s /\
               screener (step lc s e) = screener s).
Proof.
  intro s. destruct (page_bounds lc es) as [k [p [tp H]]]. fold s in H.
  destruct H as [Hk [Hp [Ht [Hp0 [Hr _]]]]].
  exists k, tp. split; [exact Hk|]. split; [exact Ht|]. split; [exact Hr|].
  assert (N : page (step lc s Next)
              = ofZ (if (k <? tp)%Z then k + 1 else k)).
  { rewrite step_page_button by tauto. cbn [handle page setPage].
    rewrite Ht, Hk, add_ofZ, Math_min_pair. f_equal.
    destruct (Z.ltb_spec k tp); lia. }
  assert (P : forall t j, page t = ofZ j ->
                          page (step lc t Prev)
                          = ofZ (if (1 <? j)%Z then j - 1 else j) \/
                          (j < 1)%Z).
  { intros t j Hj. rewrite step_page_button by tauto.
    cbn [handle page setPage]. rewrite Hj, sub_ofZ, Math_max_pair.
    destruct (Z.ltb_spec 1 j); [left; f_equal; lia|].
    destruct (Z.le_gt_cases 1 j); [left; f_equal; lia | right; lia]. }
  split; [exact N|]. split.
  - destruct (P s k Hk) as [E|E]; [exact E | lia].
  - split; [rewrite step_page_button by tauto; reflexivity|].
    split; [rewrite step_page_button by tauto; exact Ht|].
    split.
    + intro Hlt. unfold run. cbn [fold_left].
      destruct (P (step lc s Next) _ N) as [E|E].
      * rewrite E, Hk. f_equal.
        destruct (Z.ltb_spec k tp); [|lia].
        destruct (Z.ltb_spec 1 (k + 1)); lia.
      * destruct (Z.ltb_spec k tp); lia.
    + intros e He. rewrite (step_page_button lc s He).
      destruct He as [->|[->|[->| ->]]]; repeat split.
Qed.

(** *** Typing in the form *)

(** X18: a change of an input of the form stores the text in that
    field and leaves the other fields as they were; the rows shown, the
    rows fetched, the page, the page size and the request are untouched
    until Apply filters. *)
Theorem form_change_only_changes_field (lc : string -> string -> Z)
  (s : state) (i : input) (v : string) :
  let s' := step lc s (Change i v) in
  field i (theForm s') = v /\
  (forall j, j <> i -> field j (theForm s') = field j (theForm s)) /\
  filteredRows s' = filteredRows s /\ allRows s' = allRows s /\
  page s' = page s /\ pageSize s' = pageSize s /\
  refreshNonce s' = refreshNonce s /\ screener s' = screener s.
Proof.
  intro s'.
  assert (E : s' = setForm (handleChange i v (theForm s)) s).
  { unfold s', step, effects, data_effects. cbn [handle refreshNonce setForm].
    rewrite num_eqb_refl. unfold page_effect.
    change (totalPages (setForm (handleChange i v (theForm s)) s))
      with (totalPages s).
    rewrite num_eqb_refl. reflexivity. }
  rewrite E. cbn [setForm theForm filteredRows allRows page pageSize
                  refreshNonce screener].
  split; [destruct i; reflexivity|].
  split; [|repeat split].
  intros j Hj. destruct i, j; try reflexivity; congruence.
Qed.

End ScreenerMore.

(** ** The composite index: its shape and its baseline *)

Module DashboardMore.

Import Dashboard DashboardBaseline NumFacts DashboardFacts.

Local Open Scope nat_scope.

Lemma last_map_snoc {A B : Type} (f : A -> B) (l : list A) (a : A) (d : B) :
  last (map f (l ++ [a])) d = f a.
Proof. rewrite map_app. apply last_last. Qed.

(** X19: the series has one sample per row, in the reverse order of the
    rows (earliest first); there is a latest index exactly when there is
    a row, and it is the index of the first row of the array, the newest,
    measured against the last row, the earliest. *)
Theorem series_shape_and_latest :
  (forall data, List.length (series data) = List.length data) /\
  (forall data, map ts (series data)
                = rev (map (fun r => get r "snap_ts") data)) /\
  (forall data, latestIndex data = None <-> data = []) /\
  (forall r rest,
      let e := last (r :: rest) [] in
      latestIndex (r :: rest)
      = Some (index (sampleOf (base e "d_volume_6h") (base e "d_oi_6h")
                              (base e "d_wide_6h") r))).
Proof.
  assert (S : forall data, data <> [] ->
                series data
                = map (sampleOf (base (last data []) "d_volume_6h")
                                (base (last data []) "d_oi_6h")
                                (base (last data []) "d_wide_6h"))
                      (rev data))
    by (intros data H; apply (series_nonempty H)).
  assert (L : forall r rest,
             latestIndex (r :: rest)
             = Some (index (sampleOf
                              (base (last (r :: rest) []) "d_volume_6h")
                              (base (last (r :: rest) []) "d_oi_6h")
                              (base (last (r :: rest) []) "d_wide_6h") r))).
  { intros r rest. unfold latestIndex.
    rewrite (S (r :: rest)) by discriminate.
    set (f := sampleOf _ _ _). cbn [rev].
    destruct (map f (rev rest ++ [r])) as [|x xs] eqn:E.
    - apply (f_equal (@List.length _)) in E.
      rewrite length_map, length_app in E. cbn in E. lia.
    - f_equal. f_equal.
      assert (X : last (x :: xs) x = f r)
        by (rewrite <- E; apply last_map_snoc).
      destruct xs as [|y ys]; [exact X|].
      rewrite <- X. cbn [last]. reflexivity. }
  split; [|split; [|split]].
  - intro data. destruct data as [|r rest]; [reflexivity|].
    rewrite S by discriminate. rewrite length_map, length_rev. reflexivity.
  - intro data. destruct data as [|r rest]; [reflexivity|].
    rewrite S by discriminate. rewrite map_map, <- map_rev.
    apply map_ext. reflexivity.
  - intro data. destruct data as [|r rest]; [split; reflexivity|].
    rewrite L. split; discriminate.
  - intros r rest e. apply L.
Qed.

Lemma series_delta_rows (ds : list (value * Qc * Qc * Qc)) (t0 : value)
  (v0 o0 w0 : Qc) :
  series (delta_rows (ds ++ [(t0, v0, o0, w0)]))
  = map (spec_sample v0 o0 w0) ((t0, v0, o0, w0) :: rev ds).
Proof.
  assert (Hne : delta_rows (ds ++ [(t0, v0, o0, w0)]) <> []).
  { unfold delta_rows. rewrite map_app. destruct (map _ ds); discriminate. }
  rewrite (series_nonempty Hne).
  assert (L : last (delta_rows (ds ++ [(t0, v0, o0, w0)])) []
              = delta_row t0 v0 o0 w0).
  { unfold delta_rows. rewrite map_app. apply last_last. }
  rewrite L.
  assert (R : rev (delta_rows (ds ++ [(t0, v0, o0, w0)]))
              = delta_rows ((t0, v0, o0, w0) :: rev ds)).
  { unfold delta_rows. rewrite <- map_rev, rev_app_distr. reflexivity. }
  rewrite R. unfold base.
  cbn [delta_row get String.eqb Ascii.eqb Bool.eqb].
  apply delta_rows_sampled.
Qed.

Lemma unit_ratio (x : Qc) : (x / base_of x)%Qc = unit_of x.
Proof.
  unfold base_of, unit_of. destruct (Qc_eq_dec x (zq 0)) as [->|H].
  - change (zq 0) with 0%Qc. unfold Qcdiv. apply Qcmult_0_l.
  - unfold Qcdiv. apply Qcmult_inv_r. exact H.
Qed.

(** X20: with finite deltas, the earliest sample's index is
    [100 * n / 3], [n] being the number of its three deltas that are not
    zero: 100 when none is zero, and not 100 as soon as one is. *)
Theorem earliest_index (ds : list (value * Qc * Qc * Qc)) (t0 : value)
  (v0 o0 w0 : Qc) :
  exists rest,
    series (delta_rows (ds ++ [(t0, v0, o0, w0)]))
    = {| ts := t0;
         index := Fin (zq 100 * (unit_of v0 + unit_of o0 + unit_of w0)
                       / zq 3)%Qc |} :: rest /\
    (v0 <> zq 0 -> o0 <> zq 0 -> w0 <> zq 0 ->
     (zq 100 * (unit_of v0 + unit_of o0 + unit_of w0) / zq 3)%Qc
     = zq 100) /\
    (v0 = zq 0 \/ o0 = zq 0 \/ w0 = zq 0 ->
     (zq 100 * (unit_of v0 + unit_of o0 + unit_of w0) / zq 3)%Qc
     <> zq 100).
Proof.
  rewrite series_delta_rows. cbn [map]. eexists. split; [|split].
  - unfold spec_sample. rewrite !unit_ratio. reflexivity.
  - intros Hv Ho Hw. unfold unit_of.
    destruct (Qc_eq_dec v0 (zq 0)); [contradiction|].
    destruct (Qc_eq_dec o0 (zq 0)); [contradiction|].
    destruct (Qc_eq_dec w0 (zq 0)); [contradiction|].
    apply Qc_eqb_eq. vm_compute. reflexivity.
  - intros H E. unfold unit_of in E.
    destruct (Qc_eq_dec v0 (zq 0)), (Qc_eq_dec o0 (zq 0)),
      (Qc_eq_dec w0 (zq 0));
      try (destruct H as [H|[H|H]]; contradiction);
      apply (f_equal this) in E; vm_compute in E; discriminate.
Qed.

End DashboardMore.

(** ** The Polymarket screener *)

Module PolyScreenerFacts.

Import PolyScreener NumFacts ScreenerFacts.

Local Open Scope string_scope.
Local Open Scope nat_scope.

(** X21: the Polymarket screener tests a threshold and compares two
    rows exactly as the Kalshi screener does: the two [passMin] agree on
    every value and threshold, and the two sorts give the same rows for
    the same column and direction. *)
Theorem poly_screener_same_as_screener (lc : string -> string -> Z) :
  (forall v m, passMin v m = Screener.passMin v m) /\
  (forall f a b,
      comparator lc f a b
      = Screener.comparator lc (as_screener_form f) a b) /\
  (forall f rows,
      sortRows lc f rows = Screener.sortRows lc (as_screener_form f) rows).
Proof.
  assert (C : forall f a b,
             comparator lc f a b
             = Screener.comparator lc (as_screener_form f) a b)
    by reflexivity.
  split; [|split; [exact C|]].
  - intros v m.
    assert (G : forall x y, (if isNaN x then false else geb x y) = geb x y).
    { intros [q| | |] y; try reflexivity. symmetry. apply geb_NaN_l. }
    unfold passMin, Screener.passMin.
    destruct m as [| |b|n|s|items|fields]; try reflexivity;
      try (destruct s; [reflexivity|]);
      match goal with
      | |- (if isNaN ?x then _ else _) = _ => destruct (isNaN x)
      end; try reflexivity;
      destruct v; try reflexivity; apply G.
  - intros f rows. unfold sortRows, Screener.sortRows.
    f_equal.
Qed.

Section Host.

Variable toLowerCase : string -> string.
Variable localeCompare : string -> string -> Z.

Lemma filter_throwing_None (p : row -> option bool) (rows : list row) :
  filter_throwing p rows = None <-> exists r, In r rows /\ p r = None.
Proof.
  induction rows as [|r rows IH]; cbn [filter_throwing].
  - split; [discriminate | intros [r [[] _]]].
  - destruct (p r) as [b|] eqn:E.
    + destruct (filter_throwing p rows) as [kept|].
      * split; [discriminate|]. intros [r' [[<-|Hin] Hr']]; [congruence|].
        assert (X : Some kept = None) by (apply IH; exists r'; auto).
        discriminate.
      * split; [|reflexivity]. intros _.
        destruct (proj1 IH eq_refl) as [r' [Hin Hr']].
        exists r'. split; [right|]; assumption.
    + split; [|reflexivity]. intros _. exists r. split; [left|]; auto.
Qed.

Lemma filter_throwing_Some (p : row -> option bool) (rows kept : list row) :
  filter_throwing p rows = Some kept ->
  forall r, In r kept <-> In r rows /\ p r = Some true.
Proof.
  revert kept. induction rows as [|r rows IH]; cbn [filter_throwing];
    intros kept H.
  - injection H as <-. intro r. split; [intros [] | intros [[] _]].
  - destruct (p r) as [b|] eqn:E; [|discriminate].
    destruct (filter_throwing p rows) as [kept'|]; [|discriminate].
    injection H as <-. intro x. specialize (IH kept' eq_refl x).
    destruct b; cbn [In]; rewrite ?IH; split.
    + intros [<-|[H1 H2]]; auto.
    + intros [[<-|H1] H2]; auto.
    + intros [H1 H2]; auto.
    + intros [[<-|H1] H2]; [congruence | auto].
Qed.

Lemma keep_None (f : form) (r : row) :
  keep toLowerCase f r = None <->
  category f <> "" /\
  passMin (get r "volume") (VStr (minVolume f)) = true /\
  passMin (get r "liquidity") (VStr (minLiquidity f)) = true /\
  odd_category r = true.
Proof.
  unfold keep, passCategory, odd_category.
  destruct (passMin (get r "volume") (VStr (minVolume f)));
    destruct (passMin (get r "liquidity") (VStr (minLiquidity f)));
    cbn [andb];
    try (split; [discriminate | intros [_ [? [? _]]]; discriminate]).
  destruct (String.eqb_spec (category f) "") as [E|E].
  - split; [discriminate | intros [H _]; contradiction].
  - destruct (get r "category"); split; try discriminate; auto;
      intros [_ [_ [_ H]]]; discriminate.
Qed.

(** X22: with a category typed in the filter, Apply filters fails, and
    changes nothing, exactly when some fetched row passes both
    thresholds and has a category that is there and is not a string
    (a number, a boolean, an array or an object): such a value has no
    [toLowerCase].  With no category typed it never fails; and when it
    does not fail, the rows it shows are among the rows fetched. *)
Theorem poly_applyFilters_failure (s : state) :
  (applyFilters toLowerCase localeCompare s = None <->
   category (theForm s) <> "" /\
   exists r, In r (allRows s) /\
             passMin (get r "volume") (VStr (minVolume (theForm s)))
             = true /\
             passMin (get r "liquidity") (VStr (minLiquidity (theForm s)))
             = true /\
             odd_category r = true) /\
  (category (theForm s) = "" ->
   exists s', applyFilters toLowerCase localeCompare s = Some s') /\
  (forall s', applyFilters toLowerCase localeCompare s = Some s' ->
              allRows s' = allRows s /\ theForm s' = theForm s /\
              page s' = ofZ 1 /\
              forall r, In r (filteredRows s') ->
                        In r (allRows s) /\
                        keep toLowerCase (theForm s) r = Some true).
Proof.
  assert (N : applyFilters toLowerCase localeCompare s = None <->
              exists r, In r (allRows s) /\
                        keep toLowerCase (theForm s) r = None).
  { unfold applyFilters. rewrite <- filter_throwing_None.
    destruct (filter_throwing _ _); split; congruence. }
  split; [|split].
  - rewrite N. split.
    + intros [r [Hin Hk]]. apply keep_None in Hk.
      destruct Hk as [Hc Hr]. split; [exact Hc|]. exists r. tauto.
    + intros [Hc [r [Hin Hr]]]. exists r. split; [exact Hin|].
      apply keep_None. tauto.
  - intro Hc.
    destruct (applyFilters toLowerCase localeCompare s) as [s'|] eqn:E;
      [eauto|].
    destruct (proj1 N eq_refl) as [r [_ Hk]]. apply keep_None in Hk.
    destruct Hk as [Hne _]. contradiction.
  - intros s' H. unfold applyFilters in H.
    destruct (filter_throwing _ _) as [kept|] eqn:F; [|discriminate].
    injection H as <-. cbn [allRows theForm page filteredRows].
    repeat apply conj; try reflexivity.
    intros r Hr. unfold sortRows in Hr.
    apply (Permutation_in _ (sort_perm _ _)) in Hr.
    apply (filter_throwing_Some _ _ F). exact Hr.
Qed.

End Host.

End PolyScreenerFacts.

(** ** The last-24h panel: sorting, inputs and metric *)

Module Last24hFacts.

Import Last24hChanges NumFacts.

Local Open Scope string_scope.
Local Open Scope nat_scope.

Lemma handleSort_dir (s : sorting) (c : string) :
  sortDir s = "asc" \/ sortDir s = "desc" ->
  sortDir (handleSort s c) = "asc" \/ sortDir (handleSort s c) = "desc".
Proof.
  intro H. unfold handleSort. destruct (String.eqb (sortBy s) c);
    cbn [sortDir].
  - destruct (String.eqb (sortDir s) "asc"); auto.
  - destruct (String.eqb c "identifier" || String.eqb c "title"); auto.
Qed.

Lemma sorting_invariant (cols : list string) (s : sorting) :
  sortDir s = "asc" \/ sortDir s = "desc" ->
  sortDir (fold_left handleSort cols s) = "asc" \/
  sortDir (fold_left handleSort cols s) = "desc".
Proof.
  revert s. induction cols as [|c cols IH]; intros s H; [exact H|].
  cbn [fold_left]. apply IH, handleSort_dir, H.
Qed.

(** X23: after any clicks on the column headers, the direction is [asc]
    or [desc]; a click on a header makes its column the sort column; a
    click on the sort column flips the direction, so that two clicks put
    it back; a click on another column starts ascending for the
    identifier and the title and descending for the rest; and the arrow
    of a header is the double arrow exactly when its column is not the
    sort column. *)
Theorem handleSort_toggles (cols : list string) :
  let s := fold_left handleSort cols initialSorting in
  (sortDir s = "asc" \/ sortDir s = "desc") /\
  (forall c, sortBy (handleSort s c) = c) /\
  (forall c, sortBy s = c ->
             sortDir (handleSort s c) <> sortDir s /\
             handleSort (handleSort s c) c = s) /\
  (forall c, sortBy s <> c ->
             sortDir (handleSort s c)
             = if String.eqb c "identifier" || String.eqb c "title"
               then "asc" else "desc") /\
  (forall c, renderSortArrow s c = UpDown <-> sortBy s <> c) /\
  (forall c, sortBy s = c ->
             (renderSortArrow s c = Up <-> sortDir s = "asc")).
Proof.
  intro s.
  assert (D : sortDir s = "asc" \/ sortDir s = "desc")
    by (apply sorting_invariant; right; reflexivity).
  split; [exact D|]. split; [|split; [|split; [|split]]].
  - intro c. unfold handleSort.
    destruct (String.eqb_spec (sortBy s) c); cbn [sortBy]; auto.
  - intros c E. unfold handleSort. cbn [sortBy sortDir].
    apply String.eqb_eq in E. rewrite E. cbn [sortBy sortDir]. rewrite E.
    destruct s as [b d]. cbn [sortBy sortDir] in *.
    destruct D as [-> | ->]; cbn; split; try discriminate; reflexivity.
  - intros c N. unfold handleSort. apply String.eqb_neq in N. rewrite N.
    reflexivity.
  - intro c. unfold renderSortArrow.
    destruct (String.eqb_spec (sortBy s) c) as [E|E]; cbn [negb].
    + destruct (String.eqb (sortDir s) "asc");
        split; try discriminate; intro; contradiction.
    + split; auto.
  - intros c E. unfold renderSortArrow. apply String.eqb_eq in E.
    rewrite E. cbn [negb].
    destruct (String.eqb_spec (sortDir s) "asc"); split;
      try discriminate; auto; intro; contradiction.
Qed.

(** X24: whatever text the inputs hold, the limit that is stored is a
    finite number above zero and the minimum previous value that is
    stored is a finite number; a text that is a finite number above zero
    is taken as the limit as it is. *)
Theorem number_inputs_sanitised (text : string) :
  isFinite (limitFor text) = true /\
  ltb (ofZ 0) (limitFor text) = true /\
  isFinite (minPrevValueFor text) = true /\
  (isFinite (StringToNumber text) = true ->
   ltb (ofZ 0) (StringToNumber text) = true ->
   limitFor text = StringToNumber text) /\
  (isFinite (StringToNumber text) = true ->
   minPrevValueFor text = StringToNumber text).
Proof.
  unfold limitFor, minPrevValueFor. cbn [ToNumber].
  destruct (isFinite (StringToNumber text)) eqn:F; cbn [andb].
  - destruct (ltb (ofZ 0) (StringToNumber text)) eqn:L.
    + repeat split; auto.
    + repeat split; auto; discriminate.
  - repeat split; auto; discriminate.
Qed.

Lemma existsb_eqb_In (m : string) (l : list string) :
  existsb (String.eqb m) l = true <-> In m l.
Proof.
  rewrite existsb_exists. split.
  - intros [x [Hin E]]. apply String.eqb_eq in E. now subst.
  - intro H. exists m. split; [exact H | apply String.eqb_refl].
Qed.

Lemma metricEffect_settles (s : selection) :
  provider s = "kalshi" \/ provider s = "poly" ->
  settled_selection (metricEffect s).
Proof.
  intro P. unfold metricEffect.
  destruct (existsb (String.eqb (metric s)) (metricOptions (provider s)))
    eqn:E; cbn [negb].
  - split; [exact P | apply existsb_eqb_In, E].
  - split; cbn [provider metric]; [exact P|].
    destruct P as [-> | ->]; cbn; auto.
Qed.

Lemma choose_settled (s : selection) (c : choice) :
  settled_selection s -> settled_selection (choose s c).
Proof.
  intros [P M]. destruct c as [| |i].
  - cbn [choose]. destruct (String.eqb_spec (provider s) "kalshi") as [E|E].
    + split; cbn [provider metric]; [now left | now rewrite <- E].
    + apply metricEffect_settles. now left.
  - cbn [choose]. destruct (String.eqb_spec (provider s) "poly") as [E|E].
    + split; cbn [provider metric]; [now right | now rewrite <- E].
    + apply metricEffect_settles. now right.
  - cbn [choose].
    destruct (nth_error (metricOptions (provider s)) i) as [m|] eqn:N.
    + split; cbn [provider metric]; [exact P|].
      eapply nth_error_In, N.
    + split; assumption.
Qed.

Lemma choices_settled (cs : list choice) (s : selection) :
  settled_selection s -> settled_selection (fold_left choose cs s).
Proof.
  revert s. induction cs as [|c cs IH]; intros s H; [exact H|].
  cbn [fold_left]. apply IH, choose_settled, H.
Qed.

Lemma mounted_settled (p : string) :
  p = "kalshi" \/ p = "poly" -> settled_selection (mounted p).
Proof. intro P. apply metricEffect_settles. exact P. Qed.

(** X25: mounted with either provider, and after any choices in the two
    selects, the metric is one of the options of the provider; and a
    change to the other provider leaves the metric at [volume], the one
    option the two providers share, whatever it was before. *)
Theorem metric_is_an_option (p : string) (cs : list choice) :
  p = "kalshi" \/ p = "poly" ->
  let s := fold_left choose cs (mounted p) in
  In (metric s) (metricOptions (provider s)) /\
  (provider s = "kalshi" -> metric (choose s ChoosePoly) = "volume") /\
  (provider s = "poly" -> metric (choose s ChooseKalshi) = "volume") /\
  (provider s = "kalshi" -> choose s ChooseKalshi = s) /\
  (provider s = "poly" -> choose s ChoosePoly = s).
Proof.
  intros P s.
  assert (H : settled_selection s)
    by (apply choices_settled, mounted_settled, P).
  destruct H as [_ M]. split; [exact M|].
  destruct s as [q m]. cbn [provider metric] in *.
  repeat apply conj; intros ->; cbn in M; cbn [choose provider metric].
  - decompose [or] M; subst; try contradiction; reflexivity.
  - decompose [or] M; subst; try contradiction; reflexivity.
  - reflexivity.
  - reflexivity.
Qed.

Lemma metric_is_an_option_witness :
  In (metric (fold_left choose [ChooseMetric 2; ChoosePoly] (mounted "kalshi")))
     (metricOptions
        (provider (fold_left choose [ChooseMetric 2; ChoosePoly]
                             (mounted "kalshi")))).
Proof.
  exact (proj1 (@metric_is_an_option "kalshi" [ChooseMetric 2; ChoosePoly]
                  (or_introl eq_refl))).
Defined.

End Last24hFacts.

(** ** The sparkline of [Dashboard] and [buildNormPoints] *)

Module SparklineFacts.

Import Chart Dashboard Canvas NumFacts ChartFacts DashboardFacts.
Import DashboardMore.

Local Open Scope nat_scope.

Lemma series_length (data : list row) :
  List.length (series data) = List.length data.
Proof.
  unfold series. destruct (rev data) as [|r0 rest] eqn:E.
  - apply (f_equal (@List.length _)) in E. rewrite length_rev in E.
    symmetry. exact E.
  - rewrite length_map, <- E. apply length_rev.
Qed.

Lemma vixPoints_length (data : list row) :
  List.length (vixPoints data) = List.length data.
Proof.
  unfold vixPoints, mapi. rewrite mapi_from_length. apply series_length.
Qed.

Lemma values_length (data : list row) :
  List.length (values data) = List.length data.
Proof. unfold values. rewrite length_map. apply series_length. Qed.

Lemma values_ToNumber (data : list row) :
  map ToNumber (values data) = map index (series data).
Proof. unfold values. rewrite map_map. apply map_ext. reflexivity. Qed.

Lemma mapi_from_map {A B C : Type} (g : A -> B) (f : B -> nat -> C)
  (k : nat) (l : list A) :
  mapi_from f k (map g l) = mapi_from (fun a i => f (g a) i) k l.
Proof.
  revert k. induction l as [|a l IH]; intro k; cbn [map mapi_from];
    [reflexivity | now rewrite IH].
Qed.

Lemma mapi_from_ext {A B : Type} (f g : A -> nat -> B) (k : nat)
  (l : list A) :
  (forall a i, f a i = g a i) -> mapi_from f k l = mapi_from g k l.
Proof.
  intro H. revert k. induction l as [|a l IH]; intro k; cbn [mapi_from];
    [reflexivity | now rewrite H, IH].
Qed.

Lemma dashboard_band :
  sub dashboard_height dashboard_pad = ofZ 35 /\
  sub dashboard_height (mul dashboard_pad (ofZ 2)) = ofZ 25.
Proof. split; apply num_eqb_eq; vm_compute; reflexivity. Qed.

(** The point that [Dashboard] draws at index [i], as it computes it. *)
Lemma vixPoints_nth (data : list row) (i : nat) (s : sample) :
  nth_error (series data) i = Some s ->
  let n := List.length (series data) in
  let mn := Math_min (map index (series data)) in
  let mx := Math_max (map index (series data)) in
  let span := num_or (sub mx mn) (ofZ 1) in
  nth_error (vixPoints data) i
  = Some (if Nat.eqb n 1 then ofZ 0
          else mul (div (ofNat i) (sub (ofNat n) (ofZ 1))) (ofZ 100),
          sub (ofZ 35) (mul (div (sub (index s) mn) span) (ofZ 25))).
Proof.
  intros H n mn mx span. unfold vixPoints.
  rewrite mapi_nth_error, H. reflexivity.
Qed.

(** With two rows or more, the sparkline of [Dashboard] is what
    [buildNormPoints] computes on a canvas of height 45 and padding 10. *)
Lemma vixPoints_chartPoints (data : list row) :
  2 <= List.length data ->
  vixPoints data
  = chartPoints (Some (values data)) (ofZ 100) dashboard_height
                dashboard_pad.
Proof.
  intro Hn. unfold chartPoints. rewrite values_length.
  destruct (Nat.ltb_spec (List.length data) 2) as [Hlt|_]; [lia|].
  unfold normPoints, vixPoints, mapi.
  rewrite values_ToNumber, values_length. unfold values.
  rewrite mapi_from_map. apply mapi_from_ext. intros s i.
  unfold point. destruct dashboard_band as [-> ->].
  rewrite series_length.
  destruct (Nat.eqb_spec (List.length data) 1) as [E|_]; [lia|].
  reflexivity.
Qed.

(** A flat series in [Dashboard]: the span is 1 and every point is at
    [y = 35]. *)
Lemma vixPoints_flat (data : list row) (q : Qc) :
  data <> [] ->
  (forall s, In s (series data) -> index s = Fin q) ->
  num_or (sub (Math_max (map index (series data)))
              (Math_min (map index (series data)))) (ofZ 1) = ofZ 1 /\
  forall p, In p (vixPoints data) -> snd p = ofZ 35.
Proof.
  intros Hne Hflat.
  set (qs := map (fun _ : sample => q) (series data)).
  assert (E : map index (series data) = map Fin qs).
  { unfold qs. rewrite map_map. apply map_ext_in. exact Hflat. }
  assert (Hq : qs <> []).
  { unfold qs. intro N. apply (f_equal (@List.length _)) in N.
    rewrite length_map, series_length in N.
    destruct data; [congruence | discriminate]. }
  assert (A : forall a, In a qs -> a = q).
  { unfold qs. intros a Ha. apply in_map_iff in Ha.
    destruct Ha as [s [<- _]]. reflexivity. }
  destruct (Math_min_Fin Hq) as [mn [Hmn [Imn _]]].
  destruct (Math_max_Fin Hq) as [mx [Hmx [Imx _]]].
  rewrite (A mn Imn) in Hmn. rewrite (A mx Imx) in Hmx.
  assert (S1 : num_or (sub (Fin q) (Fin q)) (ofZ 1) = ofZ 1).
  { destruct (span_Fin q q) as [-> _]. unfold span_of.
    destruct (Qc_eq_dec q q) as [_|N]; [reflexivity | congruence]. }
  rewrite E, Hmn, Hmx. split; [exact S1|].
  intros p Hp. apply In_nth_error in Hp. destruct Hp as [i Hi].
  destruct (nth_error (series data) i) as [s|] eqn:Hs.
  - rewrite (vixPoints_nth data i Hs) in Hi. injection Hi as <-.
    cbn [snd]. rewrite E, Hmn, Hmx, S1.
    rewrite (Hflat s (nth_error_In _ _ Hs)).
    replace (sub (Fin q) (Fin q)) with (Fin (zq 0))
      by (unfold sub; cbn [neg add]; now rewrite Qcplus_opp_r).
    apply num_eqb_eq. vm_compute. reflexivity.
  - exfalso. apply nth_error_None in Hs.
    assert (i < List.length (vixPoints data))
      by (apply nth_error_Some; congruence).
    rewrite vixPoints_length in H. rewrite series_length in Hs. lia.
Qed.

(** A single row of finite deltas: its sample, and the one point drawn
    for it. *)
Lemma series_single_row (t : value) (v o w : Qc) :
  series [delta_row t v o w] = [spec_sample v o w (t, v, o, w)].
Proof. exact (@series_delta_rows [] t v o w). Qed.

Lemma vixPoints_single (r : row) :
  exists y, vixPoints [r] = [(ofZ 0, y)].
Proof. eexists. unfold vixPoints, series. cbn [rev app map]. reflexivity. Qed.

Lemma vixPoints_single_finite (t : value) (v o w : Qc) :
  vixPoints [delta_row t v o w] = [(ofZ 0, ofZ 35)].
Proof.
  destruct (vixPoints_single (delta_row t v o w)) as [y E].
  rewrite E. f_equal. f_equal.
  assert (Hne : [delta_row t v o w] <> []) by discriminate.
  assert (F : forall s, In s (series [delta_row t v o w]) ->
                        index s
                        = Fin (zq 100 * (v / base_of v + o / base_of o
                                         + w / base_of w) / zq 3)%Qc).
  { rewrite series_single_row. intros s [<-|[]]. reflexivity. }
  destruct (@vixPoints_flat _ _ Hne F) as [_ Y].
  apply (Y (ofZ 0, y)). rewrite E. left. reflexivity.
Qed.

(** The span of a flat series is replaced by 1. *)
Lemma flat_span (q : Qc) (qs : list Qc) :
  qs <> [] -> (forall a, In a qs -> a = q) ->
  num_or (sub (Math_max (map Fin qs)) (Math_min (map Fin qs))) (ofZ 1)
  = ofZ 1.
Proof.
  intros Hq A.
  destruct (Math_min_Fin Hq) as [mn [-> [Imn _]]].
  destruct (Math_max_Fin Hq) as [mx [-> [Imx _]]].
  rewrite (A mn Imn), (A mx Imx).
  destruct (span_Fin q q) as [-> _]. unfold span_of.
  destruct (Qc_eq_dec q q) as [_|N]; [reflexivity | congruence].
Qed.

(** C3, as the code has it: [buildNormPoints] returns nothing for a
    series of fewer than two values (or for no array), whatever the
    canvas; the sparkline that [Dashboard] computes inline has one point
    per row, so it is empty for no row only, and for a single row it is
    one point at [x = 0], which is at [y = 35] when the row's deltas are
    finite. *)
Theorem sparkline_short_series :
  (forall (NumberToString : num -> string) (values : option (list value))
          (w h pad : num),
      (forall vs, values = Some vs -> List.length vs < 2) ->
      buildNormPoints NumberToString values = ""%string /\
      buildNormPoints_with NumberToString values w h pad = ""%string /\
      chartPoints values w h pad = []) /\
  (forall data, List.length (vixPoints data) = List.length data) /\
  (forall data, vixPoints data = [] <-> data = []) /\
  (forall r, exists y, vixPoints [r] = [(ofZ 0, y)]) /\
  (forall t v o w, vixPoints [delta_row t v o w] = [(ofZ 0, ofZ 35)]).
Proof.
  split; [exact chartPoints_short|].
  split; [exact vixPoints_length|].
  split; [|split; [exact vixPoints_single | exact vixPoints_single_finite]].
  intro data. split; intro H.
  - apply (f_equal (@List.length _)) in H.
    rewrite vixPoints_length in H. destruct data; [reflexivity|].
    discriminate.
  - subst data. reflexivity.
Qed.

Lemma sparkline_short_series_witness :
  buildNormPoints (fun _ => "?"%string) (Some [VNum (ofZ 7)]) = ""%string /\
  vixPoints [delta_row (VStr "t") (zq 4) (zq 8) (zq 12)]
  = [(ofZ 0, ofZ 35)].
Proof.
  split.
  - refine (proj1 (proj1 sparkline_short_series (fun _ => "?"%string)
                     (Some [VNum (ofZ 7)]) (ofZ 100) (ofZ 40) (ofZ 4) _)).
    intros vs E. injection E as <-. simpl. lia.
  - exact (proj2 (proj2 (proj2 (proj2 sparkline_short_series)))
             (VStr "t") (zq 4) (zq 8) (zq 12)).
Defined.

(** C3 as stated fails for the code it points at: for a single row
    [Dashboard] draws one point, where [buildNormPoints] on the same
    value draws none. *)
Lemma dashboard_single_value_is_drawn :
  vixPoints [delta_row (VStr "t") (zq 4) (zq 8) (zq 12)]
  = [(ofZ 0, ofZ 35)] /\
  List.length (vixPoints [delta_row (VStr "t") (zq 4) (zq 8) (zq 12)]) = 1 /\
  List.length (values [delta_row (VStr "t") (zq 4) (zq 8) (zq 12)]) = 1 /\
  chartPoints (Some (values [delta_row (VStr "t") (zq 4) (zq 8) (zq 12)]))
              (ofZ 100) (ofZ 40) (ofZ 4) = [].
Proof.
  split; [apply vixPoints_single_finite|].
  split; [apply vixPoints_length|].
  split; [apply values_length | reflexivity].
Qed.

(** C4, as the code has it: in a flat series the span is replaced by 1,
    so that nothing is divided by zero, and all the points share one
    [y], which is the [y] of the least value, the lower edge of the
    band: 35 in [Dashboard], [height - pad = 36] in [buildNormPoints];
    the middle of the band is 22.5, respectively 20. *)
Theorem sparkline_flat_series :
  (forall (data : list row) (q : Qc),
      data <> [] ->
      (forall s, In s (series data) -> index s = Fin q) ->
      num_or (sub (Math_max (map index (series data)))
                  (Math_min (map index (series data)))) (ofZ 1) = ofZ 1 /\
      List.length (vixPoints data) = List.length data /\
      forall p, In p (vixPoints data) -> snd p = ofZ 35) /\
  (forall (q : Qc) (qs : list Qc),
      2 <= List.length qs ->
      (forall a, In a qs -> a = q) ->
      let pts := chartPoints (Some (finite_series qs))
                             (ofZ 100) (ofZ 40) (ofZ 4) in
      num_or (sub (Math_max (map ToNumber (finite_series qs)))
                  (Math_min (map ToNumber (finite_series qs)))) (ofZ 1)
      = ofZ 1 /\
      List.length pts = List.length qs /\
      forall p, In p pts -> snd p = ofZ 36) /\
  sub dashboard_height dashboard_pad = ofZ 35 /\
  sub (ofZ 40) (ofZ 4) = ofZ 36 /\
  mid_band dashboard_height dashboard_pad = Fin (zq 45 / zq 2) /\
  mid_band (ofZ 40) (ofZ 4) = ofZ 20.
Proof.
  split; [|split].
  - intros data q Hne Hflat.
    destruct (@vixPoints_flat data q Hne Hflat) as [S Y].
    split; [exact S|]. split; [apply vixPoints_length | exact Y].
  - intros q qs Hn Hflat pts.
    destruct (@chartPoints_flat q qs Hn Hflat) as [L Y].
    split; [|split; [exact L | exact Y]].
    rewrite ToNumber_finite_series. apply flat_span with (q := q).
    + destruct qs; [cbn in Hn; lia | discriminate].
    + exact Hflat.
  - repeat apply conj; apply num_eqb_eq; vm_compute; reflexivity.
Qed.

Lemma sparkline_flat_series_witness :
  List.length (vixPoints (delta_rows [(VStr "b", zq 2, zq 2, zq 2);
                                      (VStr "a", zq 2, zq 2, zq 2)])) = 2 /\
  (forall p,
      In p (vixPoints (delta_rows [(VStr "b", zq 2, zq 2, zq 2);
                                   (VStr "a", zq 2, zq 2, zq 2)])) ->
      snd p = ofZ 35).
Proof.
  assert (Hne : delta_rows [(VStr "b", zq 2, zq 2, zq 2);
                            (VStr "a", zq 2, zq 2, zq 2)] <> [])
    by discriminate.
  assert (F : forall s,
             In s (series (delta_rows [(VStr "b", zq 2, zq 2, zq 2);
                                       (VStr "a", zq 2, zq 2, zq 2)])) ->
             index s = Fin (zq 100)).
  { change (delta_rows [(VStr "b", zq 2, zq 2, zq 2);
                        (VStr "a", zq 2, zq 2, zq 2)])
      with (delta_rows ([(VStr "b", zq 2, zq 2, zq 2)]
                        ++ [(VStr "a", zq 2, zq 2, zq 2)])).
    rewrite series_delta_rows.
    intros s [<-|[<-|[]]]; apply num_eqb_eq; vm_compute; reflexivity. }
  exact (proj2 (proj1 sparkline_flat_series _ _ Hne F)).
Defined.

(** C4 as stated fails: two rows of equal deltas are drawn by
    [Dashboard] at [y = 35], and the middle of its band is at 22.5; the
    flat series [5, 5] is drawn by [buildNormPoints] at [y = 36], and
    the middle of its band is at 20. *)
Lemma sparkline_flat_not_mid_band :
  map snd (vixPoints (delta_rows [(VStr "b", zq 2, zq 2, zq 2);
                                  (VStr "a", zq 2, zq 2, zq 2)]))
  = [ofZ 35; ofZ 35] /\
  mid_band dashboard_height dashboard_pad = Fin (zq 45 / zq 2) /\
  ofZ 35 <> mid_band dashboard_height dashboard_pad /\
  map snd (chartPoints (Some [VNum (ofZ 5); VNum (ofZ 5)])
                       (ofZ 100) (ofZ 40) (ofZ 4))
  = [ofZ 36; ofZ 36] /\
  mid_band (ofZ 40) (ofZ 4) = ofZ 20 /\
  ofZ 36 <> mid_band (ofZ 40) (ofZ 4).
Proof.
  repeat apply conj;
    try (apply nums_eqb_eq; vm_compute; reflexivity);
    try (apply num_eqb_eq; vm_compute; reflexivity).
  - intro H. apply (f_equal (num_eqb (ofZ 35))) in H.
    vm_compute in H. discriminate.
  - intro H. apply (f_equal (num_eqb (ofZ 36))) in H.
    vm_compute in H. discriminate.
Qed.

(** C5, as the code has it: for two values or more, the point at index
    [i] is [x = i / (n - 1) * width] and
    [y = height - pad - ((value - min) / span) * (height - 2 * pad)];
    [buildNormPoints] computes it with width 100, height 40 and padding
    4 by default; [Dashboard] writes [y = 35 - norm * 25] inline, which
    is the formula at width 100, height 45 and padding 10. *)
Theorem sparkline_point_formula :
  (forall (NumberToString : num -> string) (vs : list value),
      2 <= List.length vs ->
      let n := List.length vs in
      let mn := Math_min (map ToNumber vs) in
      let mx := Math_max (map ToNumber vs) in
      let span := num_or (sub mx mn) (ofZ 1) in
      buildNormPoints NumberToString (Some vs)
      = join_points NumberToString
          (chartPoints (Some vs) (ofZ 100) (ofZ 40) (ofZ 4)) /\
      List.length (chartPoints (Some vs) (ofZ 100) (ofZ 40) (ofZ 4)) = n /\
      forall i v, nth_error vs i = Some v ->
        nth_error (chartPoints (Some vs) (ofZ 100) (ofZ 40) (ofZ 4)) i
        = Some (mul (div (ofNat i) (sub (ofNat n) (ofZ 1))) (ofZ 100),
                sub (sub (ofZ 40) (ofZ 4))
                    (mul (div (sub (ToNumber v) mn) span)
                         (sub (ofZ 40) (mul (ofZ 4) (ofZ 2)))))) /\
  (forall data : list row,
      2 <= List.length data ->
      let s := series data in
      let n := List.length s in
      let mn := Math_min (map index s) in
      let mx := Math_max (map index s) in
      let span := num_or (sub mx mn) (ofZ 1) in
      n = List.length data /\
      List.length (vixPoints data) = n /\
      (forall i p, nth_error s i = Some p ->
         nth_error (vixPoints data) i
         = Some (mul (div (ofNat i) (sub (ofNat n) (ofZ 1))) (ofZ 100),
                 sub (ofZ 35)
                     (mul (div (sub (index p) mn) span) (ofZ 25)))) /\
      vixPoints data
      = chartPoints (Some (values data)) (ofZ 100) dashboard_height
                    dashboard_pad) /\
  sub dashboard_height dashboard_pad = ofZ 35 /\
  sub dashboard_height (mul dashboard_pad (ofZ 2)) = ofZ 25 /\
  sub (ofZ 40) (ofZ 4) = ofZ 36 /\
  sub (ofZ 40) (mul (ofZ 4) (ofZ 2)) = ofZ 32.
Proof.
  split; [|split].
  - intros NumberToString vs Hn n mn mx span.
    split; [apply buildNormPoints_with_points|].
    destruct (@chartPoints_point vs (ofZ 100) (ofZ 40) (ofZ 4) Hn)
      as [L P].
    split; [exact L|]. intros i v Hi. rewrite (P i v Hi). reflexivity.
  - intros data Hn s n mn mx span.
    assert (En : n = List.length data) by apply series_length.
    split; [exact En|].
    split; [rewrite En; apply vixPoints_length|].
    split; [|apply vixPoints_chartPoints, Hn].
    intros i p Hi. rewrite (vixPoints_nth data i Hi). fold s n.
    destruct (Nat.eqb_spec n 1) as [E|_]; [lia | reflexivity].
  - repeat apply conj; apply num_eqb_eq; vm_compute; reflexivity.
Qed.

Lemma sparkline_point_formula_witness :
  List.length (vixPoints [delta_row (VStr "b") (zq 4) (zq 8) (zq 12);
                          delta_row (VStr "a") (zq 2) (zq 4) (zq 6)]) = 2 /\
  vixPoints [delta_row (VStr "b") (zq 4) (zq 8) (zq 12);
             delta_row (VStr "a") (zq 2) (zq 4) (zq 6)]
  = chartPoints
      (Some (values [delta_row (VStr "b") (zq 4) (zq 8) (zq 12);
                     delta_row (VStr "a") (zq 2) (zq 4) (zq 6)]))
      (ofZ 100) dashboard_height dashboard_pad.
Proof.
  assert (H : 2 <= List.length
                     [delta_row (VStr "b") (zq 4) (zq 8) (zq 12);
                      delta_row (VStr "a") (zq 2) (zq 4) (zq 6)])
    by (simpl; lia).
  split.
  - rewrite (proj1 (proj2 (proj1 (proj2 sparkline_point_formula) _ H))).
    symmetry.
    exact (proj1 (proj1 (proj2 sparkline_point_formula) _ H)).
  - exact (proj2 (proj2 (proj2
             (proj1 (proj2 sparkline_point_formula) _ H)))).
Defined.

(** C5 as stated fails for the code it points at: rows whose indexes
    are 100 and 200 are drawn by [Dashboard] at [y = 35] and [y = 10];
    the formula on the default canvas, which [buildNormPoints] follows,
    puts them at [y = 36] and [y = 4]. *)
Lemma dashboard_formula_not_default_canvas :
  map index (series [delta_row (VStr "b") (zq 4) (zq 8) (zq 12);
                     delta_row (VStr "a") (zq 2) (zq 4) (zq 6)])
  = [ofZ 100; ofZ 200] /\
  map fst (vixPoints [delta_row (VStr "b") (zq 4) (zq 8) (zq 12);
                      delta_row (VStr "a") (zq 2) (zq 4) (zq 6)])
  = [ofZ 0; ofZ 100] /\
  map snd (vixPoints [delta_row (VStr "b") (zq 4) (zq 8) (zq 12);
                      delta_row (VStr "a") (zq 2) (zq 4) (zq 6)])
  = [ofZ 35; ofZ 10] /\
  map fst (chartPoints (Some [VNum (ofZ 100); VNum (ofZ 200)])
                       (ofZ 100) (ofZ 40) (ofZ 4))
  = [ofZ 0; ofZ 100] /\
  map snd (chartPoints (Some [VNum (ofZ 100); VNum (ofZ 200)])
                       (ofZ 100) (ofZ 40) (ofZ 4))
  = [ofZ 36; ofZ 4].
Proof.
  repeat apply conj; apply nums_eqb_eq; vm_compute; reflexivity.
Qed.

End SparklineFacts.

(** ** The order of the sorted rows *)

Module SortFacts.

Import Screener ScreenerOrder NumFacts ScreenerFacts.

Local Open Scope string_scope.
Local Open Scope nat_scope.




Lemma text_of (f : form) (r : row) (s : string) :
  get r (sortBy f) = VStr s -> text f r = s.
Proof. unfold text. now intros ->. Qed.






End SortFacts.

(** ** The number of pages and the page number *)

Module PagingFacts.

Import UseApi Screener ScreenerPaging NumFacts ScreenerFacts.

Local Open Scope nat_scope.

(** In a state of the shape the page reaches, the effect on
    [[totalPages]] has nothing to do. *)
Lemma page_effect_idle (before s : state) :
  invariant s -> page_effect before s = s.
Proof.
  intros [k [p [m [tp [Hk [Hp [Hin [Hm [Hm0 [Ht [Hr W]]]]]]]]]]].
  unfold page_effect.
  destruct (num_eqb (totalPages before) (totalPages s)); [reflexivity|].
  unfold clampPage. rewrite Hk, Ht, Math_min_pair.
  replace (Z.min k tp) with k by lia. rewrite <- Hk.
  destruct s; reflexivity.
Qed.

Lemma step_without_clamp (lc : string -> string -> Z) (s : state)
  (e : event) :
  invariant s -> step lc s e = data_effects s e (handle lc s e).
Proof.
  intro I. unfold step, effects.
  apply page_effect_idle, invariant_data_effects, invariant_handle, I.
Qed.

(** What changes the number of pages puts the page back to 1. *)
Lemma pages_changed_page_one (lc : string -> string -> Z) (s : state)
  (e : event) :
  invariant s ->
  totalPages (step lc s e) <> totalPages s ->
  page (step lc s e) = ofZ 1.
Proof.
  intros I. rewrite (step_without_clamp lc e I).
  unfold data_effects.
  destruct e as [i v| | | |o| | | | |j net]; cbn [handle].
  - cbn [refreshNonce setForm]. rewrite num_eqb_refl.
    intro H. exfalso. apply H. reflexivity.
  - cbn [refreshNonce applyFilters]. rewrite num_eqb_refl. reflexivity.
  - cbn [refreshNonce resetFilters]. rewrite num_eqb_refl. reflexivity.
  - destruct (num_eqb _ _); intro H; exfalso; apply H; reflexivity.
  - cbn [refreshNonce setPage setPageSize]. rewrite num_eqb_refl.
    reflexivity.
  - cbn [refreshNonce setPage]. rewrite num_eqb_refl.
    intro H. exfalso. apply H. reflexivity.
  - cbn [refreshNonce setPage]. rewrite num_eqb_refl.
    intro H. exfalso. apply H. reflexivity.
  - cbn [refreshNonce setPage]. rewrite num_eqb_refl.
    intro H. exfalso. apply H. reflexivity.
  - cbn [refreshNonce setPage]. rewrite num_eqb_refl.
    intro H. exfalso. apply H. reflexivity.
  - cbn [refreshNonce setScreener]. rewrite num_eqb_refl.
    destruct (delivered (screener s) j net) as [[rs|v]|];
      cbn [onData]; try reflexivity;
      intro H; exfalso; apply H; reflexivity.
Qed.

(** C9, as the code has it: the number of pages is
    [max(1, ceil(count / pageSize))], the ceiling being the integer [k]
    with [(k - 1) * size < count <= k * size]; in every state the page
    reaches, the page number is within [1] and the number of pages, with
    no action of the user; it is kept there by the handlers, which put
    the page back to 1 whenever they change the number of pages, so that
    the effect on [[totalPages]], which sets the page to
    [min(page, totalPages)] when the number of pages has changed, never
    has a page to move.  The example: 47 rows by pages of 10, on page 5
    of 5; choosing pages of 25 gives 2 pages and page 1.  The effect by
    itself, in a state that no run reaches (page 5 of 2), gives page
    2. *)
Theorem totalPages_and_page_reset (lc : string -> string -> Z) :
  (forall (count : nat) (p : Z),
      (0 < p)%Z ->
      exists k, ((k - 1) * p < Z.of_nat count <= k * p)%Z /\
                pagesOf count (ofZ p) = ofZ (Z.max 1 k)) /\
  (forall es,
      exists k tp, page (run lc init es) = ofZ k /\
                   totalPages (run lc init es) = ofZ tp /\
                   (1 <= k <= tp)%Z) /\
  (forall es e,
      let s := run lc init es in
      totalPages (step lc s e) <> totalPages s ->
      page (step lc s e) = ofZ 1) /\
  (forall es e,
      let s := run lc init es in
      step lc s e = data_effects s e (handle lc s e)) /\
  (forall before s k tp,
      page s = ofZ k -> totalPages s = ofZ tp ->
      totalPages before <> totalPages s ->
      page (page_effect before s) = ofZ (Z.min k tp)) /\
  (let s := run lc init [arrival 47; PageSize Size10; Last] in
   List.length (filteredRows s) = 47 /\
   totalPages s = ofZ 5 /\ page s = ofZ 5 /\
   totalPages (step lc s (PageSize Size25)) = ofZ 2 /\
   page (step lc s (PageSize Size25)) = ofZ 1) /\
  (let s := setPage (ofZ 5) (onData (Rows (repeat [] 47)) init) in
   totalPages s = ofZ 2 /\ page s = ofZ 5 /\
   page (page_effect (setPageSize (ofZ 10) s) s) = ofZ 2).
Proof.
  split; [exact pagesOf_ceil|].
  split; [|split; [|split; [|split; [|split]]]].
  - intro es.
    destruct (invariant_run lc es invariant_init)
      as [k [p [m [tp [Hk [Hp [Hin [Hm [Hm0 [Ht [Hr W]]]]]]]]]]].
    exists k, tp. auto.
  - intros es e s.
    apply pages_changed_page_one, invariant_run, invariant_init.
  - intros es e s.
    apply step_without_clamp, invariant_run, invariant_init.
  - intros before s k tp Hk Ht Hd. unfold page_effect.
    rewrite (num_eqb_neq Hd). exact (proj1 (clampPage_page s Hk Ht)).
  - cbv zeta. split; [reflexivity|].
    repeat apply conj; apply num_eqb_eq; vm_compute; reflexivity.
  - cbv zeta. repeat apply conj; apply num_eqb_eq; vm_compute; reflexivity.
Qed.

Lemma totalPages_and_page_reset_witness :
  page (step lex (run lex init [arrival 47; PageSize Size10; Last])
             (PageSize Size25)) = ofZ 1.
Proof.
  refine (proj1 (proj2 (proj2 (totalPages_and_page_reset lex)))
            [arrival 47; PageSize Size10; Last] (PageSize Size25) _).
  assert (A : totalPages (step lex (run lex init
                                      [arrival 47; PageSize Size10; Last])
                               (PageSize Size25)) = ofZ 2)
    by (apply num_eqb_eq; vm_compute; reflexivity).
  assert (B : totalPages (run lex init [arrival 47; PageSize Size10; Last])
              = ofZ 5)
    by (apply num_eqb_eq; vm_compute; reflexivity).
  rewrite A, B. intro H. apply ofZ_inj in H. discriminate.
Defined.

(** C9 as stated fails for the page: with 47 rows by pages of 10, on
    page 5 of 5, choosing pages of 25 leaves 2 pages, and the page shown
    is page 1, not page 2. *)
Lemma page_size_change_resets_page :
  totalPages (run lex init [arrival 47; PageSize Size10; Last]) = ofZ 5 /\
  page (run lex init [arrival 47; PageSize Size10; Last]) = ofZ 5 /\
  totalPages (run lex init [arrival 47; PageSize Size10; Last;
                            PageSize Size25]) = ofZ 2 /\
  page (run lex init [arrival 47; PageSize Size10; Last;
                      PageSize Size25]) = ofZ 1 /\
  page (run lex init [arrival 47; PageSize Size10; Last;
                      PageSize Size25]) <> ofZ 2.
Proof.
  assert (P : page (run lex init [arrival 47; PageSize Size10; Last;
                                  PageSize Size25]) = ofZ 1)
    by (apply num_eqb_eq; vm_compute; reflexivity).
  repeat apply conj; try (apply num_eqb_eq; vm_compute; reflexivity).
  rewrite P. intro H. apply ofZ_inj in H. discriminate.
Qed.

End PagingFacts.
